(** * Connection lifecycle and wire framing of the driver's topology package

    A shallow embedding of [x/mongo/driver/topology/connection.go]: the
    [connection] state machine (connect, read, write, close), the wire
    framer, the two secure-transport paths and the reference-counted
    [Connection] handle, with the properties the specification states
    about them. *)

From Stdlib Require Import ZArith List String Ascii Bool Lia DecimalString.
Import ListNotations.
#[local] Set Warnings "-register-all".
Open Scope string_scope.
Open Scope list_scope.
Open Scope Z_scope.

(** ** Go values *)

(** A call either returns or panics (nil-pointer dereference). *)
Inductive go (A : Type) : Type :=
| Ret (a : A)
| Panic.
Arguments Ret {A} a.
Arguments Panic {A}.

Definition go_bind {A B} (m : go A) (k : A -> go B) : go B :=
  match m with
  | Ret a => k a
  | Panic => Panic
  end.

Notation "x <- m ;; k" := (go_bind m (fun x => k))
  (at level 61, m at next level, right associativity).
Notation "' p <- m ;; k" := (go_bind m (fun p => k))
  (at level 61, p pattern, m at next level, right associativity).

(** Fixed-width integers: the value is kept in [Z] and wrapped on
    conversion and arithmetic. *)
Definition wrap_signed (w : Z) (x : Z) : Z :=
  let m := x mod 2 ^ w in
  if m <? 2 ^ (w - 1) then m else m - 2 ^ w.

Definition int32 (x : Z) : Z := wrap_signed 32 x.
Definition int (x : Z) : Z := wrap_signed 64 x.
Definition uint32 (x : Z) : Z := x mod 2 ^ 32.

Definition byte_val (b : Byte.byte) : Z := Z.of_N (Byte.to_N b).

(** [binary.LittleEndian.Uint32] on the first four bytes. *)
Definition LittleEndian_Uint32 (b : list Byte.byte) : Z :=
  match b with
  | b0 :: b1 :: b2 :: b3 :: _ =>
      Z.lor (byte_val b0)
        (Z.lor (Z.shiftl (byte_val b1) 8)
           (Z.lor (Z.shiftl (byte_val b2) 16) (Z.shiftl (byte_val b3) 24)))
  | _ => 0
  end.

(** [%d] of [fmt]: signed decimal. *)
Definition fmt_d (x : Z) : string := NilZero.string_of_int (Z.to_int x).

(** ** Errors *)

(** The error values that travel through this file.  The package-level
    sentinels are constructors of their own; [fmt_Errorf] and
    [errors_New] carry the rendered text; [net_Error] is an error of the
    operating system's network layer with its [Timeout()] answer;
    [ConnectionError] is the package's wrapper. *)
Inductive error : Type :=
| context_Canceled
| context_DeadlineExceeded
| io_EOF
| io_ErrUnexpectedEOF
| errResponseTooLarge
| errLoadBalancedStateMismatch
| ErrConnectionClosed
| errors_New (msg : string)
| fmt_Errorf (msg : string) (wraps : option error)
| net_Error (timeout : bool) (msg : string)
| ConnectionError (ConnectionID : string) (Wrapped : option error)
    (init : bool) (message : string).

(** [Error()]: the text of an error.  A [ConnectionError] is rendered
    by its message, which is all this file needs of it. *)
Definition Error (e : error) : string :=
  match e with
  | context_Canceled => "context canceled"
  | context_DeadlineExceeded => "context deadline exceeded"
  | io_EOF => "EOF"
  | io_ErrUnexpectedEOF => "unexpected EOF"
  | errResponseTooLarge => "length of read message too large"
  | errLoadBalancedStateMismatch =>
      "driver attempted to initialize in load balancing mode, but the server does not support this mode"
  | ErrConnectionClosed => "connection is closed"
  | errors_New m => m
  | fmt_Errorf m _ => m
  | net_Error _ m => m
  | ConnectionError _ _ _ m => m
  end.

(** [errors.Is(e, context.Canceled)]: follows the chain of wrapped
    errors. *)
Fixpoint errors_Is_Canceled (e : error) : bool :=
  match e with
  | context_Canceled => true
  | fmt_Errorf _ (Some w) => errors_Is_Canceled w
  | ConnectionError _ (Some w) _ _ => errors_Is_Canceled w
  | _ => false
  end.

(** [errors.As(err, &nerr) && nerr.Timeout()] for [nerr] a [net.Error]:
    the first network error on the chain answers. *)
Fixpoint net_Timeout (e : error) : bool :=
  match e with
  | net_Error t _ => t
  | context_DeadlineExceeded => true
  | fmt_Errorf _ (Some w) => net_Timeout w
  | ConnectionError _ (Some w) _ _ => net_Timeout w
  | _ => false
  end.

(** ** The socket *)

Record tls_Config : Type := mkTLS {
  ServerName : string;
  InsecureSkipVerify : bool
}.

Record tlcp_Config : Type := mkTLCP {
  tlcp_ServerName : string;
  tlcp_InsecureSkipVerify : bool
}.

(** The secure-transport steps carried out over a socket. *)
Inductive transport_event : Type :=
| tls_Client (config : tls_Config)
| tls_HandshakeContext
| ocsp_Verify
| tlcp_Client (config : tlcp_Config)
| tlcp_HandshakeContext.

(** A [net.Conn], seen from the driver.  What the peer and the network
    do is data of the socket: [incoming] are the bytes that arrive
    before reading ends, [readFailure] is how a read ends once they are
    used up, [writeResult], [deadlineResult] and [closeResult] are the
    answers of the respective calls.  What the driver did is recorded in
    [outgoing], the two deadlines, [closeCalls] and [transport] (a
    secure-transport client wraps the socket it is given, so its steps
    are steps on that socket, latest last). *)
Record netConn : Type := mkNetConn {
  incoming : list Byte.byte;
  readFailure : error;
  writeResult : option error;
  deadlineResult : option error;
  closeResult : option error;
  outgoing : list Byte.byte;
  readDeadline : option Z;
  writeDeadline : option Z;
  closeCalls : nat;
  transport : list transport_event
}.

Definition with_incoming (s : netConn) (b : list Byte.byte) : netConn :=
  mkNetConn b (readFailure s) (writeResult s) (deadlineResult s)
    (closeResult s) (outgoing s) (readDeadline s) (writeDeadline s)
    (closeCalls s) (transport s).

(** [io.ReadFull(nc, buf)] for [len(buf) = k]: the bytes read, their
    number and the error.  The error is nil exactly when [k] bytes were
    read; an end of stream after some bytes is [io.ErrUnexpectedEOF]. *)
Definition io_ReadFull (s : netConn) (k : nat)
  : netConn * list Byte.byte * Z * option error :=
  if (k <=? List.length (incoming s))%nat then
    (with_incoming s (skipn k (incoming s)), firstn k (incoming s),
     Z.of_nat k, None)
  else
    let n := List.length (incoming s) in
    let e := match readFailure s, n with
             | io_EOF, S _ => io_ErrUnexpectedEOF
             | e, _ => e
             end in
    (with_incoming s [], incoming s, Z.of_nat n, Some e).

Definition netConn_Write (s : netConn) (wm : list Byte.byte)
  : netConn * option error :=
  match writeResult s with
  | None =>
      (mkNetConn (incoming s) (readFailure s) (writeResult s)
         (deadlineResult s) (closeResult s) (outgoing s ++ wm)
         (readDeadline s) (writeDeadline s) (closeCalls s) (transport s), None)
  | Some e => (s, Some e)
  end.

Definition netConn_Close (s : netConn) : netConn * option error :=
  (mkNetConn (incoming s) (readFailure s) (writeResult s)
     (deadlineResult s) (closeResult s) (outgoing s)
     (readDeadline s) (writeDeadline s) (S (closeCalls s)) (transport s),
   closeResult s).

Definition SetReadDeadline (s : netConn) (d : option Z)
  : netConn * option error :=
  match deadlineResult s with
  | None =>
      (mkNetConn (incoming s) (readFailure s) (writeResult s)
         (deadlineResult s) (closeResult s) (outgoing s)
         d (writeDeadline s) (closeCalls s) (transport s), None)
  | Some e => (s, Some e)
  end.

Definition SetWriteDeadline (s : netConn) (d : option Z)
  : netConn * option error :=
  match deadlineResult s with
  | None =>
      (mkNetConn (incoming s) (readFailure s) (writeResult s)
         (deadlineResult s) (closeResult s) (outgoing s)
         (readDeadline s) d (closeCalls s) (transport s), None)
  | Some e => (s, Some e)
  end.

(** ** Contexts *)

(** A [context.Context] as one socket operation sees it: its deadline,
    whether it was cancelled while the cancellation listener of the
    operation was listening, and the answer of [ctx.Err()] after the
    operation. *)
Record context : Type := mkContext {
  Deadline : option Z;
  canceledWhileListening : bool;
  ctx_Err : option error
}.

(** ** Server description and configuration *)

Inductive CompressorID : Type :=
| CompressorNoOp
| CompressorSnappy
| CompressorZLib
| CompressorZstd.

Definition CompressorID_eqb (a b : CompressorID) : bool :=
  match a, b with
  | CompressorNoOp, CompressorNoOp
  | CompressorSnappy, CompressorSnappy
  | CompressorZLib, CompressorZLib
  | CompressorZstd, CompressorZstd => true
  | _, _ => false
  end.

(** The fields of [description.Server] this file reads. *)
Record description_Server : Type := mkServer {
  ServiceID : option string;
  MaxMessageSize : Z;
  Compression : list string
}.

Definition empty_Server : description_Server := mkServer None 0 [].

(** What a handshaker does with the connection it is given: it can only
    use the [initConnection] adapter. *)
Inductive initOp : Type :=
| init_Write (ctx : context) (wm : list Byte.byte)
| init_Read (ctx : context)
| init_SetStreaming (streaming : bool).

Record HandshakeInformation : Type := mkInfo {
  Description : description_Server;
  ServerConnectionID : option Z
}.

(** A [driver.Handshaker]: the wire traffic and the answer of each of
    its two phases. *)
Record Handshaker : Type := mkHandshaker {
  hello_io : list initOp;
  hello_result : HandshakeInformation + error;
  finish_io : list initOp;
  finish_result : option error
}.

(** The configuration.  The collaborators it holds are injected
    strategies; each is given by its answer: [dialer] by the socket or
    error of [DialContext], the two connection sources by the outcome of
    the handshake of the client they build, the OCSP options by the
    outcome of [ocsp.Verify]. *)
Record connectionConfig : Type := mkConfig {
  dialer : netConn + error;
  handshaker : option Handshaker;
  loadBalanced : bool;
  tlsConfig : option tls_Config;
  tlsHandshake : option error;
  ocspVerify : option error;
  tlcpConfig : option tlcp_Config;
  tlcpHandshake : option error;
  compressors : list string;
  zlibLevel : option Z;
  zstdLevel : option Z;
  getGenerationFn : option (option string -> Z)
}.

(** ** The connection *)

Inductive connState : Type :=
| connDisconnected
| connConnected
| connInitialized.

Definition connState_eqb (a b : connState) : bool :=
  match a, b with
  | connDisconnected, connDisconnected
  | connConnected, connConnected
  | connInitialized, connInitialized => true
  | _, _ => false
  end.

Record connection : Type := mkConnection {
  state : connState;
  id : string;
  nc : option netConn;
  addr : string;
  desc : description_Server;
  compressor : CompressorID;
  zliblevel : Z;
  zstdLevel_ : Z;
  config : connectionConfig;
  canStream : bool;
  currentlyStreaming : bool;
  serverConnectionID : option Z;
  driverConnectionID : Z;
  generation : Z;
  awaitRemainingBytes : option Z
}.

Definition set_state (c : connection) (s : connState) : connection :=
  mkConnection s (id c) (nc c) (addr c) (desc c) (compressor c)
    (zliblevel c) (zstdLevel_ c) (config c) (canStream c)
    (currentlyStreaming c) (serverConnectionID c) (driverConnectionID c)
    (generation c) (awaitRemainingBytes c).

Definition set_nc (c : connection) (s : option netConn) : connection :=
  mkConnection (state c) (id c) s (addr c) (desc c) (compressor c)
    (zliblevel c) (zstdLevel_ c) (config c) (canStream c)
    (currentlyStreaming c) (serverConnectionID c) (driverConnectionID c)
    (generation c) (awaitRemainingBytes c).

Definition set_awaitRemainingBytes (c : connection) (r : option Z)
  : connection :=
  mkConnection (state c) (id c) (nc c) (addr c) (desc c) (compressor c)
    (zliblevel c) (zstdLevel_ c) (config c) (canStream c)
    (currentlyStreaming c) (serverConnectionID c) (driverConnectionID c)
    (generation c) r.

Definition setStreaming (c : connection) (streaming : bool) : connection :=
  mkConnection (state c) (id c) (nc c) (addr c) (desc c) (compressor c)
    (zliblevel c) (zstdLevel_ c) (config c) (canStream c)
    streaming (serverConnectionID c) (driverConnectionID c)
    (generation c) (awaitRemainingBytes c).

(** [close]: only the call that moves the state from [connConnected]
    to [connDisconnected] closes the socket.  The deferred
    [closeConnectContext] stops the connect listener, which carries no
    state here. *)
Definition close (c : connection) : connection * option error :=
  if connState_eqb (state c) connConnected then
    let c := set_state c connDisconnected in
    match nc c with
    | Some s =>
        let '(s', err) := netConn_Close s in
        (set_nc c (Some s'), err)
    | None => (c, None)
    end
  else (c, None).

Definition closed (c : connection) : bool :=
  connState_eqb (state c) connDisconnected.

Definition cancellationListenerCallback (c : connection) : connection :=
  fst (close c).

(** The cancellation listener is an interface ([contextListener]); what
    it observes is taken from the context.  It races one socket
    operation: if the cancellation fires while it listens it invokes the
    abort callback and records that it aborted, and [StopListening]
    reports that record.  The callback only touches the state and the
    close count of the socket, which the socket operation does not read,
    so it is applied where the listener is stopped. *)
Definition StopListening (ctx : context) (abortFn : connection -> connection)
  (c : connection) : connection * bool :=
  if canceledWhileListening ctx then (abortFn c, true) else (c, false).

Definition direct_Timeout (e : error) : bool :=
  match e with
  | net_Error t _ => t
  | context_DeadlineExceeded => true
  | _ => false
  end.

Definition transformNetworkError (ctx : context) (originalError : option error)
  (contextDeadlineUsed : bool) : option error :=
  match originalError with
  | None => None
  | Some e =>
      if match ctx_Err ctx with
         | Some ce => errors_Is_Canceled ce
         | None => false
         end
      then ctx_Err ctx
      else if negb contextDeadlineUsed then Some e
      else if direct_Timeout e then
        Some (fmt_Errorf
                (Error context_DeadlineExceeded ++ ": "
                 ++ "client timed out waiting for server response" ++ ": "
                 ++ Error e)%string
                (Some context_DeadlineExceeded))
      else Some e
  end.

Definition ctx_Deadline (ctx : context) : option Z * bool :=
  match Deadline ctx with
  | Some d => (Some d, true)
  | None => (None, false)
  end.

(** [write]: the socket call, then the deferred function. *)
Definition write (ctx : context) (wm : list Byte.byte) (c : connection)
  : go (connection * option error) :=
  match nc c with
  | None => Panic
  | Some s =>
      let '(s', err) := netConn_Write s wm in
      let c := set_nc c (Some s') in
      let '(c, aborted) := StopListening ctx cancellationListenerCallback c in
      let err := match err with
                 | None => if aborted then Some context_Canceled else None
                 | Some e => Some e
                 end in
      Ret (c, err)
  end.

Definition writeWireMessage (ctx : context) (wm : list Byte.byte)
  (c : connection) : go (connection * option error) :=
  if negb (connState_eqb (state c) connConnected) then
    Ret (c, Some (ConnectionError (id c) None false "connection is closed"))
  else
    let '(deadline, contextDeadlineUsed) := ctx_Deadline ctx in
    match nc c with
    | None => Panic
    | Some s =>
        match SetWriteDeadline s deadline with
        | (_, Some err) =>
            Ret (c, Some (ConnectionError (id c) (Some err) false
                            "failed to set write deadline"))
        | (s', None) =>
            '(c, err) <- write ctx wm (set_nc c (Some s')) ;;
            match err with
            | Some _ =>
                let c := fst (close c) in
                Ret (c, Some (ConnectionError (id c)
                                (transformNetworkError ctx err
                                   contextDeadlineUsed)
                                false
                                "unable to write wire message to network"))
            | None => Ret (c, None)
            end
        end
    end.

Definition defaultMaxMessageSize : Z := 48000000.

(** [parseWmSizeBytes]: the size as an [int32], or the error. *)
Definition parseWmSizeBytes (c : connection) (wmSizeBytes : list Byte.byte)
  : Z + error :=
  let size := int32 (LittleEndian_Uint32 wmSizeBytes) in
  if size <? 4 then
    inr (fmt_Errorf ("malformed message length: " ++ fmt_d size)%string None)
  else
    let maxMessageSize := MaxMessageSize (desc c) in
    let maxMessageSize :=
      if maxMessageSize =? 0 then defaultMaxMessageSize else maxMessageSize in
    if uint32 size >? maxMessageSize then inr errResponseTooLarge
    else inl size.

Definition isCSOTTimeout (err : error) : bool := net_Timeout err.

Definition zero_byte : Byte.byte := Byte.x00.

(** The array [sizeBuf] after a read of [n <= 4] bytes into it. *)
Definition fill (k : nat) (bs : list Byte.byte) : list Byte.byte :=
  firstn k (bs ++ repeat zero_byte k).

(** The body of [read], before its deferred function has run. *)
Definition read_body (c : connection)
  : go (connection * list Byte.byte * string * option error) :=
  match nc c with
  | None => Panic
  | Some s =>
      let '(s, bs, n, err) := io_ReadFull s 4 in
      let c := set_nc c (Some s) in
      match err with
      | Some e =>
          let l := int32 n in
          let c := if (l =? 0) && isCSOTTimeout e
                   then set_awaitRemainingBytes c (Some l) else c in
          Ret (c, [], "incomplete read of message header", Some e)
      | None =>
          let sizeBuf := fill 4 bs in
          match parseWmSizeBytes c sizeBuf with
          | inr e => Ret (c, [], Error e, Some e)
          | inl size =>
              let '(s, body, n, err) := io_ReadFull s (Z.to_nat size - 4)%nat in
              let c := set_nc c (Some s) in
              let dst := sizeBuf ++ fill (Z.to_nat size - 4)%nat body in
              match err with
              | Some e =>
                  let remainingBytes := int32 (int32 (size - 4) - int32 n) in
                  let c := if (remainingBytes >? 0) && isCSOTTimeout e
                           then set_awaitRemainingBytes c (Some remainingBytes)
                           else c in
                  Ret (c, dst, "incomplete read of full message", Some e)
              | None => Ret (c, dst, "", None)
              end
          end
      end
  end.

(** [read]: the body above, then the deferred function, which overwrites
    a nil error when the listener had aborted. *)
Definition read (ctx : context) (c : connection)
  : go (connection * list Byte.byte * string * option error) :=
  '(c, bytesRead, errMsg, err) <- read_body c ;;
  let '(c, aborted) := StopListening ctx cancellationListenerCallback c in
  match err with
  | None =>
      if aborted then
        Ret (c, bytesRead, "unable to read server response",
             Some context_Canceled)
      else Ret (c, bytesRead, errMsg, None)
  | Some e => Ret (c, bytesRead, errMsg, Some e)
  end.

(** [readWireMessage]: nil bytes are [None]. *)
Definition readWireMessage (ctx : context) (c : connection)
  : go (connection * option (list Byte.byte) * option error) :=
  if negb (connState_eqb (state c) connConnected) then
    Ret (c, None, Some (ConnectionError (id c) None false
                          "connection is closed"))
  else
    let '(deadline, contextDeadlineUsed) := ctx_Deadline ctx in
    match nc c with
    | None => Panic
    | Some s =>
        match SetReadDeadline s deadline with
        | (_, Some err) =>
            Ret (c, None, Some (ConnectionError (id c) (Some err) false
                                  "failed to set read deadline"))
        | (s', None) =>
            '(c, dst, errMsg, err) <- read ctx (set_nc c (Some s')) ;;
            match err with
            | Some _ =>
                let c := match awaitRemainingBytes c with
                         | None => fst (close c)
                         | Some _ => c
                         end in
                let message := errMsg in
                Ret (c, None, Some (ConnectionError (id c)
                                      (transformNetworkError ctx err
                                         contextDeadlineUsed)
                                      false message))
            | None => Ret (c, Some dst, None)
            end
        end
    end.

(** ** Secure transport *)

Definition add_transport (s : netConn) (e : transport_event) : netConn :=
  mkNetConn (incoming s) (readFailure s) (writeResult s) (deadlineResult s)
    (closeResult s) (outgoing s) (readDeadline s) (writeDeadline s)
    (closeCalls s) (transport s ++ [e]).

(** [strings.LastIndex(s, ":")], [-1] when there is none. *)
Fixpoint LastIndex_from (s : string) (i acc : Z) : Z :=
  match s with
  | EmptyString => acc
  | String a r => LastIndex_from r (i + 1) (if Ascii.eqb a ":" then i else acc)
  end.

Definition LastIndex_colon (s : string) : Z := LastIndex_from s 0 (-1).

(** [configureTLS]: the socket after the steps and the error; on
    success the returned client is that socket. *)
Definition configureTLS (handshake ocsp : option error) (s : netConn)
  (addr : string) (config : tls_Config) : netConn * option error :=
  let config :=
    if String.eqb (ServerName config) "" then
      let hostname := addr in
      let colonPos := LastIndex_colon hostname in
      let colonPos := if colonPos =? -1
                      then Z.of_nat (String.length hostname) else colonPos in
      let hostname := substring 0 (Z.to_nat colonPos) hostname in
      mkTLS hostname (InsecureSkipVerify config)
    else config in
  let s := add_transport s (tls_Client config) in
  let s := add_transport s tls_HandshakeContext in
  match handshake with
  | Some err => (s, Some err)
  | None =>
      if negb (InsecureSkipVerify config) then
        let s := add_transport s ocsp_Verify in
        match ocsp with
        | Some ocspErr => (s, Some ocspErr)
        | None => (s, None)
        end
      else (s, None)
  end.

(** [configureTLCP]: the client is built from the configuration as it
    is given and only the handshake is performed. *)
Definition configureTLCP (handshake : option error) (s : netConn)
  (addr : string) (config : tlcp_Config) : netConn * option error :=
  let s := add_transport s (tlcp_Client config) in
  let s := add_transport s tlcp_HandshakeContext in
  match handshake with
  | Some err => (s, Some err)
  | None => (s, None)
  end.

(** ** connect *)

(** The [initConnection] adapter: what one step of a handshaker does to
    the connection. *)
Definition run_initOp (op : initOp) (c : connection) : go connection :=
  match op with
  | init_Write ctx wm => '(c, _) <- writeWireMessage ctx wm c ;; Ret c
  | init_Read ctx => '(c, _, _) <- readWireMessage ctx c ;; Ret c
  | init_SetStreaming streaming => Ret (setStreaming c streaming)
  end.

Fixpoint run_initOps (ops : list initOp) (c : connection) : go connection :=
  match ops with
  | [] => Ret c
  | op :: rest => c <- run_initOp op c ;; run_initOps rest c
  end.

Definition set_generation (c : connection) (g : Z) : connection :=
  mkConnection (state c) (id c) (nc c) (addr c) (desc c) (compressor c)
    (zliblevel c) (zstdLevel_ c) (config c) (canStream c)
    (currentlyStreaming c) (serverConnectionID c) (driverConnectionID c)
    g (awaitRemainingBytes c).

Definition set_handshake (c : connection) (info : HandshakeInformation)
  : connection :=
  mkConnection (state c) (id c) (nc c) (addr c) (Description info)
    (compressor c) (zliblevel c) (zstdLevel_ c) (config c) (canStream c)
    (currentlyStreaming c) (ServerConnectionID info) (driverConnectionID c)
    (generation c) (awaitRemainingBytes c).

Definition set_compressor (c : connection) (k : CompressorID)
  (zlib zstd : Z) : connection :=
  mkConnection (state c) (id c) (nc c) (addr c) (desc c) k zlib zstd
    (config c) (canStream c) (currentlyStreaming c) (serverConnectionID c)
    (driverConnectionID c) (generation c) (awaitRemainingBytes c).

Definition setGenerationNumber (c : connection) : connection :=
  match getGenerationFn (config c) with
  | Some fn => set_generation c (fn (ServiceID (desc c)))
  | None => c
  end.

(** ASCII lower-casing, the behaviour of [strings.ToLower] on ASCII
    text. *)
Definition ascii_lower (a : ascii) : ascii :=
  let n := nat_of_ascii a in
  if ((65 <=? n) && (n <=? 90))%nat then ascii_of_nat (n + 32) else a.

Fixpoint ascii_ToLower (s : string) : string :=
  match s with
  | EmptyString => EmptyString
  | String a r => String (ascii_lower a) (ascii_ToLower r)
  end.

Section Connect.

(** [strings.ToLower] and the default levels of the [wiremessage]
    package are taken as given. *)
Variable ToLower : string -> string.
Variable DefaultZlibLevel : Z.
Variable DefaultZstdLevel : Z.

(** The [switch] on the lower-cased method name. *)
Definition switch_method (method : string) (c : connection) : connection :=
  let m := ToLower method in
  if String.eqb m "snappy" then
    set_compressor c CompressorSnappy (zliblevel c) (zstdLevel_ c)
  else if String.eqb m "zlib" then
    set_compressor c CompressorZLib
      (match zlibLevel (config c) with
       | Some l => l
       | None => DefaultZlibLevel
       end)
      (zstdLevel_ c)
  else if String.eqb m "zstd" then
    set_compressor c CompressorZstd (zliblevel c)
      (match zstdLevel (config c) with
       | Some l => l
       | None => DefaultZstdLevel
       end)
  else c.

(** The inner loop over the server's methods: [Some] is
    [break clientMethodLoop], [None] is the end of the loop. *)
Fixpoint serverMethodLoop (method : string) (serverMethods : list string)
  (c : connection) : option connection :=
  match serverMethods with
  | [] => None
  | serverMethod :: rest =>
      if negb (String.eqb method serverMethod)
      then serverMethodLoop method rest c
      else Some (switch_method method c)
  end.

Fixpoint clientMethodLoop (methods : list string) (c : connection)
  : connection :=
  match methods with
  | [] => c
  | method :: rest =>
      match serverMethodLoop method (Compression (desc c)) c with
      | Some c' => c'
      | None => clientMethodLoop rest c
      end
  end.

Definition selectCompressor (c : connection) : connection :=
  if (0 <? List.length (Compression (desc c)))%nat
  then clientMethodLoop (compressors (config c)) c
  else c.

(** The two handshake phases, from the call of
    [GetHandshakeInformation] to the test of the error. *)
Definition handshake (h : Handshaker) (c : connection)
  : go (connection * option error) :=
  c <- run_initOps (hello_io h) c ;;
  let '(c, err) :=
    match hello_result h with
    | inl handshakeInfo =>
        let c := set_handshake c handshakeInfo in
        if loadBalanced (config c) &&
           match ServiceID (desc c) with None => true | Some _ => false end
        then (c, Some errLoadBalancedStateMismatch)
        else (c, None)
    | inr err => (c, Some err)
    end in
  match err with
  | None =>
      let c := if loadBalanced (config c) then setGenerationNumber c
               else c in
      c <- run_initOps (finish_io h) c ;;
      Ret (c, finish_result h)
  | Some _ => Ret (c, err)
  end.

(** The block of [connect] guarded by [c.config.tlsConfig != nil]:
    the connection, the socket in use afterwards and the error
    returned from [connect], if any. *)
Definition connect_tls (c : connection) (s : netConn)
  : connection * netConn * option error :=
  match tlsConfig (config c) with
  | Some tlsConfig =>
      let '(tlsNc, err) :=
        configureTLS (tlsHandshake (config c)) (ocspVerify (config c))
          s (addr c) tlsConfig in
      let c := set_nc c (Some tlsNc) in
      match err with
      | Some _ =>
          (c, tlsNc,
           Some (ConnectionError "" err true
                   ("failed to configure TLS for " ++ addr c)%string))
      | None => (c, tlsNc, None)
      end
  | None => (c, s, None)
  end.

(** The block guarded by [c.config.tlcpConfig != nil]. *)
Definition connect_tlcp (c : connection) (s : netConn)
  : connection * netConn * option error :=
  match tlcpConfig (config c) with
  | Some tlcpConfig =>
      let '(tlcpNc, err) :=
        configureTLCP (tlcpHandshake (config c)) s (addr c) tlcpConfig in
      let c := set_nc c (Some tlcpNc) in
      match err with
      | Some _ =>
          (c, tlcpNc,
           Some (ConnectionError "" err true
                   ("failed to configure TLCP for " ++ addr c)%string))
      | None => (c, tlcpNc, None)
      end
  | None => (c, s, None)
  end.

(** The body of [connect] after the compare-and-swap. *)
Definition connect_body (c : connection) : go (connection * option error) :=
  match dialer (config c) with
  | inr err =>
      Ret (c, Some (ConnectionError "" (Some err) true
                      ("failed to connect to " ++ addr c)%string))
  | inl tempNc =>
      let c := set_nc c (Some tempNc) in
      match connect_tls c tempNc with
      | (c, _, Some err) => Ret (c, Some err)
      | (c, s, None) =>
          match connect_tlcp c s with
          | (c, _, Some err) => Ret (c, Some err)
          | (c, _, None) =>
              match handshaker (config c) with
              | None => Ret (c, None)
              | Some h =>
                  '(c, err) <- handshake h c ;;
                  match err with
                  | Some _ => Ret (c, Some (ConnectionError "" err true ""))
                  | None => Ret (selectCompressor c, None)
                  end
              end
          end
      end
  end.

(** The deferred function of [connect]. *)
Definition connect_deferred (c : connection) (err : option error)
  : connection :=
  match err with
  | Some _ =>
      let c := set_state c connDisconnected in
      match nc c with
      | Some s => set_nc c (Some (fst (netConn_Close s)))
      | None => c
      end
  | None => c
  end.

(** [connect].  The context only reaches the collaborators, whose
    answers are data of the configuration; the connect listener, the
    [connectDone] channel and the round-trip time carry no state
    here. *)
Definition connect (c : connection) : go (connection * option error) :=
  if negb (connState_eqb (state c) connInitialized) then Ret (c, None)
  else
    let c := set_state c connConnected in
    '(c, err) <- connect_body c ;;
    Ret (connect_deferred c err, err).

End Connect.

(** ** The Connection handle *)

(** The callbacks of the pool a handle can be given. *)
Inductive poolFn : Type :=
| pinConnectionToCursor
| unpinConnectionFromCursor
| pinConnectionToTransaction
| unpinConnectionFromTransaction.

Inductive pool_call : Type :=
| call_checkIn (c : connection)
| call_stale (c : connection)
| call_poolFn (f : poolFn)
| call_cleanupServerFn.

(** The pool a connection belongs to (the [pool] field of the
    connection) and the server behind it, as the handle uses them: the
    answers of [checkIn] and [stale], and the calls received, latest
    last. *)
Record pool : Type := mkPool {
  checkIn_answer : option error;
  stale_answer : bool;
  calls : list pool_call
}.

Definition invoke (p : pool) (k : pool_call) : pool :=
  mkPool (checkIn_answer p) (stale_answer p) (calls p ++ [k]).

Record Connection : Type := mkHandle {
  connection_ : option connection;
  refCount : Z;
  cleanupPoolFn : option poolFn;
  cleanupServerFn : bool;
  oidcTokenGenID : Z
}.

Definition Write (ctx : context) (wm : list Byte.byte) (h : Connection)
  : go (Connection * option error) :=
  match connection_ h with
  | None => Ret (h, Some ErrConnectionClosed)
  | Some c =>
      '(c, err) <- writeWireMessage ctx wm c ;;
      Ret (mkHandle (Some c) (refCount h) (cleanupPoolFn h)
             (cleanupServerFn h) (oidcTokenGenID h), err)
  end.

Definition Read (ctx : context) (h : Connection)
  : go (Connection * option (list Byte.byte) * option error) :=
  match connection_ h with
  | None => Ret (h, None, Some ErrConnectionClosed)
  | Some c =>
      '(c, dst, err) <- readWireMessage ctx c ;;
      Ret (mkHandle (Some c) (refCount h) (cleanupPoolFn h)
             (cleanupServerFn h) (oidcTokenGenID h), dst, err)
  end.

(** Little-endian [int32] in four bytes. *)
Definition byte_of_Z (x : Z) : Byte.byte :=
  match Byte.of_N (Z.to_N (x mod 256)) with
  | Some b => b
  | None => Byte.x00
  end.

Definition appendi32 (dst : list Byte.byte) (x : Z) : list Byte.byte :=
  dst ++ [byte_of_Z x; byte_of_Z (Z.shiftr x 8); byte_of_Z (Z.shiftr x 16);
          byte_of_Z (Z.shiftr x 24)].

Definition readi32 (src : list Byte.byte) : Z :=
  int32 (LittleEndian_Uint32 src).

Definition OpCompressed : Z := 2012.

Definition CompressorID_byte (k : CompressorID) : Z :=
  match k with
  | CompressorNoOp => 0
  | CompressorSnappy => 1
  | CompressorZLib => 2
  | CompressorZstd => 3
  end.

(** Modelled from the spec: [wiremessage.ReadHeader], whose package is
    not part of these sources.  A wire-message header is sixteen bytes:
    total length, request id, response-to and opcode, each a
    little-endian [int32]; a shorter source has no complete header and
    is not ok. *)
Definition ReadHeader (src : list Byte.byte)
  : option (Z * Z * Z * Z * list Byte.byte) :=
  if (List.length src <? 16)%nat then None
  else Some (readi32 src, readi32 (skipn 4 src), readi32 (skipn 8 src),
             readi32 (skipn 12 src), skipn 16 src).

(** Modelled from the spec: the [wiremessage] and [bsoncore] helpers
    that write the compressed envelope (packages not part of these
    sources): a header with a length to be patched and the opcode
    Compressed, then the original opcode, the uncompressed size, the
    compressor id and the compressed payload. *)
Definition AppendHeaderStart (dst : list Byte.byte) (reqid respto opcode : Z)
  : nat * list Byte.byte :=
  (List.length dst,
   appendi32 (appendi32 (appendi32 (appendi32 dst 0) reqid) respto) opcode).

Definition AppendCompressedOriginalOpCode := appendi32.
Definition AppendCompressedUncompressedSize := appendi32.

Definition AppendCompressedCompressorID (dst : list Byte.byte)
  (k : CompressorID) : list Byte.byte :=
  dst ++ [byte_of_Z (CompressorID_byte k)].

Definition AppendCompressedCompressedMessage (dst msg : list Byte.byte)
  : list Byte.byte := dst ++ msg.

Definition UpdateLength (dst : list Byte.byte) (idx : nat) (length : Z)
  : list Byte.byte :=
  firstn idx dst ++ appendi32 [] length ++ skipn (idx + 4) dst.

Record CompressionOpts : Type := mkOpts {
  Compressor : CompressorID;
  ZlibLevel : Z;
  ZstdLevel : Z
}.

Section Compress.

(** [driver.CompressPayload], the codec, is taken as given. *)
Variable CompressPayload :
  list Byte.byte -> CompressionOpts -> list Byte.byte + error.

(** [CompressWireMessage]: a nil slice is [None]. *)
Definition CompressWireMessage (src dst : list Byte.byte) (h : Connection)
  : option (list Byte.byte) * option error :=
  match connection_ h with
  | None => (Some dst, Some ErrConnectionClosed)
  | Some c =>
      if CompressorID_eqb (compressor c) CompressorNoOp then
        (Some (dst ++ src), None)
      else
        match ReadHeader src with
        | None =>
            (Some dst,
             Some (errors_New
                     "wiremessage is too short to compress, less than 16 bytes"))
        | Some (_, reqid, respto, origcode, rem) =>
            let '(idx, dst) :=
              AppendHeaderStart dst reqid respto OpCompressed in
            let dst := AppendCompressedOriginalOpCode dst origcode in
            let dst := AppendCompressedUncompressedSize dst
                         (int32 (Z.of_nat (List.length rem))) in
            let dst := AppendCompressedCompressorID dst (compressor c) in
            let opts := mkOpts (compressor c) (zliblevel c) (zstdLevel_ c) in
            match CompressPayload rem opts with
            | inr err => (None, Some err)
            | inl compressed =>
                let dst := AppendCompressedCompressedMessage dst compressed in
                (Some (UpdateLength dst idx
                         (int32 (Z.of_nat (List.length (skipn idx dst))))),
                 None)
            end
        end
  end.

End Compress.

Definition Description_ (h : Connection) : description_Server :=
  match connection_ h with
  | None => empty_Server
  | Some c => desc c
  end.

(** [cleanupReferences] is only called with a live connection. *)
Definition cleanupReferences (h : Connection) (p : pool)
  : go (Connection * pool * option error) :=
  match connection_ h with
  | None => Panic
  | Some c =>
      let p := invoke p (call_checkIn c) in
      let err := checkIn_answer p in
      let p := match cleanupPoolFn h with
               | Some f => invoke p (call_poolFn f)
               | None => p
               end in
      let p := if cleanupServerFn h then invoke p call_cleanupServerFn
               else p in
      Ret (mkHandle None (refCount h) None false (oidcTokenGenID h), p, err)
  end.

Definition Close (h : Connection) (p : pool)
  : go (Connection * pool * option error) :=
  match connection_ h with
  | None => Ret (h, p, None)
  | Some _ =>
      if refCount h >? 0 then Ret (h, p, None) else cleanupReferences h p
  end.

Definition Expire (h : Connection) (p : pool)
  : go (Connection * pool * option error) :=
  match connection_ h with
  | None => Ret (h, p, None)
  | Some c =>
      let c := fst (close c) in
      cleanupReferences
        (mkHandle (Some c) (refCount h) (cleanupPoolFn h) (cleanupServerFn h)
           (oidcTokenGenID h)) p
  end.

Definition Alive (h : Connection) : bool :=
  match connection_ h with Some _ => true | None => false end.

Definition ID (h : Connection) : string :=
  match connection_ h with
  | None => "<closed>"
  | Some c => id c
  end.

Definition ServerConnectionID_ (h : Connection) : option Z :=
  match connection_ h with
  | None => None
  | Some c => serverConnectionID c
  end.

(** [Stale] reads [c.connection.pool] without a test for nil. *)
Definition Stale (h : Connection) (p : pool) : go (pool * bool) :=
  match connection_ h with
  | None => Panic
  | Some c => Ret (invoke p (call_stale c), stale_answer p)
  end.

Definition Address (h : Connection) : string :=
  match connection_ h with
  | None => "0.0.0.0"
  | Some c => addr c
  end.

Definition fmt_pin (reason : string) : string :=
  ("attempted to pin a connection for a " ++ reason
   ++ ", but the connection has already been returned to the pool")%string.

Definition fmt_unpin (reason : string) : string :=
  ("attempted to unpin a connection from a " ++ reason
   ++ ", but the connection is not pinned by any resources")%string.

Definition pin (reason : string) (updatePoolFn cleanupPoolFn' : poolFn)
  (h : Connection) (p : pool) : Connection * pool * option error :=
  match connection_ h with
  | None => (h, p, Some (fmt_Errorf (fmt_pin reason) None))
  | Some _ =>
      let '(h, p) :=
        if refCount h =? 0 then
          (mkHandle (connection_ h) (refCount h) (Some cleanupPoolFn')
             (cleanupServerFn h) (oidcTokenGenID h),
           invoke p (call_poolFn updatePoolFn))
        else (h, p) in
      (mkHandle (connection_ h) (int (refCount h + 1)) (cleanupPoolFn h)
         (cleanupServerFn h) (oidcTokenGenID h), p, None)
  end.

(** The arguments of [pin] are method values of [c.connection.pool]:
    evaluating them dereferences [c.connection]. *)
Definition PinToCursor (h : Connection) (p : pool)
  : go (Connection * pool * option error) :=
  match connection_ h with
  | None => Panic
  | Some _ =>
      Ret (pin "cursor" pinConnectionToCursor unpinConnectionFromCursor h p)
  end.

Definition PinToTransaction (h : Connection) (p : pool)
  : go (Connection * pool * option error) :=
  match connection_ h with
  | None => Panic
  | Some _ =>
      Ret (pin "transaction" pinConnectionToTransaction
             unpinConnectionFromTransaction h p)
  end.

Definition unpin (reason : string) (h : Connection) (p : pool)
  : Connection * pool * option error :=
  match connection_ h with
  | None => (h, p, None)
  | Some _ =>
      if refCount h =? 0 then
        (h, p, Some (fmt_Errorf (fmt_unpin reason) None))
      else
        (mkHandle (connection_ h) (int (refCount h - 1)) (cleanupPoolFn h)
           (cleanupServerFn h) (oidcTokenGenID h), p, None)
  end.

Definition UnpinFromCursor (h : Connection) (p : pool)
  : go (Connection * pool * option error) := Ret (unpin "cursor" h p).

Definition UnpinFromTransaction (h : Connection) (p : pool)
  : go (Connection * pool * option error) := Ret (unpin "transaction" h p).

(** [DriverConnectionID] calls a method of [c.connection] that reads a
    field, without a test for nil. *)
Definition DriverConnectionID (h : Connection) : go Z :=
  match connection_ h with
  | None => Panic
  | Some c => Ret (driverConnectionID c)
  end.

(** ** Sequences of pin and unpin calls *)

Inductive pin_op : Type :=
| op_PinToCursor
| op_PinToTransaction
| op_UnpinFromCursor
| op_UnpinFromTransaction.

Definition run_pin_op (o : pin_op) (h : Connection) (p : pool)
  : go (Connection * pool * option error) :=
  match o with
  | op_PinToCursor => PinToCursor h p
  | op_PinToTransaction => PinToTransaction h p
  | op_UnpinFromCursor => UnpinFromCursor h p
  | op_UnpinFromTransaction => UnpinFromTransaction h p
  end.

(** A sequence of calls; the error of a single call is dropped. *)
Fixpoint run_pin_ops (ops : list pin_op) (h : Connection) (p : pool)
  : go (Connection * pool) :=
  match ops with
  | [] => Ret (h, p)
  | o :: rest =>
      '(h, p, _) <- run_pin_op o h p ;;
      run_pin_ops rest h p
  end.

(** The reference count before the sequence and after each call. *)
Fixpoint refCounts (ops : list pin_op) (h : Connection) (p : pool) : list Z :=
  refCount h ::
  match ops with
  | [] => []
  | o :: rest =>
      match run_pin_op o h p with
      | Ret (h, p, _) => refCounts rest h p
      | Panic => []
      end
  end.

(** The number of steps of a list of counts that go from [a] to [b]. *)
Fixpoint transitions (a b : Z) (l : list Z) : nat :=
  match l with
  | x :: r =>
      match r with
      | y :: _ =>
          ((if ((x =? a) && (y =? b))%Z then 1 else 0) + transitions a b r)%nat
      | [] => 0%nat
      end
  | [] => 0%nat
  end.

Definition is_accounting (k : pool_call) : bool :=
  match k with
  | call_poolFn pinConnectionToCursor
  | call_poolFn pinConnectionToTransaction => true
  | _ => false
  end.

Definition is_cleanup (k : pool_call) : bool :=
  match k with
  | call_poolFn unpinConnectionFromCursor
  | call_poolFn unpinConnectionFromTransaction => true
  | _ => false
  end.

Definition count_calls (f : pool_call -> bool) (l : list pool_call) : nat :=
  List.length (filter f l).

(** The calls a release makes on the pool. *)
Definition release_calls (h : Connection) (c : connection) : list pool_call :=
  call_checkIn c
  :: match cleanupPoolFn h with
     | Some f => [call_poolFn f]
     | None => []
     end
  ++ (if cleanupServerFn h then [call_cleanupServerFn] else []).

(** ** Vocabulary of the statements *)

(** The maximum the framer compares with: the negotiated one, or the
    default before the handshake. *)
Definition effectiveMax (c : connection) : Z :=
  if MaxMessageSize (desc c) =? 0 then defaultMaxMessageSize
  else MaxMessageSize (desc c).

(** What wire traffic leaves alone. *)
Definition static (c : connection) :=
  (id c, addr c, desc c, compressor c, zliblevel c, zstdLevel_ c, config c,
   canStream c, serverConnectionID c, driverConnectionID c, generation c).

Definition has_socket (c : connection) : Prop := nc c <> None.

Definition is_nil {A} (o : option A) : bool :=
  match o with None => true | Some _ => false end.

(** Every configured secure transport completes. *)
Definition transport_succeeds (cfg : connectionConfig) : bool :=
  match tlsConfig cfg with
  | None => true
  | Some t =>
      is_nil (tlsHandshake cfg)
      && (InsecureSkipVerify t || is_nil (ocspVerify cfg))
  end
  && match tlcpConfig cfg with
     | None => true
     | Some _ => is_nil (tlcpHandshake cfg)
     end.

(** Both handshake phases succeed and the load-balanced state agrees. *)
Definition handshake_succeeds (cfg : connectionConfig) (h : Handshaker)
  (info : HandshakeInformation) : Prop :=
  hello_result h = inl info
  /\ (loadBalanced cfg = true -> ServiceID (Description info) <> None)
  /\ finish_result h = None.

(** The first entry of the client's list that is in the server's. *)
Definition first_common (client server : list string) : option string :=
  find (fun method => existsb (String.eqb method) server) client.



(** The statement that every prefix below 4 is answered with the
    malformed-length error and every prefix above the maximum with the
    response-too-large error. *)
Definition size_prefix_claim : Prop :=
  forall ctx c s b0 b1 b2 b3 rest,
    nc c = Some s ->
    incoming s = b0 :: b1 :: b2 :: b3 :: rest ->
    let size := int32 (LittleEndian_Uint32 [b0; b1; b2; b3]) in
    (size < 4 ->
     exists c',
       read ctx c =
         Ret (c', [], ("malformed message length: " ++ fmt_d size)%string,
              Some (fmt_Errorf
                      ("malformed message length: " ++ fmt_d size)%string None)))
    /\
    (effectiveMax c < size ->
     exists c',
       read ctx c =
         Ret (c', [], "length of read message too large"%string,
              Some errResponseTooLarge)).

(** The statement that a timed-out read of the size prefix always
    records zero remaining bytes and leaves the connection open. *)
Definition prefix_timeout_claim : Prop :=
  forall ctx c s,
    state c = connConnected ->
    nc c = Some s ->
    deadlineResult s = None ->
    (List.length (incoming s) < 4)%nat ->
    isCSOTTimeout (readFailure s) = true ->
    canceledWhileListening ctx = false ->
    exists c' err,
      readWireMessage ctx c = Ret (c', None, Some err)
      /\ state c' = connConnected
      /\ awaitRemainingBytes c' = Some 0.

(** The statement that the accounting callback runs once per step of
    the count from 0 to 1 and the cleanup callback once per step from 1
    to 0, within the pin and unpin calls. *)
Definition pin_callbacks_claim : Prop :=
  forall ops h p,
    connection_ h <> None ->
    exists h' p' new,
      run_pin_ops ops h p = Ret (h', p')
      /\ calls p' = calls p ++ new
      /\ count_calls is_accounting new = transitions 0 1 (refCounts ops h p)
      /\ count_calls is_cleanup new = transitions 1 0 (refCounts ops h p).

(** ** Concrete values *)

Definition io_timeout : error := net_Error true "i/o timeout".

Definition quiet_context : context := mkContext None false None.

Definition canceled_context : context :=
  mkContext None true (Some context_Canceled).

Definition example_config : connectionConfig :=
  mkConfig (inr io_EOF) None false None None None None None [] None None None.

Definition example_socket (bs : list Byte.byte) (e : error) : netConn :=
  mkNetConn bs e None None None [] None None 0 [].

Definition example_connection (bs : list Byte.byte) (e : error) : connection :=
  mkConnection connConnected "db:27017[-2]" (Some (example_socket bs e))
    "db:27017" empty_Server CompressorNoOp 0 0 example_config false false
    None 2 0 None.

(** A connection whose server negotiated a maximum message size of 2. *)
Definition tiny_max_connection (bs : list Byte.byte) : connection :=
  mkConnection connConnected "db:27017[-2]" (Some (example_socket bs io_timeout))
    "db:27017" (mkServer None 2 []) CompressorNoOp 0 0 example_config false
    false None 2 0 None.

(** A complete five-byte message. *)
Definition five_bytes : list Byte.byte :=
  [Byte.x05; Byte.x00; Byte.x00; Byte.x00; Byte.x2a].

Definition prefix_100 : list Byte.byte :=
  [Byte.x64; Byte.x00; Byte.x00; Byte.x00].

Definition example_pool : pool := mkPool None false [].

Definition live_handle : Connection :=
  mkHandle (Some (example_connection [] io_timeout)) 0 None true 0.

Definition released_handle : Connection := mkHandle None 0 None false 0.

Definition checked_in_pool : pool :=
  mkPool None false
    [call_checkIn (example_connection [] io_timeout); call_cleanupServerFn].

(** A server that is not behind a load balancer answers a client that
    declares load-balanced mode. *)
Definition plain_hello : HandshakeInformation :=
  mkInfo (mkServer None 48000000 ["zlib"; "snappy"]) (Some 17).

Definition plain_handshaker : Handshaker :=
  mkHandshaker [] (inl plain_hello) [] None.

Definition secure_config (lb : bool) : connectionConfig :=
  mkConfig (inl (example_socket [] io_EOF)) (Some plain_handshaker) lb
    (Some (mkTLS "" false)) None None (Some (mkTLCP "" false)) None
    ["zstd"; "zlib"; "snappy"] None (Some 9) None.

Definition fresh_connection (lb : bool) : connection :=
  mkConnection connInitialized "db.example:27017[-2]" None "db.example:27017"
    empty_Server CompressorNoOp 0 0 (secure_config lb) false false None 2 0
    None.

Definition zlib_connection : connection :=
  mkConnection connConnected "db:27017[-2]"
    (Some (example_socket [] io_timeout)) "db:27017" empty_Server
    CompressorZLib 6 0 example_config false false None 2 0 None.

Definition identity_codec (payload : list Byte.byte) (_ : CompressionOpts)
  : list Byte.byte + error := inl payload.

(** ** Creating a connection *)




(** ** The user name of an X.509 subject *)

(** [strings.Split(s, ",")]. *)
Fixpoint Split_comma (s : string) : list string :=
  match s with
  | EmptyString => [EmptyString]
  | String a r =>
      if Ascii.eqb a "," then EmptyString :: Split_comma r
      else match Split_comma r with
           | h :: t => String a h :: t
           | [] => [String a EmptyString]
           end
  end.

(** [strings.Join(elems, ",")]. *)
Fixpoint Join_comma (elems : list string) : string :=
  match elems with
  | [] => EmptyString
  | [e] => e
  | e :: rest => (e ++ String "," (Join_comma rest))%string
  end.

(** [l[i] = x]; the loop below keeps both indices inside the slice, so
    the case of an index out of range is never reached. *)
Fixpoint update_nth {A} (l : list A) (i : nat) (x : A) : list A :=
  match l, i with
  | [], _ => []
  | _ :: t, O => x :: t
  | h :: t, S i' => h :: update_nth t i' x
  end.

(** [pairs[left], pairs[right] = pairs[right], pairs[left]]. *)
Definition swap_elems (pairs : list string) (left right : nat) : list string :=
  let l := nth left pairs EmptyString in
  let r := nth right pairs EmptyString in
  update_nth (update_nth pairs left r) right l.

(** The loop [for left, right := 0, len(pairs)-1; left < right;
    left, right = left+1, right-1]; [fuel] bounds the number of
    iterations, and [len(pairs)] is enough. *)
Fixpoint reverse_loop (fuel : nat) (left right : Z) (pairs : list string)
  : list string :=
  match fuel with
  | O => pairs
  | S fuel' =>
      if left <? right then
        reverse_loop fuel' (left + 1) (right - 1)
          (swap_elems pairs (Z.to_nat left) (Z.to_nat right))
      else pairs
  end.

Definition extractX509UsernameFromSubject (subject : string) : string :=
  let pairs := Split_comma subject in
  let pairs := reverse_loop (List.length pairs) 0
                 (Z.of_nat (List.length pairs) - 1) pairs in
  Join_comma pairs.

(** No byte of [s] is a comma. *)
Fixpoint no_comma (s : string) : bool :=
  match s with
  | EmptyString => true
  | String a r => negb (Ascii.eqb a ",") && no_comma r
  end.

(** ** Validation of the client options *)

(** The fields of [Credential] that [Validate] reads; a callback is
    given by whether it is set; the properties map is the list of its
    entries in the order [range] visits them. *)
Record Credential : Type := mkCredential {
  AuthMechanism : string;
  AuthMechanismProperties : list (string * string);
  Username : string;
  Password : string;
  OIDCMachineCallback : bool;
  OIDCHumanCallback : bool
}.

(** The fields of [ClientOptions] that [Validate] reads.  [connString]
    is given by its scheme, [ServerAPIOptions] by its version. *)
Record ClientOptions : Type := mkClientOptions {
  co_err : option error;
  Direct : option bool;
  Hosts : list string;
  connString_Scheme : option string;
  HeartbeatInterval : option Z;
  MaxPoolSize : option Z;
  MinPoolSize : option Z;
  ServerAPIOptions : option string;
  LoadBalanced : option bool;
  ReplicaSet : option string;
  SRVMaxHosts : option Z;
  ServerMonitoringMode : option string;
  Timeout : option Z;
  Auth : option Credential
}.

(** [m[key]] and [v, ok := m[key]]. *)
Fixpoint map_get (m : list (string * string)) (key : string) : option string :=
  match m with
  | [] => None
  | (k, v) :: rest => if String.eqb k key then Some v else map_get rest key
  end.

Definition map_index (m : list (string * string)) (key : string) : string :=
  match map_get m key with
  | Some v => v
  | None => EmptyString
  end.

Definition set_true (o : option bool) : bool :=
  match o with Some true => true | _ => false end.

Definition is_set {A} (o : option A) : bool :=
  match o with Some _ => true | None => false end.

Section Validate.

(** Taken as given: the errors, the scheme and the mode test of the
    [connstring] package, the version check of [ServerAPIOptions], the
    names of the [auth] package, and the [%q] renderings of [fmt]. *)
Variables ErrLoadBalancedWithMultipleHosts ErrLoadBalancedWithReplicaSet
  ErrLoadBalancedWithDirectConnection ErrSRVMaxHostsWithReplicaSet
  ErrSRVMaxHostsWithLoadBalanced : error.
Variable SchemeMongoDBSRV : string.
Variable IsValidServerMonitoringMode : string -> bool.
Variable ServerAPIVersion_Validate : string -> option error.
Variables MongoDBOIDC AllowedHostsProp EnvironmentProp ResourceProp
  GCPEnvironmentValue AzureEnvironmentValue K8SEnvironmentValue
  TestEnvironmentValue : string.
Variable fmt_q_Duration : Z -> string.
Variable fmt_q : string -> string.

(** The loop over the property names. *)
Fixpoint validate_props (props : list (string * string)) : option error :=
  match props with
  | [] => None
  | (prop, _) :: rest =>
      if String.eqb prop AllowedHostsProp || String.eqb prop EnvironmentProp
         || String.eqb prop ResourceProp
      then validate_props rest
      else Some (fmt_Errorf
                   ("auth mechanism property " ++ fmt_q prop
                    ++ " is not valid for MONGODB-OIDC")%string None)
  end.

(** The body of the case for the k8s environment, which the cases for
    gcp and azure fall through to. *)
Definition validate_no_callbacks (a : Credential) (env : string)
  : option error :=
  if OIDCMachineCallback a then
    Some (fmt_Errorf
            ("OIDCMachineCallback cannot be specified with the " ++ env ++ " "
             ++ fmt_q EnvironmentProp)%string None)
  else if OIDCHumanCallback a then
    Some (fmt_Errorf
            ("OIDCHumanCallback cannot be specified with the " ++ env ++ " "
             ++ fmt_q EnvironmentProp)%string None)
  else None.

Definition validate_environment (a : Credential) : option error :=
  match map_get (AuthMechanismProperties a) EnvironmentProp with
  | Some env =>
      if String.eqb env GCPEnvironmentValue
         || String.eqb env AzureEnvironmentValue then
        if String.eqb (map_index (AuthMechanismProperties a) ResourceProp) ""
        then Some (fmt_Errorf
                     (fmt_q ResourceProp ++ " must be set for the " ++ env
                      ++ " " ++ fmt_q EnvironmentProp)%string None)
        else validate_no_callbacks a env
      else if String.eqb env K8SEnvironmentValue then
        validate_no_callbacks a env
      else if String.eqb env TestEnvironmentValue then
        if negb (String.eqb
                   (map_index (AuthMechanismProperties a) ResourceProp) "")
        then Some (fmt_Errorf
                     (fmt_q ResourceProp ++ " must not be set for the " ++ env
                      ++ " " ++ fmt_q EnvironmentProp)%string None)
        else if negb (String.eqb (Username a) "") then
          Some (fmt_Errorf
                  ("must not specify username for " ++ env ++ " "
                   ++ fmt_q EnvironmentProp)%string None)
        else None
      else Some (fmt_Errorf
                   ("the " ++ env ++ " " ++ fmt_q EnvironmentProp
                    ++ " is not supported for MONGODB-OIDC")%string None)
  | None => None
  end.

(** The block guarded by the OIDC mechanism. *)
Definition validate_oidc (a : Credential) : option error :=
  if negb (String.eqb (Password a) "") then
    Some (fmt_Errorf
            ("password must not be set for the " ++ MongoDBOIDC
             ++ " auth mechanism")%string None)
  else if OIDCMachineCallback a && OIDCHumanCallback a then
    Some (fmt_Errorf
            "cannot set both OIDCMachineCallback and OIDCHumanCallback, only one may be specified"
            None)
  else if negb (OIDCHumanCallback a)
          && negb (String.eqb
                     (map_index (AuthMechanismProperties a) AllowedHostsProp)
                     "") then
    Some (fmt_Errorf "cannot specify ALLOWED_HOSTS without an OIDCHumanCallback"
            None)
  else if negb (OIDCMachineCallback a) && negb (OIDCHumanCallback a)
          && String.eqb
               (map_index (AuthMechanismProperties a) EnvironmentProp) "" then
    Some (errors_New
            "must specify at least one of OIDCMachineCallback, OIDCHumanCallback, or ENVIRONMENT authMechanismProperty")
  else
    match validate_props (AuthMechanismProperties a) with
    | Some e => Some e
    | None => validate_environment a
    end.

(** [check] is an [if cond { return err }]; [a ;;; b] runs [b] when [a]
    did not return. *)
Definition check (cond : bool) (err : error) : option error :=
  if cond then Some err else None.

Definition or_else (a b : option error) : option error :=
  match a with
  | Some e => Some e
  | None => b
  end.

Notation "a ;;; b" := (or_else a b) (at level 62, right associativity).

Definition Validate (c : ClientOptions) : option error :=
  co_err c ;;;
  (if set_true (Direct c) then
     check (1 <? List.length (Hosts c))%nat
       (errors_New
          "a direct connection cannot be made if multiple hosts are specified")
     ;;;
     check (match connString_Scheme c with
            | Some scheme => String.eqb scheme SchemeMongoDBSRV
            | None => false
            end)
       (errors_New "a direct connection cannot be made if an SRV URI is used")
   else None) ;;;
  match HeartbeatInterval c with
  | Some d =>
      check (d <? 500 * 1000000)
        (fmt_Errorf
           ("heartbeatFrequencyMS must exceed the minimum heartbeat interval of 500ms, got heartbeatFrequencyMS="
            ++ fmt_q_Duration d)%string None)
  | None => None
  end ;;;
  match MaxPoolSize c, MinPoolSize c with
  | Some maxPoolSize, Some minPoolSize =>
      check (negb (maxPoolSize =? 0) && (minPoolSize >? maxPoolSize))
        (fmt_Errorf
           ("minPoolSize must be less than or equal to maxPoolSize, got minPoolSize="
            ++ fmt_d minPoolSize ++ " maxPoolSize=" ++ fmt_d maxPoolSize)%string
           None)
  | _, _ => None
  end ;;;
  match ServerAPIOptions c with
  | Some version => ServerAPIVersion_Validate version
  | None => None
  end ;;;
  (if set_true (LoadBalanced c) then
     check (1 <? List.length (Hosts c))%nat ErrLoadBalancedWithMultipleHosts ;;;
     check (is_set (ReplicaSet c)) ErrLoadBalancedWithReplicaSet ;;;
     check (set_true (Direct c)) ErrLoadBalancedWithDirectConnection
   else None) ;;;
  match SRVMaxHosts c with
  | Some n =>
      if n >? 0 then
        check (is_set (ReplicaSet c)) ErrSRVMaxHostsWithReplicaSet ;;;
        check (set_true (LoadBalanced c)) ErrSRVMaxHostsWithLoadBalanced
      else None
  | None => None
  end ;;;
  match ServerMonitoringMode c with
  | Some mode =>
      check (negb (IsValidServerMonitoringMode mode))
        (fmt_Errorf ("invalid server monitoring mode: " ++ fmt_q mode)%string
           None)
  | None => None
  end ;;;
  match Timeout c with
  | Some to =>
      check (to <? 0)
        (fmt_Errorf
           ("invalid value " ++ fmt_q_Duration to
            ++ " for " ++ String (ascii_of_nat 34) "Timeout"
            ++ String (ascii_of_nat 34) ": value must be positive")%string None)
  | None => None
  end ;;;
  match Auth c with
  | Some a =>
      if String.eqb (AuthMechanism a) MongoDBOIDC then validate_oidc a
      else None
  | None => None
  end.

(** What [Validate] asks of the options, one clause per check. *)
Definition accepted (c : ClientOptions) : Prop :=
  co_err c = None
  /\ (Direct c = Some true ->
      (List.length (Hosts c) <= 1)%nat
      /\ connString_Scheme c <> Some SchemeMongoDBSRV)
  /\ (forall d, HeartbeatInterval c = Some d -> 500000000 <= d)
  /\ (forall maxPoolSize minPoolSize,
        MaxPoolSize c = Some maxPoolSize -> MinPoolSize c = Some minPoolSize ->
        maxPoolSize <> 0 -> minPoolSize <= maxPoolSize)
  /\ (forall version, ServerAPIOptions c = Some version ->
                      ServerAPIVersion_Validate version = None)
  /\ (LoadBalanced c = Some true ->
      (List.length (Hosts c) <= 1)%nat
      /\ ReplicaSet c = None /\ Direct c <> Some true)
  /\ (forall n, SRVMaxHosts c = Some n -> 0 < n ->
                ReplicaSet c = None /\ LoadBalanced c <> Some true)
  /\ (forall mode, ServerMonitoringMode c = Some mode ->
                   IsValidServerMonitoringMode mode = true)
  /\ (forall to, Timeout c = Some to -> 0 <= to)
  /\ (forall a, Auth c = Some a -> AuthMechanism a = MongoDBOIDC ->
                validate_oidc a = None).

End Validate.

(** ** Vocabulary of the further statements *)

(** The state stays, or goes from connected to disconnected. *)
Definition state_step (a b : connState) : Prop :=
  b = a \/ (a = connConnected /\ b = connDisconnected).

(** What a write or a read may do to a connection: the state only
    steps forward, a connection that is not connected keeps its socket
    and its marker, a marker that is set stays set, and the rest is
    left alone. *)
Record io_step (c c' : connection) : Prop := mk_io_step {
  step_state : state_step (state c) (state c');
  step_idle : state c <> connConnected ->
              nc c' = nc c /\ awaitRemainingBytes c' = awaitRemainingBytes c;
  step_marker : awaitRemainingBytes c <> None -> awaitRemainingBytes c' <> None;
  step_static : static c' = static c
}.

(** The socket after a read deadline has been set and [rest] is what is
    left to read. *)
Definition after_read (s : netConn) (d : option Z) (rest : list Byte.byte)
  : netConn :=
  mkNetConn rest (readFailure s) (writeResult s) (deadlineResult s)
    (closeResult s) (outgoing s) d (writeDeadline s) (closeCalls s)
    (transport s).

(** The error [io.ReadFull] reports when the stream ends after [n]
    bytes. *)
Definition stream_error (s : netConn) (n : nat) : error :=
  match readFailure s, n with
  | io_EOF, S _ => io_ErrUnexpectedEOF
  | e, _ => e
  end.

(** The error [connect] wraps every failure in. *)
Definition handshake_failure (e : error) : Prop :=
  exists cause message, e = ConnectionError "" (Some cause) true message.


Definition comma_free (l : list string) : Prop :=
  Forall (fun e => no_comma e = true) l.

(** ** Further concrete values *)

(** Two complete five-byte messages and the prefix of a third. *)
Definition two_messages : list Byte.byte :=
  five_bytes ++ five_bytes ++ prefix_100.

(** A prefix that announces 100 bytes, and one byte of the body. *)
Definition short_body : list Byte.byte := prefix_100 ++ [Byte.x2a].

(** A dialer that succeeds, no secure transport and no handshaker. *)
Definition bare_config : connectionConfig :=
  mkConfig (inl (example_socket [] io_EOF)) None false None None None None
    None [] None None None.

Definition bare_connection : connection :=
  mkConnection connInitialized "db:27017[-2]" None "db:27017" empty_Server
    CompressorNoOp 0 0 bare_config false false None 2 0 None.



(** A credential for the test environment of the OIDC mechanism. *)
Definition test_credential : Credential :=
  mkCredential "MONGODB-OIDC" [("ENVIRONMENT", "test")] "" "" false false.

(** * Properties *)

(** ** Integers and the socket *)

Lemma int32_range x : - 2 ^ 31 <= int32 x < 2 ^ 31.
Proof.
  unfold int32, wrap_signed.
  pose proof (Z.mod_pos_bound x (2 ^ 32) ltac:(lia)) as H.
  change (2 ^ (32 - 1)) with (2 ^ 31).
  destruct (x mod 2 ^ 32 <? 2 ^ 31) eqn:E.
  - apply Z.ltb_lt in E. lia.
  - apply Z.ltb_ge in E. change (2 ^ 32) with (2 * 2 ^ 31) in *. lia.
Qed.

Lemma uint32_small x : 0 <= x < 2 ^ 32 -> uint32 x = x.
Proof. intros. unfold uint32. apply Z.mod_small. lia. Qed.

Lemma io_ReadFull_none s k :
  incoming s = [] -> (0 < k)%nat ->
  io_ReadFull s k = (with_incoming s [], [], 0, Some (readFailure s)).
Proof.
  intros E Hk. unfold io_ReadFull. rewrite E.
  destruct k; [lia|]. cbn. destruct (readFailure s); reflexivity.
Qed.

Lemma io_ReadFull_prefix s b0 b1 b2 b3 rest :
  incoming s = b0 :: b1 :: b2 :: b3 :: rest ->
  io_ReadFull s 4 = (with_incoming s rest, [b0; b1; b2; b3], 4, None).
Proof. intros E. unfold io_ReadFull. rewrite E. reflexivity. Qed.

(** ** The cancellation listener *)

Lemma StopListening_quiet ctx f c :
  canceledWhileListening ctx = false -> StopListening ctx f c = (c, false).
Proof. unfold StopListening. intros ->. reflexivity. Qed.

Lemma StopListening_fired ctx f c :
  canceledWhileListening ctx = true -> StopListening ctx f c = (f c, true).
Proof. unfold StopListening. intros ->. reflexivity. Qed.

Lemma close_socket c :
  match nc c, nc (fst (close c)) with
  | Some s, Some s' =>
      incoming s' = incoming s /\ (closeCalls s <= closeCalls s')%nat
  | None, None => True
  | _, _ => False
  end.
Proof.
  unfold close. destruct c as [st ? [s|]]; destruct st; cbn; auto.
Qed.

(** C1: when the cancellation listener fired and aborted while the
    socket call of a write, or the socket calls of a read, returned
    without error, the operation surfaces [context.Canceled]; and
    whatever the socket answered, an operation whose listener aborted
    never reports success. *)
Theorem cancel_overrides_success :
  (forall ctx wm c s,
      nc c = Some s ->
      writeResult s = None ->
      canceledWhileListening ctx = true ->
      exists c', write ctx wm c = Ret (c', Some context_Canceled))
  /\
  (forall ctx c c1 bytesRead errMsg,
      read_body c = Ret (c1, bytesRead, errMsg, None) ->
      canceledWhileListening ctx = true ->
      exists c',
        read ctx c = Ret (c', bytesRead, "unable to read server response"%string,
                          Some context_Canceled))
  /\
  (forall ctx wm c c' err,
      canceledWhileListening ctx = true ->
      write ctx wm c = Ret (c', err) -> err <> None)
  /\
  (forall ctx c c' bytesRead errMsg err,
      canceledWhileListening ctx = true ->
      read ctx c = Ret (c', bytesRead, errMsg, err) -> err <> None).
Proof.
  repeat split.
  - intros ctx wm c s Hnc Hw Hc. unfold write. rewrite Hnc.
    unfold netConn_Write. rewrite Hw.
    rewrite StopListening_fired by assumption. eauto.
  - intros ctx c c1 b m Hb Hc. unfold read. rewrite Hb. cbn [go_bind].
    rewrite StopListening_fired by assumption. eauto.
  - intros ctx wm c c' err Hc. unfold write.
    destruct (nc c) as [s|]; [|discriminate].
    destruct (netConn_Write s wm) as [s' [e|]];
      rewrite StopListening_fired by assumption;
      intros H; inversion H; discriminate.
  - intros ctx c c' b m err Hc. unfold read.
    destruct (read_body c) as [[[[c1 b1] m1] [e|]]|]; cbn [go_bind];
      try discriminate;
      rewrite StopListening_fired by assumption;
      intros H; inversion H; discriminate.
Qed.

Lemma cancel_overrides_success_witness :
  (exists c',
      write canceled_context five_bytes (example_connection [] io_timeout)
      = Ret (c', Some context_Canceled))
  /\ (exists c',
         read canceled_context (example_connection five_bytes io_timeout)
         = Ret (c', five_bytes, "unable to read server response"%string,
                Some context_Canceled))
  /\ Some context_Canceled <> None
  /\ Some io_timeout <> None.
Proof.
  destruct cancel_overrides_success as (Hw & Hr & Hw' & Hr').
  split; [|split; [|split]].
  - apply (Hw canceled_context five_bytes (example_connection [] io_timeout)
             (example_socket [] io_timeout)); reflexivity.
  - apply (Hr canceled_context (example_connection five_bytes io_timeout)
             (example_connection [] io_timeout) five_bytes ""%string);
      reflexivity.
  - apply (Hw' canceled_context five_bytes (example_connection [] io_timeout)
             (fst (close (set_nc (example_connection [] io_timeout)
                            (Some (fst (netConn_Write
                                          (example_socket [] io_timeout)
                                          five_bytes))))))
             (Some context_Canceled)); reflexivity.
  - apply (Hr' canceled_context (example_connection [] io_timeout)
             (fst (close (set_awaitRemainingBytes
                            (example_connection [] io_timeout) (Some 0))))
             [] "incomplete read of message header"%string (Some io_timeout));
      reflexivity.
Defined.

(** ** The size prefix *)

Lemma parse_malformed c bs :
  int32 (LittleEndian_Uint32 bs) < 4 ->
  parseWmSizeBytes c bs =
    inr (fmt_Errorf ("malformed message length: "
                     ++ fmt_d (int32 (LittleEndian_Uint32 bs)))%string None).
Proof.
  intros H. unfold parseWmSizeBytes.
  apply Z.ltb_lt in H. cbv zeta. rewrite H. reflexivity.
Qed.

Lemma parse_too_large c bs :
  4 <= int32 (LittleEndian_Uint32 bs) ->
  effectiveMax c < int32 (LittleEndian_Uint32 bs) ->
  parseWmSizeBytes c bs = inr errResponseTooLarge.
Proof.
  intros H4 Hm. unfold parseWmSizeBytes. cbv zeta.
  apply Z.ltb_ge in H4. rewrite H4.
  pose proof (int32_range (LittleEndian_Uint32 bs)) as R.
  apply Z.ltb_ge in H4.
  rewrite uint32_small by (change (2 ^ 32) with (2 * 2 ^ 31); lia).
  fold (effectiveMax c).
  apply Z.gt_lt_iff in Hm. apply Z.gtb_gt in Hm. rewrite Hm. reflexivity.
Qed.

Lemma parse_accepts c bs :
  4 <= int32 (LittleEndian_Uint32 bs) <= effectiveMax c ->
  parseWmSizeBytes c bs = inl (int32 (LittleEndian_Uint32 bs)).
Proof.
  intros [H4 Hm]. unfold parseWmSizeBytes. cbv zeta.
  apply Z.ltb_ge in H4. rewrite H4.
  pose proof (int32_range (LittleEndian_Uint32 bs)) as R.
  apply Z.ltb_ge in H4.
  rewrite uint32_small by (change (2 ^ 32) with (2 * 2 ^ 31); lia).
  fold (effectiveMax c).
  destruct (int32 (LittleEndian_Uint32 bs) >? effectiveMax c) eqn:E.
  - apply Z.gtb_gt in E. lia.
  - reflexivity.
Qed.

Lemma parse_desc c c' bs :
  desc c = desc c' -> parseWmSizeBytes c bs = parseWmSizeBytes c' bs.
Proof. unfold parseWmSizeBytes. intros ->. reflexivity. Qed.

(** A rejected prefix ends [read] with the error of the framer and the
    socket advanced by the four bytes of the prefix only. *)
Lemma read_rejects ctx c s b0 b1 b2 b3 rest e :
  nc c = Some s ->
  incoming s = b0 :: b1 :: b2 :: b3 :: rest ->
  parseWmSizeBytes c [b0; b1; b2; b3] = inr e ->
  exists c' s',
    read ctx c = Ret (c', [], Error e, Some e)
    /\ nc c' = Some s' /\ incoming s' = rest.
Proof.
  intros Hnc Hin Hp. unfold read, read_body.
  rewrite Hnc, (io_ReadFull_prefix _ _ _ _ _ _ Hin).
  cbv zeta. cbn [fill firstn app repeat].
  rewrite (parse_desc _ c) by reflexivity. rewrite Hp. cbn [go_bind].
  unfold StopListening, cancellationListenerCallback, close.
  destruct (canceledWhileListening ctx).
  - destruct (connState_eqb _ _); cbn; eexists; eexists;
      repeat split; reflexivity.
  - eexists; eexists; repeat split; reflexivity.
Qed.

Lemma readWireMessage_failed ctx c s c1 dst msg e :
  state c = connConnected -> nc c = Some s -> deadlineResult s = None ->
  read ctx (set_nc c (Some (fst (SetReadDeadline s (fst (ctx_Deadline ctx))))))
    = Ret (c1, dst, msg, Some e) ->
  let c' := match awaitRemainingBytes c1 with
            | None => fst (close c1)
            | Some _ => c1
            end in
  readWireMessage ctx c =
    Ret (c', None,
         Some (ConnectionError (id c')
                 (transformNetworkError ctx (Some e) (snd (ctx_Deadline ctx)))
                 false msg)).
Proof.
  intros Hst Hnc Hd Hr c'. unfold readWireMessage.
  rewrite Hst, Hnc. cbn [connState_eqb negb].
  destruct (ctx_Deadline ctx) as [deadline used] eqn:Ed.
  cbn [fst snd] in *.
  unfold SetReadDeadline in *. rewrite Hd in *. cbn [fst] in Hr.
  rewrite Hr. reflexivity.
Qed.

(** C6, as stated, fails: with a negotiated maximum of 2, the prefix 3
    exceeds the maximum and is answered with the malformed-length
    error, the test against 4 coming first. *)
Lemma small_prefix_above_tiny_max :
  effectiveMax
    (tiny_max_connection [Byte.x03; Byte.x00; Byte.x00; Byte.x00; Byte.x2a])
  < int32 (LittleEndian_Uint32 [Byte.x03; Byte.x00; Byte.x00; Byte.x00])
  /\ (exists c',
         read quiet_context
           (tiny_max_connection
              [Byte.x03; Byte.x00; Byte.x00; Byte.x00; Byte.x2a])
         = Ret (c', [], "malformed message length: 3"%string,
                Some (fmt_Errorf "malformed message length: 3" None)))
  /\ ~ size_prefix_claim.
Proof.
  split; [vm_compute; reflexivity|]. split.
  - eexists. vm_compute. reflexivity.
  - intros H.
    destruct (H quiet_context
                (tiny_max_connection
                   [Byte.x03; Byte.x00; Byte.x00; Byte.x00; Byte.x2a])
                (example_socket
                   [Byte.x03; Byte.x00; Byte.x00; Byte.x00; Byte.x2a]
                   io_timeout)
                Byte.x03 Byte.x00 Byte.x00 Byte.x00 [Byte.x2a]
                eq_refl eq_refl) as (_ & H2).
    destruct H2 as (c' & Hr); [vm_compute; reflexivity|].
    vm_compute in Hr. discriminate.
Qed.

(** A prefix with the top bit set is negative as an [int32] and is
    answered with the malformed-length error as well. *)
Example negative_prefix_is_malformed :
  exists c',
    read quiet_context
      (example_connection [Byte.xff; Byte.xff; Byte.xff; Byte.xff] io_timeout)
    = Ret (c', [], "malformed message length: -1"%string,
           Some (fmt_Errorf "malformed message length: -1" None)).
Proof. eexists. vm_compute. reflexivity. Qed.

(** C6, amended: a size prefix that decodes to less than 4 fails the
    read with the malformed-length error; one that is at least 4 and
    exceeds the negotiated maximum, or 48000000 when none is
    negotiated, fails it with the response-too-large error; in both
    cases [readWireMessage] fails and the socket has given up the four
    prefix bytes only. *)
Theorem size_prefix_rejected :
  forall ctx c s b0 b1 b2 b3 rest,
    nc c = Some s ->
    incoming s = b0 :: b1 :: b2 :: b3 :: rest ->
    let size := int32 (LittleEndian_Uint32 [b0; b1; b2; b3]) in
    (size < 4 ->
     exists c' s',
       read ctx c =
         Ret (c', [], ("malformed message length: " ++ fmt_d size)%string,
              Some (fmt_Errorf
                      ("malformed message length: " ++ fmt_d size)%string None))
       /\ nc c' = Some s' /\ incoming s' = rest)
    /\
    (4 <= size -> effectiveMax c < size ->
     exists c' s',
       read ctx c =
         Ret (c', [], "length of read message too large"%string,
              Some errResponseTooLarge)
       /\ nc c' = Some s' /\ incoming s' = rest)
    /\
    (size < 4 \/ effectiveMax c < size ->
     state c = connConnected ->
     deadlineResult s = None ->
     exists c' s' cause message,
       readWireMessage ctx c =
         Ret (c', None, Some (ConnectionError (id c) cause false message))
       /\ (message = ("malformed message length: " ++ fmt_d size)%string
           \/ message = "length of read message too large"%string)
       /\ nc c' = Some s' /\ incoming s' = rest).
Proof.
  intros ctx c s b0 b1 b2 b3 rest Hnc Hin size.
  split; [|split].
  - intros Hs.
    exact (read_rejects ctx c s b0 b1 b2 b3 rest _ Hnc Hin
             (parse_malformed c _ Hs)).
  - intros H4 Hm.
    exact (read_rejects ctx c s b0 b1 b2 b3 rest _ Hnc Hin
             (parse_too_large c _ H4 Hm)).
  - intros Hbad Hst Hd.
    set (s1 := fst (SetReadDeadline s (fst (ctx_Deadline ctx)))).
    assert (Hin1 : incoming s1 = b0 :: b1 :: b2 :: b3 :: rest).
    { subst s1. unfold SetReadDeadline. rewrite Hd. exact Hin. }
    assert (exists e,
               parseWmSizeBytes (set_nc c (Some s1)) [b0; b1; b2; b3] = inr e
               /\ (Error e = ("malformed message length: " ++ fmt_d size)%string
                   \/ Error e = "length of read message too large"%string))
      as (e & Hp & He).
    { destruct (Z.lt_ge_cases size 4) as [Hlt|Hge].
      - eexists. split; [apply parse_malformed; exact Hlt|]. left. reflexivity.
      - destruct Hbad as [Hlt|Hgt]; [lia|].
        exists errResponseTooLarge.
        split; [apply parse_too_large; assumption|]. right. reflexivity. }
    destruct (read_rejects ctx (set_nc c (Some s1)) s1 b0 b1 b2 b3 rest e
                eq_refl Hin1 Hp) as (c1 & s1' & Hr & Hnc1 & Hin1').
    pose proof (readWireMessage_failed ctx c s c1 [] (Error e) e Hst Hnc Hd Hr)
      as Hrw.
    cbv zeta in Hrw.
    assert (Hid : forall c0, id (fst (close c0)) = id c0).
    { intros c0. unfold close. destruct c0 as [st ? [x|]]; destruct st;
        reflexivity. }
    assert (Hid1 : id c1 = id c).
    { unfold read, read_body in Hr. cbn [nc set_nc] in Hr.
      rewrite (io_ReadFull_prefix _ _ _ _ _ _ Hin1) in Hr.
      cbv zeta in Hr. cbn [fill firstn app repeat] in Hr.
      rewrite (parse_desc _ (set_nc c (Some s1))) in Hr by reflexivity.
      rewrite Hp in Hr. cbn [go_bind] in Hr.
      unfold StopListening, cancellationListenerCallback in Hr.
      destruct (canceledWhileListening ctx); inversion Hr;
        rewrite ?Hid; reflexivity. }
    destruct (awaitRemainingBytes c1).
    + exists c1, s1'. do 2 eexists. rewrite Hrw, Hid1.
      split; [reflexivity|]. auto.
    + pose proof (close_socket c1) as Hc. rewrite Hnc1 in Hc.
      destruct (nc (fst (close c1))) as [s2|] eqn:E2; [|contradiction].
      exists (fst (close c1)), s2. do 2 eexists.
      rewrite Hrw, Hid, Hid1. split; [reflexivity|].
      split; [exact He|]. split; [exact E2|]. destruct Hc; congruence.
Qed.

Lemma size_prefix_rejected_witness :
  (exists c' s',
      read quiet_context
        (example_connection [Byte.x03; Byte.x00; Byte.x00; Byte.x00; Byte.x2a]
           io_timeout)
      = Ret (c', [], "malformed message length: 3"%string,
             Some (fmt_Errorf "malformed message length: 3" None))
      /\ nc c' = Some s' /\ incoming s' = [Byte.x2a])
  /\
  (exists c' s',
      read quiet_context
        (example_connection [Byte.x00; Byte.x00; Byte.x00; Byte.x04; Byte.x2a]
           io_timeout)
      = Ret (c', [], "length of read message too large"%string,
             Some errResponseTooLarge)
      /\ nc c' = Some s' /\ incoming s' = [Byte.x2a])
  /\
  (exists c' s' cause message,
      readWireMessage quiet_context
        (example_connection [Byte.x03; Byte.x00; Byte.x00; Byte.x00; Byte.x2a]
           io_timeout)
      = Ret (c', None,
             Some (ConnectionError "db:27017[-2]" cause false message))
      /\ (message = "malformed message length: 3"%string
          \/ message = "length of read message too large"%string)
      /\ nc c' = Some s' /\ incoming s' = [Byte.x2a]).
Proof.
  split; [|split].
  - apply (size_prefix_rejected quiet_context
             (example_connection
                [Byte.x03; Byte.x00; Byte.x00; Byte.x00; Byte.x2a] io_timeout)
             (example_socket
                [Byte.x03; Byte.x00; Byte.x00; Byte.x00; Byte.x2a] io_timeout)
             Byte.x03 Byte.x00 Byte.x00 Byte.x00 [Byte.x2a]
             eq_refl eq_refl).
    vm_compute. reflexivity.
  - apply (size_prefix_rejected quiet_context
             (example_connection
                [Byte.x00; Byte.x00; Byte.x00; Byte.x04; Byte.x2a] io_timeout)
             (example_socket
                [Byte.x00; Byte.x00; Byte.x00; Byte.x04; Byte.x2a] io_timeout)
             Byte.x00 Byte.x00 Byte.x00 Byte.x04 [Byte.x2a]
             eq_refl eq_refl).
    + vm_compute. discriminate.
    + vm_compute. reflexivity.
  - apply (size_prefix_rejected quiet_context
             (example_connection
                [Byte.x03; Byte.x00; Byte.x00; Byte.x00; Byte.x2a] io_timeout)
             (example_socket
                [Byte.x03; Byte.x00; Byte.x00; Byte.x00; Byte.x2a] io_timeout)
             Byte.x03 Byte.x00 Byte.x00 Byte.x00 [Byte.x2a]
             eq_refl eq_refl).
    + left. vm_compute. reflexivity.
    + reflexivity.
    + reflexivity.
Defined.

(** ** Reads that time out *)

(** C2: the four prefix bytes declare a length of 100 and the read of
    the body times out before any byte of it arrives (the listener did
    not abort and the maximum admits 100, so that the body is read):
    the connection stays connected, its socket is not closed, and 96
    bytes are recorded as awaited. *)
Theorem read_timeout_after_prefix :
  forall ctx c s,
    state c = connConnected ->
    nc c = Some s ->
    deadlineResult s = None ->
    incoming s = prefix_100 ->
    isCSOTTimeout (readFailure s) = true ->
    canceledWhileListening ctx = false ->
    MaxMessageSize (desc c) = 0 \/ 100 <= MaxMessageSize (desc c) ->
    exists c' s' err,
      readWireMessage ctx c = Ret (c', None, Some err)
      /\ state c' = connConnected
      /\ nc c' = Some s'
      /\ closeCalls s' = closeCalls s
      /\ awaitRemainingBytes c' = Some 96.
Proof.
  intros ctx c s Hst Hnc Hd Hin Ht Hq Hmax.
  assert (Hp : forall c0, desc c0 = desc c ->
                          parseWmSizeBytes c0 prefix_100 = inl 100).
  { intros c0 E.
    change 100 with (int32 (LittleEndian_Uint32 prefix_100)) at 1.
    apply parse_accepts.
    change (int32 (LittleEndian_Uint32 prefix_100)) with 100.
    unfold effectiveMax, defaultMaxMessageSize. rewrite E.
    destruct Hmax as [-> | Hge]; [cbn; lia|].
    destruct (MaxMessageSize (desc c) =? 0) eqn:E0.
    - apply Z.eqb_eq in E0. lia.
    - lia. }
  eexists. eexists. eexists. split.
  - eapply readWireMessage_failed; try eassumption.
    unfold read, read_body. cbn [nc set_nc].
    unfold SetReadDeadline. rewrite Hd. cbn [fst].
    rewrite (io_ReadFull_prefix _ Byte.x64 Byte.x00 Byte.x00 Byte.x00 [])
      by exact Hin.
    cbv zeta. cbn [fill firstn app repeat].
    fold prefix_100. rewrite Hp by reflexivity.
    rewrite io_ReadFull_none by (reflexivity || (cbn; lia)).
    cbn [readFailure with_incoming].
    change (int32 (int32 (100 - 4) - int32 0)) with 96.
    change (96 >? 0) with true. rewrite Ht. cbn [andb go_bind].
    rewrite StopListening_quiet by assumption. reflexivity.
  - cbn. rewrite Hst. repeat split; reflexivity.
Qed.

Lemma read_timeout_after_prefix_witness :
  exists c' s' err,
    readWireMessage quiet_context (example_connection prefix_100 io_timeout)
    = Ret (c', None, Some err)
    /\ state c' = connConnected
    /\ nc c' = Some s'
    /\ closeCalls s' = closeCalls (example_socket prefix_100 io_timeout)
    /\ awaitRemainingBytes c' = Some 96.
Proof.
  apply (read_timeout_after_prefix quiet_context
           (example_connection prefix_100 io_timeout)
           (example_socket prefix_100 io_timeout));
    try reflexivity.
  left. reflexivity.
Defined.

(** C7, as stated, fails: when two of the four prefix bytes arrive and
    the read then times out, no remaining-byte count is recorded and
    [readWireMessage] closes the connection. *)
Lemma prefix_timeout_partial_closes :
  (exists c' s',
      readWireMessage quiet_context
        (example_connection [Byte.x64; Byte.x00] io_timeout)
      = Ret (c', None,
             Some (ConnectionError "db:27017[-2]" (Some io_timeout) false
                     "incomplete read of message header"))
      /\ state c' = connDisconnected
      /\ awaitRemainingBytes c' = None
      /\ nc c' = Some s' /\ closeCalls s' = 1%nat)
  /\ ~ prefix_timeout_claim.
Proof.
  split.
  - do 2 eexists. vm_compute. repeat split.
  - intros H.
    destruct (H quiet_context
                (example_connection [Byte.x64; Byte.x00] io_timeout)
                (example_socket [Byte.x64; Byte.x00] io_timeout))
      as (c' & err & Hr & Hs & Ha); try reflexivity.
    + cbn. lia.
    + vm_compute in Hr. inversion Hr; subst. discriminate.
Qed.

(** C7, amended: when the read of the size prefix times out before any
    byte of the prefix has arrived (and the listener did not abort),
    zero remaining bytes are recorded, the connection stays connected
    and its socket is not closed. *)
Theorem prefix_timeout_before_first_byte :
  forall ctx c s,
    state c = connConnected ->
    nc c = Some s ->
    deadlineResult s = None ->
    incoming s = [] ->
    isCSOTTimeout (readFailure s) = true ->
    canceledWhileListening ctx = false ->
    exists c' s' err,
      readWireMessage ctx c = Ret (c', None, Some err)
      /\ state c' = connConnected
      /\ nc c' = Some s'
      /\ closeCalls s' = closeCalls s
      /\ awaitRemainingBytes c' = Some 0.
Proof.
  intros ctx c s Hst Hnc Hd Hin Ht Hq.
  eexists. eexists. eexists. split.
  - eapply readWireMessage_failed; try eassumption.
    unfold read, read_body. cbn [nc set_nc].
    unfold SetReadDeadline. rewrite Hd. cbn [fst].
    rewrite io_ReadFull_none by (exact Hin || lia).
    cbn [readFailure]. change (int32 0 =? 0) with true.
    rewrite Ht. cbn [andb go_bind].
    rewrite StopListening_quiet by assumption. reflexivity.
  - cbn. rewrite Hst. repeat split; reflexivity.
Qed.

Lemma prefix_timeout_before_first_byte_witness :
  exists c' s' err,
    readWireMessage quiet_context (example_connection [] io_timeout)
    = Ret (c', None, Some err)
    /\ state c' = connConnected
    /\ nc c' = Some s'
    /\ closeCalls s' = closeCalls (example_socket [] io_timeout)
    /\ awaitRemainingBytes c' = Some 0.
Proof.
  apply (prefix_timeout_before_first_byte quiet_context
           (example_connection [] io_timeout)
           (example_socket [] io_timeout));
    reflexivity.
Defined.

(** ** Wire traffic of a handshaker *)

Ltac keeps :=
  split; [reflexivity | unfold has_socket; cbn; discriminate].

Lemma close_keeps c :
  static (fst (close c)) = static c
  /\ (has_socket c -> has_socket (fst (close c))).
Proof.
  unfold close, has_socket, static.
  destruct c as [st ? [s|]]; destruct st; cbn; split;
    solve [reflexivity | discriminate | auto].
Qed.

Lemma StopListening_keeps ctx c :
  static (fst (StopListening ctx cancellationListenerCallback c)) = static c
  /\ (has_socket c ->
      has_socket (fst (StopListening ctx cancellationListenerCallback c))).
Proof.
  unfold StopListening, cancellationListenerCallback.
  destruct (canceledWhileListening ctx); cbn [fst]; [apply close_keeps | auto].
Qed.

Lemma write_keeps ctx wm c :
  has_socket c ->
  exists c' err, write ctx wm c = Ret (c', err)
                 /\ static c' = static c /\ has_socket c'.
Proof.
  unfold write, has_socket. intros H.
  destruct (nc c) as [s|] eqn:E; [|congruence].
  destruct (netConn_Write s wm) as [s' err].
  pose proof (StopListening_keeps ctx (set_nc c (Some s'))) as [K1 K2].
  destruct (StopListening ctx cancellationListenerCallback (set_nc c (Some s')))
    as [c1 aborted]. cbn [fst] in *.
  eexists. eexists. split; [reflexivity|]. split.
  - rewrite K1. reflexivity.
  - apply K2. unfold has_socket. cbn. congruence.
Qed.

Lemma read_body_keeps c :
  has_socket c ->
  exists c' b m err, read_body c = Ret (c', b, m, err)
                     /\ static c' = static c /\ has_socket c'.
Proof.
  unfold read_body, has_socket. intros H.
  destruct (nc c) as [s|] eqn:E; [|congruence].
  destruct (io_ReadFull s 4) as [[[s1 bs] n] [e|]].
  - destruct ((int32 n =? 0) && isCSOTTimeout e);
      do 4 eexists; (split; [reflexivity|]); keeps.
  - cbv zeta.
    destruct (parseWmSizeBytes (set_nc c (Some s1)) (fill 4 bs)) as [size|e].
    + destruct (io_ReadFull s1 (Z.to_nat size - 4)) as [[[s2 body] n2] [e|]].
      * destruct ((int32 (int32 (size - 4) - int32 n2) >? 0)
                  && isCSOTTimeout e);
          do 4 eexists; (split; [reflexivity|]); keeps.
      * do 4 eexists; (split; [reflexivity|]); keeps.
    + do 4 eexists; (split; [reflexivity|]); keeps.
Qed.

Lemma read_keeps ctx c :
  has_socket c ->
  exists c' b m err, read ctx c = Ret (c', b, m, err)
                     /\ static c' = static c /\ has_socket c'.
Proof.
  intros H. unfold read.
  destruct (read_body_keeps c H) as (c1 & b & m & err & -> & S1 & H1).
  cbn [go_bind].
  pose proof (StopListening_keeps ctx c1) as [K1 K2].
  destruct (StopListening ctx cancellationListenerCallback c1) as [c2 aborted].
  cbn [fst] in *.
  destruct err as [e|]; [|destruct aborted];
    do 4 eexists; (split; [reflexivity|]); split; try congruence; auto.
Qed.

Lemma writeWireMessage_keeps ctx wm c :
  has_socket c ->
  exists c' err, writeWireMessage ctx wm c = Ret (c', err)
                 /\ static c' = static c /\ has_socket c'.
Proof.
  intros H. unfold writeWireMessage.
  destruct (negb (connState_eqb (state c) connConnected)).
  { eauto. }
  destruct (ctx_Deadline ctx) as [deadline used].
  unfold has_socket in H.
  destruct (nc c) as [s|] eqn:E; [|congruence].
  destruct (SetWriteDeadline s deadline) as [s' [e|]].
  { do 2 eexists. split; [reflexivity|]. split; [reflexivity|].
    unfold has_socket. congruence. }
  destruct (write_keeps ctx wm (set_nc c (Some s')))
    as (c1 & err & -> & S1 & H1).
  { unfold has_socket. cbn. congruence. }
  cbn [go_bind].
  destruct err as [e|].
  - pose proof (close_keeps c1) as [K1 K2].
    do 2 eexists. split; [reflexivity|]. split; [|auto].
    rewrite K1, S1. reflexivity.
  - do 2 eexists. split; [reflexivity|]. split; [|auto].
    rewrite S1. reflexivity.
Qed.

Lemma readWireMessage_keeps ctx c :
  has_socket c ->
  exists c' dst err, readWireMessage ctx c = Ret (c', dst, err)
                     /\ static c' = static c /\ has_socket c'.
Proof.
  intros H. unfold readWireMessage.
  destruct (negb (connState_eqb (state c) connConnected)).
  { eauto 6. }
  destruct (ctx_Deadline ctx) as [deadline used].
  unfold has_socket in H.
  destruct (nc c) as [s|] eqn:E; [|congruence].
  destruct (SetReadDeadline s deadline) as [s' [e|]].
  { do 3 eexists. split; [reflexivity|]. split; [reflexivity|].
    unfold has_socket. congruence. }
  destruct (read_keeps ctx (set_nc c (Some s')))
    as (c1 & b & m & err & -> & S1 & H1).
  { unfold has_socket. cbn. congruence. }
  cbn [go_bind].
  destruct err as [e|].
  - pose proof (close_keeps c1) as [K1 K2].
    do 3 eexists. split; [reflexivity|].
    destruct (awaitRemainingBytes c1); split; auto;
      try rewrite K1; rewrite S1; reflexivity.
  - do 3 eexists. split; [reflexivity|]. split; [|auto].
    rewrite S1. reflexivity.
Qed.

Lemma run_initOps_keeps ops : forall c,
  has_socket c ->
  exists c', run_initOps ops c = Ret c'
             /\ static c' = static c /\ has_socket c'.
Proof.
  induction ops as [|op ops IH]; intros c H.
  - cbn. eauto.
  - cbn [run_initOps].
    assert (exists c1, run_initOp op c = Ret c1
                       /\ static c1 = static c /\ has_socket c1)
      as (c1 & -> & S1 & H1).
    { destruct op as [ctx wm|ctx|b]; cbn [run_initOp].
      - destruct (writeWireMessage_keeps ctx wm c H) as (c1 & err & -> & ? & ?).
        cbn. eauto.
      - destruct (readWireMessage_keeps ctx c H)
          as (c1 & dst & err & -> & ? & ?).
        cbn. eauto.
      - eexists. split; [reflexivity|]. split; [reflexivity|]. exact H. }
    cbn [go_bind].
    destruct (IH c1 H1) as (c2 & -> & S2 & H2).
    eexists. split; [reflexivity|]. split; [congruence|auto].
Qed.

Lemma static_config c c' : static c' = static c -> config c' = config c.
Proof. unfold static. congruence. Qed.

Lemma generation_step_keeps (b : bool) c :
  let c' := if b then setGenerationNumber c else c in
  nc c' = nc c /\ config c' = config c /\ desc c' = desc c
  /\ compressor c' = compressor c /\ zliblevel c' = zliblevel c
  /\ zstdLevel_ c' = zstdLevel_ c.
Proof.
  unfold setGenerationNumber.
  destruct b; [destruct (getGenerationFn (config c))|]; cbn; repeat split.
Qed.

(** ** connect *)

Lemma connect_tls_succeeds c s :
  transport_succeeds (config c) = true ->
  exists c1 s1,
    connect_tls c s = (c1, s1, None)
    /\ static c1 = static c /\ state c1 = state c
    /\ (has_socket c -> has_socket c1).
Proof.
  unfold transport_succeeds, connect_tls. intros H.
  apply andb_prop in H as [H _].
  destruct (tlsConfig (config c)) as [t|].
  - apply andb_prop in H as [H1 H2].
    unfold configureTLS.
    destruct (tlsHandshake (config c)); [discriminate|].
    cbv zeta.
    destruct (String.eqb (ServerName t) ""); cbn [InsecureSkipVerify];
      destruct (InsecureSkipVerify t); cbn [negb];
      try (destruct (ocspVerify (config c)); [discriminate|]);
      do 2 eexists; (split; [reflexivity|]);
      (split; [reflexivity|]); (split; [reflexivity|]);
      intros _; unfold has_socket; cbn; discriminate.
  - do 2 eexists. split; [reflexivity|]. auto.
Qed.

Lemma connect_tlcp_succeeds c s :
  transport_succeeds (config c) = true ->
  exists c1 s1,
    connect_tlcp c s = (c1, s1, None)
    /\ static c1 = static c /\ state c1 = state c
    /\ (has_socket c -> has_socket c1).
Proof.
  unfold transport_succeeds, connect_tlcp. intros H.
  apply andb_prop in H as [_ H].
  destruct (tlcpConfig (config c)) as [t|].
  - unfold configureTLCP.
    destruct (tlcpHandshake (config c)); [discriminate|].
    do 2 eexists. split; [reflexivity|].
    split; [reflexivity|]. split; [reflexivity|].
    intros _; unfold has_socket; cbn; discriminate.
  - do 2 eexists. split; [reflexivity|]. auto.
Qed.

(** C5: load-balanced mode is declared, dialing and the configured
    secure transports succeed, and the first handshake phase succeeds
    with a description that has no service identity: [connect] returns
    the load-balanced state-mismatch error (wrapped as a handshake
    failure), the connection ends disconnected and its socket has been
    closed. *)
Theorem load_balanced_mismatch :
  forall ToLower DefaultZlibLevel DefaultZstdLevel c tempNc h info,
    state c = connInitialized ->
    loadBalanced (config c) = true ->
    dialer (config c) = inl tempNc ->
    transport_succeeds (config c) = true ->
    handshaker (config c) = Some h ->
    hello_result h = inl info ->
    ServiceID (Description info) = None ->
    exists c' s',
      connect ToLower DefaultZlibLevel DefaultZstdLevel c =
        Ret (c', Some (ConnectionError ""
                         (Some errLoadBalancedStateMismatch) true ""))
      /\ state c' = connDisconnected
      /\ nc c' = Some s'
      /\ (0 < closeCalls s')%nat.
Proof.
  intros ToLower dzl dzs c tempNc h info Hst Hlb Hdial Htr Hh Hhello Hsid.
  unfold connect. rewrite Hst. cbn [connState_eqb negb].
  unfold connect_body. cbn [config set_state]. rewrite Hdial.
  set (c0 := set_nc (set_state c connConnected) (Some tempNc)).
  assert (C0 : config c0 = config c) by reflexivity.
  destruct (connect_tls_succeeds c0 tempNc) as (c1 & s1 & -> & S1 & _ & K1).
  { rewrite C0. exact Htr. }
  apply static_config in S1.
  destruct (connect_tlcp_succeeds c1 s1) as (c2 & s2 & -> & S2 & _ & K2).
  { rewrite S1, C0. exact Htr. }
  apply static_config in S2.
  rewrite S2, S1, C0, Hh.
  unfold handshake.
  destruct (run_initOps_keeps (hello_io h) c2) as (c3 & -> & S3 & K3).
  { apply K2, K1. unfold has_socket. cbn. discriminate. }
  apply static_config in S3.
  cbn [go_bind]. rewrite Hhello.
  cbn [config set_handshake desc]. rewrite S3, S2, S1, C0, Hlb, Hsid.
  cbn [andb go_bind connect_deferred].
  unfold has_socket in K3.
  destruct (nc c3) as [s3|] eqn:E3; [|congruence].
  cbn [nc set_handshake set_state]. rewrite E3.
  do 2 eexists. split; [reflexivity|].
  cbn. repeat split. apply Nat.lt_0_succ.
Qed.

Lemma load_balanced_mismatch_witness :
  exists c' s',
    connect ascii_ToLower 6 6 (fresh_connection true) =
      Ret (c', Some (ConnectionError ""
                       (Some errLoadBalancedStateMismatch) true ""))
    /\ state c' = connDisconnected
    /\ nc c' = Some s'
    /\ (0 < closeCalls s')%nat.
Proof.
  apply (load_balanced_mismatch ascii_ToLower 6 6 (fresh_connection true)
           (example_socket [] io_EOF) plain_handshaker plain_hello);
    reflexivity.
Defined.

Section Selection.

Variable ToLower : string -> string.
Variables DefaultZlibLevel DefaultZstdLevel : Z.

Lemma serverMethodLoop_existsb method servers c :
  serverMethodLoop ToLower DefaultZlibLevel DefaultZstdLevel method servers c
  = if existsb (String.eqb method) servers
    then Some (switch_method ToLower DefaultZlibLevel DefaultZstdLevel
                 method c)
    else None.
Proof.
  induction servers as [|sm rest IH]; cbn [serverMethodLoop existsb].
  - reflexivity.
  - destruct (String.eqb method sm); cbn [negb orb];
      [reflexivity | exact IH].
Qed.

Lemma clientMethodLoop_find methods c :
  clientMethodLoop ToLower DefaultZlibLevel DefaultZstdLevel methods c
  = match first_common methods (Compression (desc c)) with
    | Some method =>
        switch_method ToLower DefaultZlibLevel DefaultZstdLevel method c
    | None => c
    end.
Proof.
  unfold first_common.
  induction methods as [|m rest IH]; cbn [clientMethodLoop find].
  - reflexivity.
  - rewrite serverMethodLoop_existsb.
    destruct (existsb (String.eqb m) (Compression (desc c)));
      [reflexivity | exact IH].
Qed.

Lemma selectCompressor_first_common c :
  selectCompressor ToLower DefaultZlibLevel DefaultZstdLevel c
  = match first_common (compressors (config c)) (Compression (desc c)) with
    | Some method =>
        switch_method ToLower DefaultZlibLevel DefaultZstdLevel method c
    | None => c
    end.
Proof.
  unfold selectCompressor.
  destruct (Compression (desc c)) as [|sm rest] eqn:E.
  - cbn [List.length Nat.ltb Nat.leb]. unfold first_common.
    replace (find _ (compressors (config c))) with (@None string);
      [reflexivity|].
    induction (compressors (config c)); cbn; auto.
  - cbn [List.length]. change (0 <? S (List.length rest))%nat with true.
    cbv iota. rewrite clientMethodLoop_find, E. reflexivity.
Qed.

Lemma connect_selects c tempNc h info :
  state c = connInitialized ->
  dialer (config c) = inl tempNc ->
  transport_succeeds (config c) = true ->
  handshaker (config c) = Some h ->
  handshake_succeeds (config c) h info ->
  exists c0,
    connect ToLower DefaultZlibLevel DefaultZstdLevel c
    = Ret (selectCompressor ToLower DefaultZlibLevel DefaultZstdLevel c0,
           None)
    /\ config c0 = config c
    /\ desc c0 = Description info
    /\ compressor c0 = compressor c
    /\ zliblevel c0 = zliblevel c
    /\ zstdLevel_ c0 = zstdLevel_ c.
Proof.
  intros Hst Hdial Htr Hh (Hhello & Hlb & Hfin).
  unfold connect. rewrite Hst. cbn [connState_eqb negb].
  unfold connect_body. cbn [config set_state]. rewrite Hdial.
  set (c0 := set_nc (set_state c connConnected) (Some tempNc)).
  assert (C0 : static c0 = static c) by reflexivity.
  destruct (connect_tls_succeeds c0 tempNc) as (c1 & s1 & -> & S1 & _ & K1).
  { rewrite (static_config _ _ C0). exact Htr. }
  destruct (connect_tlcp_succeeds c1 s1) as (c2 & s2 & -> & S2 & _ & K2).
  { rewrite (static_config _ _ S1), (static_config _ _ C0). exact Htr. }
  assert (S20 : static c2 = static c) by congruence.
  rewrite (static_config _ _ S20), Hh.
  unfold handshake.
  destruct (run_initOps_keeps (hello_io h) c2) as (c3 & -> & S3 & K3).
  { apply K2, K1. unfold has_socket. cbn. discriminate. }
  assert (S30 : static c3 = static c) by congruence.
  cbn [go_bind]. rewrite Hhello.
  cbn [config set_handshake desc].
  rewrite (static_config _ _ S30).
  set (c4 := set_handshake c3 info).
  assert (Hno : loadBalanced (config c) &&
                match ServiceID (Description info) with
                | Some _ => false
                | None => true
                end = false).
  { destruct (loadBalanced (config c)); [|reflexivity].
    destruct (ServiceID (Description info)); [reflexivity|].
    exfalso. apply Hlb; reflexivity. }
  rewrite Hno.
  set (c5 := if loadBalanced (config c4) then setGenerationNumber c4 else c4).
  destruct (generation_step_keeps (loadBalanced (config c4)) c4)
    as (G1 & G2 & G3 & G4 & G5 & G6).
  fold c5 in G1, G2, G3, G4, G5, G6.
  assert (K5 : has_socket c5).
  { unfold has_socket. rewrite G1. exact K3. }
  assert (S5 : config c5 = config c /\ desc c5 = Description info
               /\ compressor c5 = compressor c
               /\ zliblevel c5 = zliblevel c
               /\ zstdLevel_ c5 = zstdLevel_ c).
  { unfold static in S30. rewrite G2, G3, G4, G5, G6. subst c4. cbn.
    repeat split; congruence. }
  destruct (run_initOps_keeps (finish_io h) c5 K5) as (c6 & -> & S6 & K6).
  cbn [go_bind]. rewrite Hfin.
  exists c6. split; [reflexivity|].
  unfold static in S6. destruct S5 as (? & ? & ? & ? & ?).
  repeat split; congruence.
Qed.

End Selection.

(** C8: after a successful handshake [connect] ends with the connection
    obtained by applying the switch to the first entry of the client's
    list that is also in the server's list, and to no other entry; when
    that entry is zlib or zstd the level is the configured one, or the
    default when none is configured; the client list zstd, zlib, snappy
    against the server list zlib, snappy selects zlib. *)
Theorem compressor_selection :
  forall ToLower DefaultZlibLevel DefaultZstdLevel,
    (forall c tempNc h info,
        state c = connInitialized ->
        dialer (config c) = inl tempNc ->
        transport_succeeds (config c) = true ->
        handshaker (config c) = Some h ->
        handshake_succeeds (config c) h info ->
        exists c0 c',
          connect ToLower DefaultZlibLevel DefaultZstdLevel c = Ret (c', None)
          /\ config c0 = config c
          /\ desc c0 = Description info
          /\ compressor c0 = compressor c
          /\ zliblevel c0 = zliblevel c
          /\ zstdLevel_ c0 = zstdLevel_ c
          /\ c' = match first_common (compressors (config c))
                          (Compression (Description info)) with
                  | Some method =>
                      switch_method ToLower DefaultZlibLevel DefaultZstdLevel
                        method c0
                  | None => c0
                  end)
    /\
    (forall method c,
        ToLower method = "zlib"%string ->
        let c' := switch_method ToLower DefaultZlibLevel DefaultZstdLevel
                    method c in
        compressor c' = CompressorZLib
        /\ zliblevel c' = match zlibLevel (config c) with
                          | Some l => l
                          | None => DefaultZlibLevel
                          end)
    /\
    (forall method c,
        ToLower method = "zstd"%string ->
        let c' := switch_method ToLower DefaultZlibLevel DefaultZstdLevel
                    method c in
        compressor c' = CompressorZstd
        /\ zstdLevel_ c' = match zstdLevel (config c) with
                           | Some l => l
                           | None => DefaultZstdLevel
                           end)
    /\
    (ToLower "zlib"%string = "zlib"%string ->
     forall c,
       compressors (config c) = ["zstd"; "zlib"; "snappy"]%string ->
       Compression (desc c) = ["zlib"; "snappy"]%string ->
       compressor (selectCompressor ToLower DefaultZlibLevel DefaultZstdLevel c)
       = CompressorZLib).
Proof.
  intros ToLower dzl dzs. repeat split.
  - intros c tempNc h info Hst Hd Ht Hh Hs.
    destruct (connect_selects ToLower dzl dzs c tempNc h info Hst Hd Ht Hh Hs)
      as (c0 & Hc & C1 & C2 & C3 & C4 & C5).
    exists c0. eexists. split; [exact Hc|].
    repeat (split; [assumption|]).
    rewrite selectCompressor_first_common, C1, C2. reflexivity.
  - unfold switch_method. rewrite H. reflexivity.
  - unfold switch_method. rewrite H. reflexivity.
  - unfold switch_method. rewrite H. reflexivity.
  - unfold switch_method. rewrite H. reflexivity.
  - intros Hz c Hc Hs. rewrite selectCompressor_first_common, Hc, Hs.
    cbn. unfold switch_method. rewrite Hz. reflexivity.
Qed.

Lemma compressor_selection_witness :
  (exists c0 c',
      connect ascii_ToLower 6 6 (fresh_connection false) = Ret (c', None)
      /\ config c0 = config (fresh_connection false)
      /\ desc c0 = Description plain_hello
      /\ compressor c0 = compressor (fresh_connection false)
      /\ zliblevel c0 = zliblevel (fresh_connection false)
      /\ zstdLevel_ c0 = zstdLevel_ (fresh_connection false)
      /\ c' = match first_common
                      (compressors (config (fresh_connection false)))
                      (Compression (Description plain_hello)) with
              | Some method => switch_method ascii_ToLower 6 6 method c0
              | None => c0
              end)
  /\ (compressor (switch_method ascii_ToLower 6 6 "ZLIB" zlib_connection)
      = CompressorZLib
      /\ zliblevel (switch_method ascii_ToLower 6 6 "ZLIB" zlib_connection)
         = 6)
  /\ (compressor (switch_method ascii_ToLower 6 6 "zstd"
                    (fresh_connection false))
      = CompressorZstd
      /\ zstdLevel_ (switch_method ascii_ToLower 6 6 "zstd"
                       (fresh_connection false))
         = 9)
  /\ compressor (selectCompressor ascii_ToLower 6 6
                   (set_handshake (fresh_connection false) plain_hello))
     = CompressorZLib.
Proof.
  destruct (compressor_selection ascii_ToLower 6 6) as (H1 & H2 & H3 & H4).
  split; [|split; [|split]].
  - apply (H1 (fresh_connection false) (example_socket [] io_EOF)
             plain_handshaker plain_hello); try reflexivity.
    split; [reflexivity|]. split; [discriminate | reflexivity].
  - apply (H2 "ZLIB"%string zlib_connection). reflexivity.
  - apply (H3 "zstd"%string (fresh_connection false)). reflexivity.
  - apply H4; reflexivity.
Defined.

(** The scenario run through [connect]: zlib at the default level. *)
Example connect_selects_zlib :
  exists c',
    connect ascii_ToLower 6 6 (fresh_connection false) = Ret (c', None)
    /\ state c' = connConnected
    /\ compressor c' = CompressorZLib
    /\ zliblevel c' = 6.
Proof. eexists. vm_compute. repeat split. Qed.

(** ** Secure transport *)








(** The two blocks on the target address db.example:27017. *)
Example secure_transport_steps :
  transport (snd (fst (connect_tls (fresh_connection false)
                         (example_socket [] io_EOF))))
  = [tls_Client (mkTLS "db.example" false); tls_HandshakeContext; ocsp_Verify]
  /\ transport (snd (fst (connect_tlcp (fresh_connection false)
                            (example_socket [] io_EOF))))
     = [tlcp_Client (mkTLCP "" false); tlcp_HandshakeContext].
Proof. split; reflexivity. Qed.

(** ** The handle: pinning and release *)

Lemma run_pin_op_step o h p :
  connection_ h <> None ->
  exists h1 p1 err new,
    run_pin_op o h p = Ret (h1, p1, err)
    /\ connection_ h1 = connection_ h
    /\ calls p1 = calls p ++ new
    /\ count_calls is_accounting new
       = (if ((refCount h =? 0) && (refCount h1 =? 1))%Z then 1%nat else 0%nat)
    /\ count_calls is_cleanup new = 0%nat.
Proof.
  destruct h as [[c|] rc cp cs oid]; cbn [connection_ refCount];
    [intros _|congruence].
  destruct o; cbn [run_pin_op]; unfold PinToCursor, PinToTransaction,
    UnpinFromCursor, UnpinFromTransaction, pin, unpin;
    cbn [connection_ refCount cleanupPoolFn cleanupServerFn oidcTokenGenID];
    destruct (rc =? 0) eqn:E0; cbn [andb];
    try (apply Z.eqb_eq in E0; subst rc);
    cbn [connection_ refCount].
  - do 3 eexists. eexists [_]. repeat split; reflexivity.
  - do 3 eexists. exists []. rewrite app_nil_r. repeat split; reflexivity.
  - do 3 eexists. eexists [_]. repeat split; reflexivity.
  - do 3 eexists. exists []. rewrite app_nil_r. repeat split; reflexivity.
  - do 3 eexists. exists []. rewrite app_nil_r. repeat split; reflexivity.
  - do 3 eexists. exists []. rewrite app_nil_r. repeat split; reflexivity.
  - do 3 eexists. exists []. rewrite app_nil_r. repeat split; reflexivity.
  - do 3 eexists. exists []. rewrite app_nil_r. repeat split; reflexivity.
Qed.

Lemma count_calls_app f l1 l2 :
  count_calls f (l1 ++ l2) = (count_calls f l1 + count_calls f l2)%nat.
Proof. unfold count_calls. rewrite filter_app, length_app. reflexivity. Qed.

Lemma run_pin_ops_calls : forall ops h p,
  connection_ h <> None ->
  exists h' p' new,
    run_pin_ops ops h p = Ret (h', p')
    /\ connection_ h' = connection_ h
    /\ calls p' = calls p ++ new
    /\ count_calls is_accounting new = transitions 0 1 (refCounts ops h p)
    /\ count_calls is_cleanup new = 0%nat.
Proof.
  induction ops as [|o rest IH]; intros h p Hl.
  - exists h, p, []. cbn. rewrite app_nil_r. repeat split.
  - destruct (run_pin_op_step o h p Hl)
      as (h1 & p1 & err & new1 & Hr & Hc & Hn & Ha & Hcl).
    destruct (IH h1 p1) as (h' & p' & new & Hr' & Hc' & Hn' & Ha' & Hcl').
    { congruence. }
    exists h', p', (new1 ++ new).
    cbn [run_pin_ops refCounts]. rewrite Hr. cbn [go_bind].
    split; [exact Hr'|]. split; [congruence|].
    split; [rewrite Hn', Hn, app_assoc; reflexivity|].
    rewrite !count_calls_app, Ha, Hcl, Ha', Hcl'. split; [|reflexivity].
    destruct rest as [|o2 rest2]; cbn [refCounts transitions]; reflexivity.
Qed.

Lemma cleanupReferences_calls h p c :
  connection_ h = Some c ->
  cleanupReferences h p =
    Ret (mkHandle None (refCount h) None false (oidcTokenGenID h),
         mkPool (checkIn_answer p) (stale_answer p)
           (calls p ++ release_calls h c),
         checkIn_answer p).
Proof.
  intros E. unfold cleanupReferences, release_calls. rewrite E.
  destruct p as [ci st cs]. unfold invoke.
  cbn [checkIn_answer stale_answer calls].
  destruct (cleanupPoolFn h), (cleanupServerFn h);
    cbn [checkIn_answer stale_answer calls];
    rewrite <- ?app_assoc; reflexivity.
Qed.

(** C3, as stated, fails: a pin followed by the unpin that returns the
    count to zero invokes the accounting callback once and the cleanup
    callback not at all. *)
Lemma pin_then_unpin_no_cleanup :
  (exists h' p',
      run_pin_ops [op_PinToCursor; op_UnpinFromCursor] live_handle example_pool
      = Ret (h', p')
      /\ refCounts [op_PinToCursor; op_UnpinFromCursor] live_handle example_pool
         = [0; 1; 0]
      /\ calls p' = [call_poolFn pinConnectionToCursor]
      /\ cleanupPoolFn h' = Some unpinConnectionFromCursor)
  /\ ~ pin_callbacks_claim.
Proof.
  split.
  - do 2 eexists. vm_compute. repeat split.
  - intros H.
    destruct (H [op_PinToCursor; op_UnpinFromCursor] live_handle example_pool)
      as (h' & p' & new & Hr & Hn & _ & Hc).
    { discriminate. }
    vm_compute in Hr. inversion Hr; subst. cbn in Hn.
    subst new. vm_compute in Hc. discriminate.
Qed.

(** C3, amended: over every sequence of pin and unpin calls on a live
    handle the accounting callback is invoked exactly once per step of
    the reference count from 0 to 1, whatever the reasons, and no call of
    the sequence invokes a cleanup callback; the cleanup callback the
    handle holds is invoked once, and dropped, when the handle is
    released, by [Close] once the count is not positive or by
    [Expire]; [Close] on a pinned handle invokes nothing. *)
Theorem pin_accounting_once_per_first_pin :
  (forall ops h p,
      connection_ h <> None ->
      exists h' p' new,
        run_pin_ops ops h p = Ret (h', p')
        /\ connection_ h' = connection_ h
        /\ calls p' = calls p ++ new
        /\ count_calls is_accounting new = transitions 0 1 (refCounts ops h p)
        /\ count_calls is_cleanup new = 0%nat)
  /\
  (forall h p c f,
      connection_ h = Some c ->
      cleanupPoolFn h = Some f ->
      (refCount h <= 0 ->
       exists h' p' err,
         Close h p = Ret (h', p', err)
         /\ connection_ h' = None /\ cleanupPoolFn h' = None
         /\ calls p' = calls p ++ release_calls h c
         /\ count_calls (fun k => is_accounting k || is_cleanup k)
              (release_calls h c) = 1%nat)
      /\ (0 < refCount h -> Close h p = Ret (h, p, None))
      /\ (exists h' p' err,
             Expire h p = Ret (h', p', err)
             /\ connection_ h' = None /\ cleanupPoolFn h' = None
             /\ calls p' = calls p ++ release_calls h (fst (close c))
             /\ count_calls (fun k => is_accounting k || is_cleanup k)
                  (release_calls h (fst (close c))) = 1%nat)).
Proof.
  split; [exact run_pin_ops_calls|].
  intros h p c f E F.
  assert (Hone : forall c0,
             count_calls (fun k => is_accounting k || is_cleanup k)
               (release_calls h c0) = 1%nat).
  { intros c0. unfold release_calls. rewrite F.
    destruct f, (cleanupServerFn h); reflexivity. }
  split; [|split].
  - intros Hz. unfold Close. rewrite E.
    destruct (refCount h >? 0) eqn:G; [apply Z.gtb_gt in G; lia|].
    rewrite (cleanupReferences_calls h p c E).
    do 3 eexists. split; [reflexivity|]. repeat split. apply Hone.
  - intros Hz. unfold Close. rewrite E.
    destruct (refCount h >? 0) eqn:G; [reflexivity|].
    pose proof (Zgt_cases (refCount h) 0) as K. rewrite G in K. lia.
  - unfold Expire. rewrite E.
    rewrite (cleanupReferences_calls _ p (fst (close c))) by reflexivity.
    do 3 eexists. split; [reflexivity|]. repeat split. apply Hone.
Qed.

Lemma pin_accounting_once_per_first_pin_witness :
  (exists h' p' new,
      run_pin_ops
        [op_PinToCursor; op_PinToTransaction; op_UnpinFromCursor;
         op_UnpinFromTransaction; op_PinToTransaction]
        live_handle example_pool = Ret (h', p')
      /\ connection_ h' = connection_ live_handle
      /\ calls p' = calls example_pool ++ new
      /\ count_calls is_accounting new = 2%nat
      /\ count_calls is_cleanup new = 0%nat)
  /\ (exists h' p' err,
         Close (mkHandle (Some (example_connection [] io_timeout)) 0
                  (Some unpinConnectionFromCursor) true 0) example_pool
         = Ret (h', p', err)
         /\ connection_ h' = None /\ cleanupPoolFn h' = None
         /\ calls p' = [call_checkIn (example_connection [] io_timeout);
                        call_poolFn unpinConnectionFromCursor;
                        call_cleanupServerFn]).
Proof.
  destruct pin_accounting_once_per_first_pin as (H1 & H2).
  split.
  - apply (H1 [op_PinToCursor; op_PinToTransaction; op_UnpinFromCursor;
               op_UnpinFromTransaction; op_PinToTransaction]
             live_handle example_pool).
    discriminate.
  - destruct (H2 (mkHandle (Some (example_connection [] io_timeout)) 0
                    (Some unpinConnectionFromCursor) true 0)
                example_pool (example_connection [] io_timeout)
                unpinConnectionFromCursor eq_refl eq_refl)
      as (Hc & _ & _).
    destruct (Hc ltac:(cbn; lia)) as (h' & p' & err & R & A & B & C & _).
    exists h', p', err. repeat split; assumption.
Defined.

(** C4 at a released handle: [Write], [Read], [CompressWireMessage],
    [Description], [Close], [Expire] and the unpin calls are no-ops or
    report the closed connection, while [Stale], [DriverConnectionID],
    [PinToCursor] and [PinToTransaction] dereference the nil connection
    and panic. *)
Theorem released_handle_operations :
  Close live_handle example_pool = Ret (released_handle, checked_in_pool, None)
  /\ Write quiet_context five_bytes released_handle
     = Ret (released_handle, Some ErrConnectionClosed)
  /\ Read quiet_context released_handle
     = Ret (released_handle, None, Some ErrConnectionClosed)
  /\ CompressWireMessage identity_codec five_bytes [] released_handle
     = (Some [], Some ErrConnectionClosed)
  /\ Description_ released_handle = empty_Server
  /\ Close released_handle checked_in_pool
     = Ret (released_handle, checked_in_pool, None)
  /\ Expire released_handle checked_in_pool
     = Ret (released_handle, checked_in_pool, None)
  /\ UnpinFromCursor released_handle checked_in_pool
     = Ret (released_handle, checked_in_pool, None)
  /\ UnpinFromTransaction released_handle checked_in_pool
     = Ret (released_handle, checked_in_pool, None)
  /\ Stale released_handle checked_in_pool = Panic
  /\ DriverConnectionID released_handle = Panic
  /\ PinToCursor released_handle checked_in_pool = Panic
  /\ PinToTransaction released_handle checked_in_pool = Panic.
Proof. repeat split. Qed.

(** The same for every released handle. *)
Lemma released_handle_faults h p :
  connection_ h = None ->
  Stale h p = Panic /\ DriverConnectionID h = Panic
  /\ PinToCursor h p = Panic /\ PinToTransaction h p = Panic.
Proof.
  intros E. unfold Stale, DriverConnectionID, PinToCursor, PinToTransaction.
  rewrite E. repeat split.
Qed.

(** ** Compression *)

(** C10: on a live handle whose compressor is not the no-op one, a
    source shorter than sixteen bytes makes [CompressWireMessage] return
    an error with the destination as it was, no envelope appended; with
    the no-op compressor the source is appended to the destination
    unchanged, whatever its length. *)
Theorem compress_short_or_noop :
  forall CompressPayload src dst h c,
    connection_ h = Some c ->
    (compressor c <> CompressorNoOp ->
     (List.length src < 16)%nat ->
     CompressWireMessage CompressPayload src dst h =
       (Some dst,
        Some (errors_New
                "wiremessage is too short to compress, less than 16 bytes")))
    /\
    (compressor c = CompressorNoOp ->
     CompressWireMessage CompressPayload src dst h = (Some (dst ++ src), None)).
Proof.
  intros CP src dst h c E. unfold CompressWireMessage. rewrite E. split.
  - intros Hk Hlen.
    destruct (compressor c); [congruence| | |]; cbn [CompressorID_eqb];
      unfold ReadHeader; apply Nat.ltb_lt in Hlen; rewrite Hlen; reflexivity.
  - intros ->. reflexivity.
Qed.

Lemma compress_short_or_noop_witness :
  CompressWireMessage identity_codec five_bytes prefix_100
    (mkHandle (Some zlib_connection) 0 None false 0)
  = (Some prefix_100,
     Some (errors_New
             "wiremessage is too short to compress, less than 16 bytes"))
  /\ CompressWireMessage identity_codec five_bytes prefix_100 live_handle
     = (Some (prefix_100 ++ five_bytes), None).
Proof.
  split.
  - apply (compress_short_or_noop identity_codec five_bytes prefix_100
             (mkHandle (Some zlib_connection) 0 None false 0) zlib_connection
             eq_refl).
    + discriminate.
    + cbn. lia.
  - apply (compress_short_or_noop identity_codec five_bytes prefix_100
             live_handle (example_connection [] io_timeout) eq_refl).
    reflexivity.
Defined.

(** ** close, and what wire traffic may change *)

(** X1: [close] does nothing to a connection that is not connected; on a
    connected one it stores the disconnected state, closes the socket
    once when there is one and returns what the socket's close
    returned; a second [close] changes nothing and returns no error. *)
Theorem close_once :
  forall c,
    close (fst (close c)) = (fst (close c), None)
    /\ (state c <> connConnected -> close c = (c, None))
    /\ (forall s, state c = connConnected -> nc c = Some s ->
        close c = (set_nc (set_state c connDisconnected)
                     (Some (fst (netConn_Close s))), closeResult s)).
Proof.
  intros c. unfold close.
  destruct c as [st i [s|] a d k zl zs cf cs cst sid did g m]; destruct st;
    cbn; repeat split; try congruence; intros; try congruence.
Qed.

Lemma state_step_refl a : state_step a a.
Proof. left. reflexivity. Qed.

Lemma state_step_trans a b c : state_step a b -> state_step b c -> state_step a c.
Proof. unfold state_step. intuition congruence. Qed.

Lemma io_step_refl c : io_step c c.
Proof. constructor; auto using state_step_refl. Qed.

Lemma io_step_trans a b c : io_step a b -> io_step b c -> io_step a c.
Proof.
  intros [s1 i1 m1 t1] [s2 i2 m2 t2]. constructor.
  - eapply state_step_trans; eassumption.
  - intros H. destruct (i1 H) as [N1 M1].
    assert (state b <> connConnected).
    { destruct s1 as [E|[E _]]; congruence. }
    destruct (i2 H0) as [N2 M2]. split; congruence.
  - auto.
  - congruence.
Qed.

Lemma close_io_step c : io_step c (fst (close c)).
Proof.
  unfold close.
  destruct c as [st i [s|] a d k zl zs cf cs cst sid did g m]; destruct st;
    cbn; constructor; cbn; unfold state_step; auto; try congruence.
Qed.

Lemma set_nc_io_step c s :
  state c = connConnected -> io_step c (set_nc c s).
Proof.
  intros H. constructor; cbn; auto using state_step_refl. congruence.
Qed.

Lemma StopListening_io_step ctx c :
  io_step c (fst (StopListening ctx cancellationListenerCallback c)).
Proof.
  unfold StopListening, cancellationListenerCallback.
  destruct (canceledWhileListening ctx); cbn [fst];
    [apply close_io_step | apply io_step_refl].
Qed.

Lemma write_io_step ctx wm c c' err :
  state c = connConnected ->
  write ctx wm c = Ret (c', err) -> io_step c c'.
Proof.
  intros Hst. unfold write.
  destruct (nc c) as [s|]; [|discriminate].
  destruct (netConn_Write s wm) as [s' e].
  pose proof (StopListening_io_step ctx (set_nc c (Some s'))) as K.
  destruct (StopListening ctx cancellationListenerCallback (set_nc c (Some s')))
    as [c1 aborted]. cbn [fst] in K.
  intros H. inversion H; subst.
  eapply io_step_trans; [apply set_nc_io_step; exact Hst | exact K].
Qed.

Lemma set_marker_io_step c r :
  state c = connConnected -> io_step c (set_awaitRemainingBytes c (Some r)).
Proof.
  intros H. constructor; cbn; auto using state_step_refl; congruence.
Qed.

Lemma read_body_io_step c c' b m err :
  state c = connConnected ->
  read_body c = Ret (c', b, m, err) -> io_step c c'.
Proof.
  intros Hst. unfold read_body.
  destruct (nc c) as [s|]; [|discriminate].
  destruct (io_ReadFull s 4) as [[[s1 bs] n] [e|]].
  - destruct ((int32 n =? 0) && isCSOTTimeout e); intros H; inversion H; subst.
    + eapply io_step_trans; [apply set_nc_io_step; exact Hst|].
      apply set_marker_io_step. exact Hst.
    + apply set_nc_io_step; exact Hst.
  - cbv zeta.
    destruct (parseWmSizeBytes (set_nc c (Some s1)) (fill 4 bs)) as [size|e].
    + destruct (io_ReadFull s1 (Z.to_nat size - 4)) as [[[s2 body] n2] [e|]].
      * destruct ((int32 (int32 (size - 4) - int32 n2) >? 0) && isCSOTTimeout e);
          intros H; inversion H; subst.
        -- eapply io_step_trans; [apply set_nc_io_step; exact Hst|].
           eapply io_step_trans; [apply set_nc_io_step; exact Hst|].
           apply set_marker_io_step. exact Hst.
        -- eapply io_step_trans; [apply set_nc_io_step; exact Hst|].
           apply set_nc_io_step; exact Hst.
      * intros H; inversion H; subst.
        eapply io_step_trans; [apply set_nc_io_step; exact Hst|].
        apply set_nc_io_step; exact Hst.
    + intros H; inversion H; subst. apply set_nc_io_step; exact Hst.
Qed.

Lemma read_io_step ctx c c' b m err :
  state c = connConnected ->
  read ctx c = Ret (c', b, m, err) -> io_step c c'.
Proof.
  intros Hst. unfold read.
  destruct (read_body c) as [[[[c1 b1] m1] e1]|] eqn:E; [|discriminate].
  cbn [go_bind].
  pose proof (read_body_io_step _ _ _ _ _ Hst E) as K1.
  pose proof (StopListening_io_step ctx c1) as K2.
  destruct (StopListening ctx cancellationListenerCallback c1) as [c2 aborted].
  cbn [fst] in K2.
  destruct e1; [|destruct aborted]; intros H; inversion H; subst;
    eapply io_step_trans; eassumption.
Qed.

Lemma writeWireMessage_io_step ctx wm c c' err :
  writeWireMessage ctx wm c = Ret (c', err) -> io_step c c'.
Proof.
  unfold writeWireMessage.
  destruct (connState_eqb (state c) connConnected) eqn:Est; cbn [negb].
  2:{ intros H; inversion H; subst. apply io_step_refl. }
  assert (Hst : state c = connConnected) by (destruct (state c); auto; discriminate).
  destruct (ctx_Deadline ctx) as [deadline used].
  destruct (nc c) as [s|]; [|discriminate].
  destruct (SetWriteDeadline s deadline) as [s' [e|]].
  { intros H; inversion H; subst. apply io_step_refl. }
  destruct (write ctx wm (set_nc c (Some s'))) as [[c1 e1]|] eqn:E; [|discriminate].
  cbn [go_bind].
  pose proof (write_io_step _ _ (set_nc c (Some s')) _ _ Hst E) as K.
  destruct e1; intros H; inversion H; subst.
  - eapply io_step_trans; [apply set_nc_io_step; exact Hst|].
    eapply io_step_trans; [exact K | apply close_io_step].
  - eapply io_step_trans; [apply set_nc_io_step; exact Hst | exact K].
Qed.

Lemma readWireMessage_io_step ctx c c' dst err :
  readWireMessage ctx c = Ret (c', dst, err) -> io_step c c'.
Proof.
  unfold readWireMessage.
  destruct (connState_eqb (state c) connConnected) eqn:Est; cbn [negb].
  2:{ intros H; inversion H; subst. apply io_step_refl. }
  assert (Hst : state c = connConnected) by (destruct (state c); auto; discriminate).
  destruct (ctx_Deadline ctx) as [deadline used].
  destruct (nc c) as [s|]; [|discriminate].
  destruct (SetReadDeadline s deadline) as [s' [e|]].
  { intros H; inversion H; subst. apply io_step_refl. }
  destruct (read ctx (set_nc c (Some s'))) as [[[[c1 b1] m1] e1]|] eqn:E;
    [|discriminate].
  cbn [go_bind].
  pose proof (read_io_step _ (set_nc c (Some s')) _ _ _ _ Hst E) as K.
  destruct e1; intros H; inversion H; subst.
  - eapply io_step_trans; [apply set_nc_io_step; exact Hst|].
    eapply io_step_trans; [exact K|].
    destruct (awaitRemainingBytes c1); [apply io_step_refl | apply close_io_step].
  - eapply io_step_trans; [apply set_nc_io_step; exact Hst | exact K].
Qed.

Lemma run_initOps_io_step ops : forall c c',
  run_initOps ops c = Ret c' ->
  state_step (state c) (state c')
  /\ (state c <> connConnected -> nc c' = nc c)
  /\ (awaitRemainingBytes c <> None -> awaitRemainingBytes c' <> None)
  /\ static c' = static c.
Proof.
  induction ops as [|op ops IH]; intros c c' H.
  - inversion H; subst. auto using state_step_refl.
  - cbn [run_initOps] in H.
    destruct (run_initOp op c) as [c1|] eqn:E; [|discriminate].
    cbn [go_bind] in H. destruct (IH _ _ H) as (S2 & N2 & M2 & T2).
    assert (state_step (state c) (state c1)
            /\ (state c <> connConnected -> nc c1 = nc c)
            /\ (awaitRemainingBytes c <> None -> awaitRemainingBytes c1 <> None)
            /\ static c1 = static c)
      as (S1 & N1 & M1 & T1).
    { destruct op as [ctx wm|ctx|b]; cbn [run_initOp] in E.
      - destruct (writeWireMessage ctx wm c) as [[c2 e]|] eqn:W; [|discriminate].
        inversion E; subst.
        destruct (writeWireMessage_io_step _ _ _ _ _ W) as [s i m t].
        split; [exact s|]. split; [apply i|]. split; [exact m | exact t].
      - destruct (readWireMessage ctx c) as [[[c2 d] e]|] eqn:R; [|discriminate].
        inversion E; subst.
        destruct (readWireMessage_io_step _ _ _ _ _ R) as [s i m t].
        split; [exact s|]. split; [apply i|]. split; [exact m | exact t].
      - inversion E; subst. cbn. auto using state_step_refl. }
    split; [eapply state_step_trans; eassumption|]. split; [|split].
    + intros Hn. rewrite N2, N1; auto.
      destruct S1 as [E1|[E1 _]]; congruence.
    + auto.
    + congruence.
Qed.

Lemma run_initOps_idle ops : forall c,
  state c <> connConnected ->
  exists c', run_initOps ops c = Ret c'
             /\ state c' = state c /\ nc c' = nc c
             /\ awaitRemainingBytes c' = awaitRemainingBytes c.
Proof.
  induction ops as [|op ops IH]; intros c Hst.
  - cbn. eauto.
  - cbn [run_initOps].
    assert (Eb : negb (connState_eqb (state c) connConnected) = true).
    { destruct (state c) eqn:Es; try reflexivity. congruence. }
    destruct op as [ctx wm|ctx|b]; cbn [run_initOp].
    + unfold writeWireMessage. rewrite Eb. cbn [go_bind]. apply IH, Hst.
    + unfold readWireMessage. rewrite Eb. cbn [go_bind]. apply IH, Hst.
    + cbn [go_bind]. destruct (IH (setStreaming c b) Hst) as (c' & R & A & B & C).
      exists c'. auto.
Qed.

(** X2: the writes, reads and streaming switches a handshaker issues
    through [initConnection] always return; over them the state stays
    as it is or goes from connected to disconnected, never back; and
    on a connection that is not connected they leave the socket and the
    marker of awaited bytes untouched. *)
Theorem adapter_state_forward_only :
  forall ops c,
    state c <> connConnected \/ has_socket c ->
    exists c',
      run_initOps ops c = Ret c'
      /\ (state c' = state c
          \/ (state c = connConnected /\ state c' = connDisconnected))
      /\ (state c <> connConnected ->
          nc c' = nc c /\ awaitRemainingBytes c' = awaitRemainingBytes c).
Proof.
  intros ops c H.
  assert (exists c', run_initOps ops c = Ret c') as (c' & R).
  { destruct (connState_eqb (state c) connConnected) eqn:E.
    - destruct H as [H|H].
      + destruct (state c) eqn:Es; try discriminate. congruence.
      + destruct (run_initOps_keeps ops c H) as (c' & R & _). eauto.
    - destruct (run_initOps_idle ops c) as (c' & R & _); [|eauto].
      intros K. rewrite K in E. discriminate. }
  exists c'. split; [exact R|].
  destruct (run_initOps_io_step ops c c' R) as (S1 & N1 & M1 & _).
  split; [exact S1|].
  intros Hn. split; [auto|].
  destruct (run_initOps_idle ops c Hn) as (c2 & R2 & _ & _ & A2).
  congruence.
Qed.

Lemma adapter_state_forward_only_witness :
  exists c',
    run_initOps [init_Write quiet_context five_bytes; init_Read quiet_context]
      (example_connection five_bytes io_timeout) = Ret c'
    /\ (state c' = connConnected \/ state c' = connDisconnected).
Proof.
  destruct (adapter_state_forward_only
              [init_Write quiet_context five_bytes; init_Read quiet_context]
              (example_connection five_bytes io_timeout))
    as (c' & R & [S|[_ S]] & _).
  - right. unfold has_socket. cbn. discriminate.
  - exists c'. split; [exact R | left; exact S].
  - exists c'. split; [exact R | right; exact S].
Defined.

Lemma read_quiet ctx c c' b m err :
  canceledWhileListening ctx = false ->
  read ctx c = Ret (c', b, m, err) ->
  state c' = state c
  /\ match nc c, nc c' with
     | Some s, Some s' => closeCalls s' = closeCalls s
                          /\ outgoing s' = outgoing s
     | _, _ => False
     end.
Proof.
  intros Hq. unfold read, read_body.
  destruct (nc c) as [s|] eqn:En; [|discriminate].
  unfold io_ReadFull.
  destruct (4 <=? List.length (incoming s))%nat.
  - cbv zeta.
    destruct (parseWmSizeBytes _ _) as [size|e].
    + destruct (Z.to_nat size - 4 <=? List.length (incoming (with_incoming s _)))%nat;
        cbn [go_bind]; rewrite StopListening_quiet by exact Hq;
        try destruct (_ && _); intros H; inversion H; subst; cbn; auto.
    + cbn [go_bind]. rewrite StopListening_quiet by exact Hq.
      intros H; inversion H; subst; cbn; auto.
  - cbv zeta. destruct (_ && _); cbn [go_bind];
      rewrite StopListening_quiet by exact Hq;
      intros H; inversion H; subst; cbn; auto.
Qed.

(** X3: no write or read clears the marker of awaited bytes once it is
    set; and while it is set, [readWireMessage] with a quiet listener
    never closes the connection, whatever the read returns: the state
    stays connected and the socket's close count is unchanged. *)
Theorem marker_is_never_cleared :
  (forall ops c,
      has_socket c ->
      awaitRemainingBytes c <> None ->
      exists c', run_initOps ops c = Ret c' /\ awaitRemainingBytes c' <> None)
  /\
  (forall ctx c s,
      state c = connConnected ->
      nc c = Some s ->
      awaitRemainingBytes c <> None ->
      canceledWhileListening ctx = false ->
      exists c' s' dst err,
        readWireMessage ctx c = Ret (c', dst, err)
        /\ state c' = connConnected
        /\ nc c' = Some s'
        /\ closeCalls s' = closeCalls s
        /\ awaitRemainingBytes c' <> None).
Proof.
  split.
  - intros ops c H M.
    destruct (run_initOps_keeps ops c H) as (c' & R & _).
    exists c'. split; [exact R|].
    apply (run_initOps_io_step ops c c' R). exact M.
  - intros ctx c s Hst Hnc M Hq.
    destruct (readWireMessage_keeps ctx c) as (c' & dst & err & R & _ & K).
    { unfold has_socket. congruence. }
    pose proof (readWireMessage_io_step _ _ _ _ _ R) as [_ _ Mk _].
    specialize (Mk M).
    unfold has_socket in K. destruct (nc c') as [s'|] eqn:En; [|congruence].
    exists c', s', dst, err. split; [exact R|].
    revert R. unfold readWireMessage. rewrite Hst, Hnc. cbn [connState_eqb negb].
    destruct (ctx_Deadline ctx) as [deadline used].
    unfold SetReadDeadline.
    destruct (deadlineResult s) eqn:Ed.
    { intros R; inversion R; subst. rewrite Hnc in En. inversion En; subst. auto. }
    set (s1 := mkNetConn _ _ _ _ _ _ _ _ _ _).
    destruct (read ctx (set_nc c (Some s1))) as [[[[c1 b1] m1] e1]|] eqn:E;
      [|discriminate].
    cbn [go_bind].
    destruct (read_quiet _ _ _ _ _ _ Hq E) as (S1 & C1).
    pose proof (read_io_step _ (set_nc c (Some s1)) _ _ _ _ Hst E) as [_ _ Mk1 _].
    cbn [nc set_nc state] in *.
    destruct (nc c1) as [sc1|] eqn:En1; [|contradiction].
    destruct C1 as [C1 _]. cbn in C1.
    destruct e1.
    + destruct (awaitRemainingBytes c1) eqn:Em.
      * intros R; inversion R; subst. rewrite En1 in En. inversion En; subst.
        repeat split; auto; congruence.
      * exfalso. apply Mk1; auto.
    + intros R; inversion R; subst. rewrite En1 in En. inversion En; subst.
      repeat split; auto; congruence.
Qed.

(** ** Writes *)

Lemma transform_some ctx e used :
  transformNetworkError ctx (Some e) used <> None.
Proof.
  unfold transformNetworkError.
  destruct (ctx_Err ctx) as [ce|].
  - destruct (errors_Is_Canceled ce); [discriminate|].
    destruct (negb used); [discriminate|]. destruct (direct_Timeout e); discriminate.
  - destruct (negb used); [discriminate|]. destruct (direct_Timeout e); discriminate.
Qed.

(** X4: on a connected connection whose socket accepts the deadline,
    [writeWireMessage] sets the context's deadline on the socket and
    then either returns no error, exactly when the socket wrote and the
    listener did not abort, with the message appended to what the
    socket has sent and the connection still connected; or returns a
    [ConnectionError] with this connection's id and the message
    [unable to write wire message to network], the state disconnected
    and the socket closed exactly once. *)
Theorem write_succeeds_or_closes :
  forall ctx wm c s,
    state c = connConnected ->
    nc c = Some s ->
    deadlineResult s = None ->
    exists c' s' err,
      writeWireMessage ctx wm c = Ret (c', err)
      /\ nc c' = Some s'
      /\ writeDeadline s' = Deadline ctx
      /\ (err = None ->
          writeResult s = None
          /\ canceledWhileListening ctx = false
          /\ state c' = connConnected
          /\ outgoing s' = outgoing s ++ wm
          /\ closeCalls s' = closeCalls s)
      /\ (err <> None ->
          (writeResult s <> None \/ canceledWhileListening ctx = true)
          /\ state c' = connDisconnected
          /\ closeCalls s' = S (closeCalls s)
          /\ exists cause,
              err = Some (ConnectionError (id c) (Some cause) false
                            "unable to write wire message to network")).
Proof.
  intros ctx wm c s Hst Hnc Hd.
  unfold writeWireMessage. rewrite Hst, Hnc. cbn [connState_eqb negb].
  assert (Hdl : fst (ctx_Deadline ctx) = Deadline ctx).
  { unfold ctx_Deadline. destruct (Deadline ctx); reflexivity. }
  destruct (ctx_Deadline ctx) as [deadline used]. cbn [fst] in Hdl. subst deadline.
  unfold SetWriteDeadline. rewrite Hd.
  unfold write. cbn [nc set_nc]. unfold netConn_Write.
  cbn [writeResult incoming readFailure deadlineResult closeResult outgoing
       readDeadline writeDeadline closeCalls transport].
  unfold StopListening, cancellationListenerCallback, close.
  cbn [state set_nc]. rewrite Hst. cbn [connState_eqb].
  destruct (writeResult s) as [e|] eqn:Ew;
    destruct (canceledWhileListening ctx) eqn:Ec;
    cbn [go_bind fst snd nc set_nc set_state netConn_Close state connState_eqb
         writeResult incoming readFailure deadlineResult closeResult outgoing
         readDeadline writeDeadline closeCalls transport id].
  - destruct (transformNetworkError ctx (Some e) used) as [w|] eqn:T;
      [|exfalso; eapply transform_some; exact T].
    do 3 eexists. split; [reflexivity|]. cbn.
    repeat split; try discriminate; auto; try congruence; try (eexists; reflexivity); try (left; discriminate).
  - rewrite Hst. cbn [connState_eqb].
    destruct (transformNetworkError ctx (Some e) used) as [w|] eqn:T;
      [|exfalso; eapply transform_some; exact T].
    do 3 eexists. split; [reflexivity|]. cbn.
    repeat split; try discriminate; auto; try congruence; try (eexists; reflexivity); try (left; discriminate).
  - destruct (transformNetworkError ctx (Some context_Canceled) used) as [w|] eqn:T;
      [|exfalso; eapply transform_some; exact T].
    do 3 eexists. split; [reflexivity|]. cbn.
    repeat split; try discriminate; auto; try congruence; try (eexists; reflexivity); try (left; discriminate).
  - do 3 eexists. split; [reflexivity|]. cbn.
    repeat split; auto; congruence.
Qed.

Lemma write_succeeds_or_closes_witness :
  exists c' s',
    writeWireMessage quiet_context five_bytes
      (example_connection [] io_timeout) = Ret (c', None)
    /\ nc c' = Some s'
    /\ state c' = connConnected
    /\ outgoing s' = five_bytes.
Proof.
  destruct (write_succeeds_or_closes quiet_context five_bytes
              (example_connection [] io_timeout)
              (example_socket [] io_timeout) eq_refl eq_refl eq_refl)
    as (c' & s' & [e|] & R & N & _ & Hn & He).
  - destruct (He ltac:(discriminate)) as ([W|W] & _); discriminate.
  - destruct (Hn eq_refl) as (_ & _ & St & O & _).
    exists c', s'. repeat split; assumption.
Defined.

(** ** Complete and incomplete messages *)

Lemma fill_exact k (bs : list Byte.byte) :
  List.length bs = k -> fill k bs = bs.
Proof.
  intros <-. unfold fill. rewrite firstn_app, firstn_all, Nat.sub_diag.
  cbn. apply app_nil_r.
Qed.

Lemma ctx_Deadline_fst ctx : fst (ctx_Deadline ctx) = Deadline ctx.
Proof. unfold ctx_Deadline. destruct (Deadline ctx); reflexivity. Qed.

Lemma readWireMessage_message ctx c s b0 b1 b2 b3 body rest :
  state c = connConnected ->
  nc c = Some s ->
  deadlineResult s = None ->
  canceledWhileListening ctx = false ->
  incoming s = b0 :: b1 :: b2 :: b3 :: body ++ rest ->
  4 <= int32 (LittleEndian_Uint32 [b0; b1; b2; b3]) <= effectiveMax c ->
  List.length body
  = (Z.to_nat (int32 (LittleEndian_Uint32 [b0; b1; b2; b3])) - 4)%nat ->
  readWireMessage ctx c =
    Ret (set_nc c (Some (after_read s (Deadline ctx) rest)),
         Some (b0 :: b1 :: b2 :: b3 :: body), None).
Proof.
  intros Hst Hnc Hd Hq Hin Hsize Hlen.
  unfold readWireMessage. rewrite Hst, Hnc. cbn [connState_eqb negb].
  pose proof (ctx_Deadline_fst ctx) as Hdl.
  destruct (ctx_Deadline ctx) as [deadline used]. cbn [fst] in Hdl. subst deadline.
  unfold SetReadDeadline. rewrite Hd.
  unfold read, read_body. cbn [nc set_nc].
  rewrite (io_ReadFull_prefix _ b0 b1 b2 b3 (body ++ rest)) by exact Hin.
  cbv zeta. cbn [fill firstn app repeat].
  rewrite (parse_desc _ c) by reflexivity.
  rewrite (parse_accepts c) by exact Hsize.
  unfold io_ReadFull. cbn [incoming with_incoming].
  rewrite <- Hlen.
  replace (List.length body <=? List.length (body ++ rest))%nat with true.
  2:{ symmetry. apply Nat.leb_le. rewrite length_app. lia. }
  rewrite firstn_app, firstn_all, Nat.sub_diag, skipn_app, skipn_all, Nat.sub_diag.
  cbn [firstn skipn app]. rewrite app_nil_r.
  rewrite fill_exact by reflexivity.
  cbn [go_bind]. rewrite StopListening_quiet by exact Hq.
  cbn [go_bind]. unfold after_read. rewrite Hd. reflexivity.
Qed.

(** X5: when the socket holds a size prefix within the bounds followed
    by at least the bytes it announces, [readWireMessage] with a quiet
    listener returns exactly the prefix and those bytes, with no
    error; the bytes after the message stay on the socket, the read
    deadline is the context's, nothing is closed and the marker of
    awaited bytes is as before. *)
Theorem readWireMessage_returns_one_message :
  forall ctx c s b0 b1 b2 b3 body rest,
    state c = connConnected ->
    nc c = Some s ->
    deadlineResult s = None ->
    canceledWhileListening ctx = false ->
    incoming s = b0 :: b1 :: b2 :: b3 :: body ++ rest ->
    4 <= int32 (LittleEndian_Uint32 [b0; b1; b2; b3]) <= effectiveMax c ->
    List.length body
    = (Z.to_nat (int32 (LittleEndian_Uint32 [b0; b1; b2; b3])) - 4)%nat ->
    exists c' s',
      readWireMessage ctx c
      = Ret (c', Some (b0 :: b1 :: b2 :: b3 :: body), None)
      /\ state c' = connConnected
      /\ nc c' = Some s'
      /\ incoming s' = rest
      /\ readDeadline s' = Deadline ctx
      /\ closeCalls s' = closeCalls s
      /\ awaitRemainingBytes c' = awaitRemainingBytes c.
Proof.
  intros ctx c s b0 b1 b2 b3 body rest Hst Hnc Hd Hq Hin Hsize Hlen.
  do 2 eexists. split.
  - apply (readWireMessage_message ctx c s b0 b1 b2 b3 body rest); assumption.
  - cbn. repeat split; auto.
Qed.

Lemma readWireMessage_returns_one_message_witness :
  exists c' s',
    readWireMessage quiet_context
      (example_connection (five_bytes ++ prefix_100) io_timeout)
    = Ret (c', Some five_bytes, None)
    /\ state c' = connConnected
    /\ nc c' = Some s'
    /\ incoming s' = prefix_100.
Proof.
  destruct (readWireMessage_returns_one_message quiet_context
              (example_connection (five_bytes ++ prefix_100) io_timeout)
              (example_socket (five_bytes ++ prefix_100) io_timeout)
              Byte.x05 Byte.x00 Byte.x00 Byte.x00 [Byte.x2a] prefix_100
              eq_refl eq_refl eq_refl eq_refl eq_refl)
    as (c' & s' & R & St & N & I & _).
  - vm_compute. split; discriminate.
  - reflexivity.
  - exists c', s'. repeat split; assumption.
Defined.

(** X6: two complete messages waiting on the socket are returned by two
    calls of [readWireMessage], the first message by the first call
    and the second by the second, each whole and with no error, and
    what follows them is still on the socket. *)
Theorem readWireMessage_twice :
  forall ctx1 ctx2 c s a0 a1 a2 a3 body1 b0 b1 b2 b3 body2 rest,
    state c = connConnected ->
    nc c = Some s ->
    deadlineResult s = None ->
    canceledWhileListening ctx1 = false ->
    canceledWhileListening ctx2 = false ->
    incoming s = (a0 :: a1 :: a2 :: a3 :: body1)
                 ++ (b0 :: b1 :: b2 :: b3 :: body2) ++ rest ->
    4 <= int32 (LittleEndian_Uint32 [a0; a1; a2; a3]) <= effectiveMax c ->
    List.length body1
    = (Z.to_nat (int32 (LittleEndian_Uint32 [a0; a1; a2; a3])) - 4)%nat ->
    4 <= int32 (LittleEndian_Uint32 [b0; b1; b2; b3]) <= effectiveMax c ->
    List.length body2
    = (Z.to_nat (int32 (LittleEndian_Uint32 [b0; b1; b2; b3])) - 4)%nat ->
    exists c1 c2 s2,
      readWireMessage ctx1 c
      = Ret (c1, Some (a0 :: a1 :: a2 :: a3 :: body1), None)
      /\ readWireMessage ctx2 c1
         = Ret (c2, Some (b0 :: b1 :: b2 :: b3 :: body2), None)
      /\ nc c2 = Some s2
      /\ incoming s2 = rest.
Proof.
  intros ctx1 ctx2 c s a0 a1 a2 a3 body1 b0 b1 b2 b3 body2 rest
         Hst Hnc Hd Hq1 Hq2 Hin Hs1 Hl1 Hs2 Hl2.
  do 3 eexists. split; [|split].
  - apply (readWireMessage_message ctx1 c s a0 a1 a2 a3 body1
             ((b0 :: b1 :: b2 :: b3 :: body2) ++ rest)); assumption.
  - apply (readWireMessage_message ctx2 _
             (after_read s (Deadline ctx1)
                ((b0 :: b1 :: b2 :: b3 :: body2) ++ rest))
             b0 b1 b2 b3 body2 rest);
      try assumption; try reflexivity.
  - cbn. repeat split; auto.
Qed.

Lemma readWireMessage_twice_witness :
  exists c1 c2 s2,
    readWireMessage quiet_context (example_connection two_messages io_timeout)
    = Ret (c1, Some five_bytes, None)
    /\ readWireMessage quiet_context c1 = Ret (c2, Some five_bytes, None)
    /\ nc c2 = Some s2
    /\ incoming s2 = prefix_100.
Proof.
  apply (readWireMessage_twice quiet_context quiet_context
           (example_connection two_messages io_timeout)
           (example_socket two_messages io_timeout)
           Byte.x05 Byte.x00 Byte.x00 Byte.x00 [Byte.x2a]
           Byte.x05 Byte.x00 Byte.x00 Byte.x00 [Byte.x2a] prefix_100);
    try reflexivity; vm_compute; split; discriminate.
Defined.

Lemma int32_small x : - 2 ^ 31 <= x < 2 ^ 31 -> int32 x = x.
Proof.
  intros H. unfold int32, wrap_signed. change (2 ^ (32 - 1)) with (2 ^ 31).
  destruct (Z.lt_ge_cases x 0) as [Hn|Hp].
  - replace (x mod 2 ^ 32) with (x + 2 ^ 32).
    + destruct (x + 2 ^ 32 <? 2 ^ 31) eqn:E; [apply Z.ltb_lt in E; lia | lia].
    + symmetry. rewrite <- (Z.mod_add _ 1) by lia.
      rewrite Z.mul_1_l. apply Z.mod_small. lia.
  - rewrite Z.mod_small by lia.
    destruct (x <? 2 ^ 31) eqn:E; [reflexivity | apply Z.ltb_ge in E; lia].
Qed.

Lemma stream_error_timeout s n :
  isCSOTTimeout (stream_error s n) = isCSOTTimeout (readFailure s).
Proof.
  unfold stream_error. destruct (readFailure s), n; reflexivity.
Qed.

Lemma io_ReadFull_short s k :
  (List.length (incoming s) < k)%nat ->
  io_ReadFull s k
  = (with_incoming s [], incoming s, Z.of_nat (List.length (incoming s)),
     Some (stream_error s (List.length (incoming s)))).
Proof.
  intros H. unfold io_ReadFull, stream_error.
  replace (k <=? List.length (incoming s))%nat with false; [reflexivity|].
  symmetry. apply Nat.leb_gt. exact H.
Qed.

(** X7: when the size prefix is within the bounds and the socket holds
    fewer body bytes than it announces, [readWireMessage] with a quiet
    listener returns no message and a [ConnectionError] with the
    message [incomplete read of full message].  If the socket's error
    is a timeout, the number of missing bytes is recorded in the
    marker and the connection stays open; otherwise the marker is left
    as it was, and the connection is closed exactly when the marker
    was not set. *)
Theorem body_read_failure :
  forall ctx c s b0 b1 b2 b3 body,
    state c = connConnected ->
    nc c = Some s ->
    deadlineResult s = None ->
    canceledWhileListening ctx = false ->
    incoming s = b0 :: b1 :: b2 :: b3 :: body ->
    let size := int32 (LittleEndian_Uint32 [b0; b1; b2; b3]) in
    4 <= size <= effectiveMax c ->
    Z.of_nat (List.length body) < size - 4 ->
    exists c' s' cause,
      readWireMessage ctx c
      = Ret (c', None,
             Some (ConnectionError (id c) (Some cause) false
                     "incomplete read of full message"))
      /\ nc c' = Some s'
      /\ (isCSOTTimeout (readFailure s) = true ->
          awaitRemainingBytes c'
          = Some (size - 4 - Z.of_nat (List.length body))
          /\ state c' = connConnected
          /\ closeCalls s' = closeCalls s)
      /\ (isCSOTTimeout (readFailure s) = false ->
          awaitRemainingBytes c' = awaitRemainingBytes c
          /\ (awaitRemainingBytes c = None ->
              state c' = connDisconnected
              /\ closeCalls s' = S (closeCalls s))
          /\ (awaitRemainingBytes c <> None ->
              state c' = connConnected
              /\ closeCalls s' = closeCalls s)).
Proof.
  intros ctx c s b0 b1 b2 b3 body Hst Hnc Hd Hq Hin size Hsize Hshort.
  destruct s as [inc rf wr dr cr out rd wd cc tr].
  cbn [deadlineResult incoming readFailure closeCalls] in *. subst dr inc.
  set (s := mkNetConn (b0 :: b1 :: b2 :: b3 :: body) rf wr None cr out rd wd
              cc tr) in *.
  assert (Hd : deadlineResult s = None) by reflexivity.
  assert (Hin : incoming s = b0 :: b1 :: b2 :: b3 :: body) by reflexivity.
  pose proof (int32_range (LittleEndian_Uint32 [b0; b1; b2; b3])) as R.
  fold size in R.
  set (s1 := after_read s (Deadline ctx) body).
  set (e := stream_error s1 (List.length body)).
  assert (Hr : read ctx (set_nc c (Some (fst (SetReadDeadline s
                                                (fst (ctx_Deadline ctx))))))
               = Ret (if isCSOTTimeout (readFailure s)
                      then set_awaitRemainingBytes
                             (set_nc c (Some (with_incoming s1 [])))
                             (Some (size - 4 - Z.of_nat (List.length body)))
                      else set_nc c (Some (with_incoming s1 [])),
                      b0 :: b1 :: b2 :: b3
                        :: fill (Z.to_nat size - 4) body,
                      "incomplete read of full message"%string, Some e)).
  { rewrite ctx_Deadline_fst. unfold SetReadDeadline. rewrite Hd. cbn [fst].
    unfold read, read_body. cbn [nc set_nc].
    rewrite (io_ReadFull_prefix _ b0 b1 b2 b3 body) by exact Hin.
    cbv zeta. cbn [fill firstn app repeat].
    rewrite (parse_desc _ c) by reflexivity.
    rewrite (parse_accepts c) by exact Hsize. fold size.
    rewrite io_ReadFull_short by (cbn [incoming with_incoming]; lia).
    cbn [incoming with_incoming].
    rewrite stream_error_timeout. cbn [readFailure with_incoming].
    rewrite (int32_small (size - 4)) by lia.
    rewrite (int32_small (Z.of_nat (List.length body))) by lia.
    rewrite (int32_small (size - 4 - _)) by lia.
    replace (size - 4 - Z.of_nat (List.length body) >? 0) with true.
    2:{ symmetry. apply Z.gtb_gt. lia. }
    cbn [andb].
    destruct (isCSOTTimeout (readFailure s)); cbn [go_bind];
      rewrite StopListening_quiet by exact Hq; reflexivity. }
  pose proof (readWireMessage_failed ctx c s _ _ _ _ Hst Hnc Hd Hr) as Hrw.
  cbv zeta in Hrw. rewrite Hrw. clear Hrw Hr.
  destruct (transformNetworkError ctx (Some e) (snd (ctx_Deadline ctx)))
    as [w|] eqn:T; [|exfalso; eapply transform_some; exact T].
  destruct (isCSOTTimeout (readFailure s)) eqn:Et.
  - change (readFailure s) with rf in Et |- *. rewrite Et.
    cbn [awaitRemainingBytes set_awaitRemainingBytes].
    do 3 eexists. split; [reflexivity|]. cbn.
    repeat split; auto; discriminate.
  - change (readFailure s) with rf in Et |- *. rewrite Et.
    cbn [awaitRemainingBytes set_nc].
    destruct (awaitRemainingBytes c) eqn:Em.
    + do 3 eexists. split; [reflexivity|]. cbn.
      repeat split; auto; try discriminate; congruence.
    + unfold close. cbn [state set_nc]. rewrite Hst. cbn.
      do 3 eexists. split; [reflexivity|].
      repeat split; auto; try discriminate; congruence.
Qed.

Lemma body_read_failure_witness :
  exists c' s' err,
    readWireMessage quiet_context (example_connection short_body io_timeout)
    = Ret (c', None, Some err)
    /\ nc c' = Some s'
    /\ awaitRemainingBytes c' = Some 95
    /\ state c' = connConnected
    /\ closeCalls s' = 0%nat.
Proof.
  destruct (body_read_failure quiet_context
              (example_connection short_body io_timeout)
              (example_socket short_body io_timeout)
              Byte.x64 Byte.x00 Byte.x00 Byte.x00 [Byte.x2a]
              eq_refl eq_refl eq_refl eq_refl eq_refl)
    as (c' & s' & cause & R & N & Ht & _).
  - vm_compute. split; discriminate.
  - reflexivity.
  - destruct (Ht eq_refl) as (M & St & C).
    exists c', s', (ConnectionError
                      (id (example_connection short_body io_timeout))
                      (Some cause) false "incomplete read of full message").
    repeat split; assumption.
Defined.

(** ** Outcomes of connect *)

Lemma connect_tls_shape c s :
  exists c1 s1 r,
    connect_tls c s = (c1, s1, r)
    /\ state c1 = state c /\ static c1 = static c
    /\ (has_socket c -> has_socket c1)
    /\ (forall e, r = Some e -> handshake_failure e).
Proof.
  unfold connect_tls.
  destruct (tlsConfig (config c)) as [t|].
  - destruct (configureTLS _ _ s (addr c) t) as [tlsNc [e|]].
    + do 3 eexists. split; [reflexivity|]. repeat split.
      * intros _. unfold has_socket. cbn. discriminate.
      * intros e0 H. inversion H. unfold handshake_failure. eauto.
    + do 3 eexists. split; [reflexivity|]. repeat split.
      * intros _. unfold has_socket. cbn. discriminate.
      * discriminate.
  - do 3 eexists. split; [reflexivity|]. repeat split; auto. discriminate.
Qed.

Lemma connect_tlcp_shape c s :
  exists c1 s1 r,
    connect_tlcp c s = (c1, s1, r)
    /\ state c1 = state c /\ static c1 = static c
    /\ (has_socket c -> has_socket c1)
    /\ (forall e, r = Some e -> handshake_failure e).
Proof.
  unfold connect_tlcp.
  destruct (tlcpConfig (config c)) as [t|].
  - destruct (configureTLCP _ s (addr c) t) as [tlcpNc [e|]].
    + do 3 eexists. split; [reflexivity|]. repeat split.
      * intros _. unfold has_socket. cbn. discriminate.
      * intros e0 H. inversion H. unfold handshake_failure. eauto.
    + do 3 eexists. split; [reflexivity|]. repeat split.
      * intros _. unfold has_socket. cbn. discriminate.
      * discriminate.
  - do 3 eexists. split; [reflexivity|]. repeat split; auto. discriminate.
Qed.

Section Outcome.
Variable ToLower : string -> string.
Variables DefaultZlibLevel DefaultZstdLevel : Z.

Lemma switch_method_keeps method c :
  let c' := switch_method ToLower DefaultZlibLevel DefaultZstdLevel method c in
  state c' = state c /\ nc c' = nc c /\ config c' = config c
  /\ desc c' = desc c /\ generation c' = generation c
  /\ awaitRemainingBytes c' = awaitRemainingBytes c.
Proof.
  unfold switch_method.
  destruct (String.eqb _ "snappy"); [cbn; auto 10|].
  destruct (String.eqb _ "zlib"); [cbn; auto 10|].
  destruct (String.eqb _ "zstd"); cbn; auto 10.
Qed.

Lemma selectCompressor_keeps c :
  let c' := selectCompressor ToLower DefaultZlibLevel DefaultZstdLevel c in
  state c' = state c /\ nc c' = nc c /\ config c' = config c
  /\ desc c' = desc c /\ generation c' = generation c
  /\ awaitRemainingBytes c' = awaitRemainingBytes c.
Proof.
  cbv zeta. rewrite selectCompressor_first_common.
  destruct (first_common _ _); [apply switch_method_keeps | auto 10].
Qed.

Lemma handshake_shape h c :
  has_socket c ->
  exists c1 err,
    handshake h c = Ret (c1, err)
    /\ state_step (state c) (state c1)
    /\ has_socket c1
    /\ config c1 = config c.
Proof.
  intros H. unfold handshake.
  destruct (run_initOps_keeps (hello_io h) c H) as (c1 & R1 & S1 & K1).
  rewrite R1. cbn [go_bind].
  destruct (run_initOps_io_step _ _ _ R1) as (T1 & _).
  apply static_config in S1.
  destruct (hello_result h) as [info|e].
  - destruct (loadBalanced (config (set_handshake c1 info)) && _).
    + do 2 eexists. split; [reflexivity|]. cbn. auto.
    + set (c2 := if loadBalanced _ then _ else _).
      destruct (generation_step_keeps
                  (loadBalanced (config (set_handshake c1 info)))
                  (set_handshake c1 info)) as (G1 & G2 & _).
      fold c2 in G1, G2.
      assert (Hst2 : state c2 = state c1).
      { subst c2. unfold setGenerationNumber.
        destruct (loadBalanced _); [|reflexivity].
        destruct (getGenerationFn _); reflexivity. }
      assert (K2 : has_socket c2).
      { unfold has_socket. rewrite G1. exact K1. }
      destruct (run_initOps_keeps (finish_io h) c2 K2) as (c3 & R3 & S3 & K3).
      rewrite R3. cbn [go_bind].
      destruct (run_initOps_io_step _ _ _ R3) as (T3 & _).
      apply static_config in S3.
      do 2 eexists. split; [reflexivity|]. split; [|split; [exact K3|]].
      * eapply state_step_trans; [exact T1|]. rewrite <- Hst2. exact T3.
      * rewrite S3, G2. cbn. exact S1.
  - do 2 eexists. split; [reflexivity|]. auto.
Qed.

Lemma connect_body_shape c :
  state c = connConnected ->
  exists c1 err,
    connect_body ToLower DefaultZlibLevel DefaultZstdLevel c = Ret (c1, err)
    /\ state_step connConnected (state c1)
    /\ config c1 = config c
    /\ (nc c1 = None -> exists de, dialer (config c) = inr de)
    /\ (forall e, err = Some e -> handshake_failure e).
Proof.
  intros Hst. unfold connect_body.
  destruct (dialer (config c)) as [tempNc|de] eqn:Ed.
  2:{ do 2 eexists. split; [reflexivity|]. rewrite Hst.
      split; [apply state_step_refl|]. split; [reflexivity|].
      split; [eauto|]. intros e H. inversion H. unfold handshake_failure. eauto. }
  set (c0 := set_nc c (Some tempNc)).
  assert (K0 : has_socket c0) by (unfold has_socket; cbn; discriminate).
  assert (C0 : config c0 = config c) by reflexivity.
  destruct (connect_tls_shape c0 tempNc) as (c1 & s1 & r1 & -> & St1 & S1 & K1 & F1).
  apply static_config in S1.
  destruct r1 as [e1|].
  { do 2 eexists. split; [reflexivity|]. rewrite St1. cbn. rewrite Hst.
    split; [apply state_step_refl|]. split; [congruence|].
    split; [intros N; exfalso; apply (K1 K0); exact N|].
    intros e H. inversion H; subst. apply F1. reflexivity. }
  destruct (connect_tlcp_shape c1 s1) as (c2 & s2 & r2 & -> & St2 & S2 & K2 & F2).
  apply static_config in S2.
  destruct r2 as [e2|].
  { do 2 eexists. split; [reflexivity|]. rewrite St2, St1. cbn. rewrite Hst.
    split; [apply state_step_refl|]. split; [congruence|].
    split; [intros N; exfalso; apply (K2 (K1 K0)); exact N|].
    intros e H. inversion H; subst. apply F2. reflexivity. }
  assert (Hst2 : state c2 = connConnected) by (rewrite St2, St1; exact Hst).
  destruct (handshaker (config c2)) as [h|].
  2:{ do 2 eexists. split; [reflexivity|]. rewrite Hst2.
      split; [apply state_step_refl|]. split; [congruence|].
      split; [intros N; exfalso; apply (K2 (K1 K0)); exact N|]. discriminate. }
  destruct (handshake_shape h c2 (K2 (K1 K0))) as (c3 & err & -> & T3 & K3 & C3).
  cbn [go_bind]. rewrite Hst2 in T3.
  destruct err as [e|].
  - do 2 eexists. split; [reflexivity|]. split; [exact T3|].
    split; [congruence|].
    split; [intros N; exfalso; apply K3; exact N|].
    intros e0 H. inversion H. unfold handshake_failure. eauto.
  - destruct (selectCompressor_keeps c3) as (A & B & C & _).
    do 2 eexists. split; [reflexivity|]. rewrite A, B, C.
    split; [exact T3|]. split; [congruence|].
    split; [intros N; exfalso; apply K3; exact N|]. discriminate.
Qed.

Lemma connect_outcome c :
  state c = connInitialized ->
  exists c' err,
    connect ToLower DefaultZlibLevel DefaultZstdLevel c = Ret (c', err)
    /\ (err = None ->
        state c' = connConnected \/ state c' = connDisconnected)
    /\ (forall e, err = Some e ->
        state c' = connDisconnected
        /\ handshake_failure e
        /\ match nc c' with
           | Some s' => (0 < closeCalls s')%nat
           | None => exists de, dialer (config c) = inr de
           end).
Proof.
  intros Hst. unfold connect. rewrite Hst. cbn [connState_eqb negb].
  destruct (connect_body_shape (set_state c connConnected) eq_refl)
    as (c1 & err & -> & T & C & N & F).
  cbn [go_bind]. do 2 eexists. split; [reflexivity|]. split.
  - intros ->. cbn [connect_deferred].
    destruct T as [T|[_ T]]; auto.
  - intros e ->. cbn [connect_deferred].
    split; [|split; [apply F; reflexivity|]].
    + destruct (nc (set_state c1 connDisconnected)); reflexivity.
    + cbn [nc set_state]. destruct (nc c1) as [s1|] eqn:E1.
      * cbn. apply Nat.lt_0_succ.
      * cbn. rewrite E1. apply N. reflexivity.
Qed.

End Outcome.

(** X8: [connect] on an initialized connection always returns.  When it
    returns an error, the error is a [ConnectionError] with an empty
    id, a cause and the init flag set, the state is disconnected, and
    the socket has been closed unless the dial itself failed and there
    is none; when it returns no error the state is connected or
    disconnected, never initialized. *)
Theorem connect_failure_disconnects :
  forall ToLower DefaultZlibLevel DefaultZstdLevel c,
    state c = connInitialized ->
    exists c' err,
      connect ToLower DefaultZlibLevel DefaultZstdLevel c = Ret (c', err)
      /\ (err = None ->
          state c' = connConnected \/ state c' = connDisconnected)
      /\ (forall e, err = Some e ->
          state c' = connDisconnected
          /\ (exists cause message,
                 e = ConnectionError "" (Some cause) true message)
          /\ match nc c' with
             | Some s' => (0 < closeCalls s')%nat
             | None => exists de, dialer (config c) = inr de
             end).
Proof. exact connect_outcome. Qed.

(** X9: [connect] always returns, and a second [connect] on the
    connection it leaves does nothing and returns no error; on a
    connection that is not in the initialized state the first call
    already does nothing. *)
Theorem connect_only_once :
  forall ToLower DefaultZlibLevel DefaultZstdLevel c,
    exists c' err,
      connect ToLower DefaultZlibLevel DefaultZstdLevel c = Ret (c', err)
      /\ connect ToLower DefaultZlibLevel DefaultZstdLevel c' = Ret (c', None)
      /\ (state c <> connInitialized -> c' = c /\ err = None).
Proof.
  intros ToLower dzl dzs c.
  destruct (connState_eqb (state c) connInitialized) eqn:E.
  - assert (Hst : state c = connInitialized)
      by (destruct (state c); auto; discriminate).
    destruct (connect_outcome ToLower dzl dzs c Hst) as (c' & err & R & Hn & He).
    exists c', err. split; [exact R|]. split; [|congruence].
    assert (Hs : state c' <> connInitialized).
    { destruct err as [e|].
      - destruct (He e eq_refl) as (S & _). congruence.
      - destruct (Hn eq_refl); congruence. }
    unfold connect.
    destruct (state c') eqn:Es; try reflexivity. congruence.
  - exists c, None. unfold connect. rewrite E. cbn [negb]. auto.
Qed.

Lemma connect_failure_disconnects_witness :
  exists c' err,
    connect ascii_ToLower 6 6 (fresh_connection true) = Ret (c', err)
    /\ (err = None ->
        state c' = connConnected \/ state c' = connDisconnected)
    /\ (forall e, err = Some e ->
        state c' = connDisconnected
        /\ (exists cause message,
               e = ConnectionError "" (Some cause) true message)
        /\ match nc c' with
           | Some s' => (0 < closeCalls s')%nat
           | None => exists de, dialer (config (fresh_connection true)) = inr de
           end).
Proof.
  apply (connect_failure_disconnects ascii_ToLower 6 6 (fresh_connection true)).
  reflexivity.
Defined.

Lemma connect_tls_socket c s :
  let '(c1, s1, r) := connect_tls c s in
  state c1 = state c /\ static c1 = static c
  /\ (nc c = Some s -> nc c1 = Some s1)
  /\ closeCalls s1 = closeCalls s /\ outgoing s1 = outgoing s
  /\ incoming s1 = incoming s.
Proof.
  unfold connect_tls.
  destruct (tlsConfig (config c)) as [t|]; [|repeat split; auto].
  unfold configureTLS. cbv zeta.
  destruct (tlsHandshake (config c)); [repeat split|].
  destruct (negb _); [|repeat split].
  destruct (ocspVerify (config c)); repeat split.
Qed.

Lemma connect_tlcp_socket c s :
  let '(c1, s1, r) := connect_tlcp c s in
  state c1 = state c /\ static c1 = static c
  /\ (nc c = Some s -> nc c1 = Some s1)
  /\ closeCalls s1 = closeCalls s /\ outgoing s1 = outgoing s
  /\ incoming s1 = incoming s
  /\ (tlcpConfig (config c) = None -> transport s1 = transport s).
Proof.
  unfold connect_tlcp.
  destruct (tlcpConfig (config c)) as [t|]; [|repeat split; auto].
  unfold configureTLCP.
  destruct (tlcpHandshake (config c)); repeat split; discriminate.
Qed.

(** X10: with a dial that succeeds, a secure transport that completes
    and no handshaker configured, [connect] returns no error and leaves
    the connection connected on the dialled socket, with nothing
    written to it, nothing read from it and nothing closed, and with
    the description, compressor and generation as they were. *)
Theorem connect_without_handshaker :
  forall ToLower DefaultZlibLevel DefaultZstdLevel c tempNc,
    state c = connInitialized ->
    dialer (config c) = inl tempNc ->
    transport_succeeds (config c) = true ->
    handshaker (config c) = None ->
    exists c' s',
      connect ToLower DefaultZlibLevel DefaultZstdLevel c = Ret (c', None)
      /\ state c' = connConnected
      /\ static c' = static c
      /\ nc c' = Some s'
      /\ closeCalls s' = closeCalls tempNc
      /\ outgoing s' = outgoing tempNc
      /\ incoming s' = incoming tempNc.
Proof.
  intros ToLower dzl dzs c tempNc Hst Hd Ht Hh.
  unfold connect. rewrite Hst. cbn [connState_eqb negb].
  unfold connect_body. cbn [config set_state]. rewrite Hd.
  set (c0 := set_nc (set_state c connConnected) (Some tempNc)).
  assert (S0 : static c0 = static c) by reflexivity.
  pose proof (connect_tls_socket c0 tempNc) as P1.
  destruct (connect_tls_succeeds c0 tempNc) as (c1 & s1 & E1 & _).
  { rewrite (static_config _ _ S0). exact Ht. }
  rewrite E1 in P1 |- *. destruct P1 as (St1 & S1 & N1 & A1 & B1 & C1).
  pose proof (connect_tlcp_socket c1 s1) as P2.
  destruct (connect_tlcp_succeeds c1 s1) as (c2 & s2 & E2 & _).
  { rewrite (static_config _ _ S1), (static_config _ _ S0). exact Ht. }
  rewrite E2 in P2 |- *. destruct P2 as (St2 & S2 & N2 & A2 & B2 & C2 & _).
  assert (S20 : static c2 = static c) by congruence.
  rewrite (static_config _ _ S20), Hh.
  cbn [go_bind connect_deferred].
  exists c2, s2. split; [reflexivity|].
  split; [rewrite St2, St1; reflexivity|]. split; [exact S20|].
  split; [apply N2, N1; reflexivity|].
  repeat split; congruence.
Qed.

Lemma connect_without_handshaker_witness :
  exists c' s',
    connect ascii_ToLower 6 6 bare_connection = Ret (c', None)
    /\ state c' = connConnected
    /\ static c' = static bare_connection
    /\ nc c' = Some s'
    /\ closeCalls s' = 0%nat
    /\ outgoing s' = []
    /\ incoming s' = [].
Proof.
  apply (connect_without_handshaker ascii_ToLower 6 6 bare_connection
           (example_socket [] io_EOF)); reflexivity.
Defined.



(** ** Generation numbers *)

Section Generation.
Variable ToLower : string -> string.
Variables DefaultZlibLevel DefaultZstdLevel : Z.




End Generation.


(** X13: [connect]'s compressor selection leaves the connection exactly
    as it is when no entry of the client's list is in the server's
    list, and also when the first common entry, lower-cased, is none of
    snappy, zlib and zstd: the loop stops at that entry and never tries
    a later one. *)
Theorem unknown_or_absent_compressor :
  forall ToLower DefaultZlibLevel DefaultZstdLevel c,
    (first_common (compressors (config c)) (Compression (desc c)) = None ->
     selectCompressor ToLower DefaultZlibLevel DefaultZstdLevel c = c)
    /\
    (forall method,
        first_common (compressors (config c)) (Compression (desc c))
        = Some method ->
        ToLower method <> "snappy"%string ->
        ToLower method <> "zlib"%string ->
        ToLower method <> "zstd"%string ->
        selectCompressor ToLower DefaultZlibLevel DefaultZstdLevel c = c).
Proof.
  intros ToLower dzl dzs c. split.
  - intros H. rewrite selectCompressor_first_common, H. reflexivity.
  - intros m H H1 H2 H3. rewrite selectCompressor_first_common, H.
    unfold switch_method.
    apply String.eqb_neq in H1, H2, H3. rewrite H1, H2, H3. reflexivity.
Qed.

(** ** The handle: pin counts and release *)

Lemma int_small x : - 2 ^ 63 <= x < 2 ^ 63 -> int x = x.
Proof.
  intros H. unfold int, wrap_signed. change (2 ^ (64 - 1)) with (2 ^ 63).
  destruct (Z.lt_ge_cases x 0) as [Hn|Hp].
  - replace (x mod 2 ^ 64) with (x + 2 ^ 64).
    + destruct (x + 2 ^ 64 <? 2 ^ 63) eqn:E; [apply Z.ltb_lt in E; lia | lia].
    + symmetry. rewrite <- (Z.mod_add _ 1) by lia.
      rewrite Z.mul_1_l. apply Z.mod_small. lia.
  - rewrite Z.mod_small by lia.
    destruct (x <? 2 ^ 63) eqn:E; [reflexivity | apply Z.ltb_ge in E; lia].
Qed.

Lemma run_pin_op_count o h p :
  connection_ h <> None ->
  0 <= refCount h < 2 ^ 63 - 1 ->
  exists h1 p1 err,
    run_pin_op o h p = Ret (h1, p1, err)
    /\ connection_ h1 = connection_ h
    /\ 0 <= refCount h1 <= refCount h + 1
    /\ (refCount h = 0 ->
        (o = op_UnpinFromCursor \/ o = op_UnpinFromTransaction) ->
        h1 = h /\ p1 = p /\ err <> None).
Proof.
  destruct h as [[c|] rc cp cs oid]; cbn [connection_ refCount];
    [intros _ Hr|congruence].
  destruct o; cbn [run_pin_op]; unfold PinToCursor, PinToTransaction,
    UnpinFromCursor, UnpinFromTransaction, pin, unpin;
    cbn [connection_ refCount cleanupPoolFn cleanupServerFn oidcTokenGenID];
    destruct (rc =? 0) eqn:E0;
    try (apply Z.eqb_eq in E0; subst rc);
    try (apply Z.eqb_neq in E0);
    cbn [connection_ refCount];
    rewrite ?int_small by lia;
    do 3 eexists; (split; [reflexivity|]); cbn [connection_ refCount];
    (split; [reflexivity|]); (split; [lia|]);
    intros Hz [Ho|Ho]; try discriminate; try lia;
    repeat split; discriminate.
Qed.

(** X14: over every sequence of pin and unpin calls on a live handle
    whose count starts at zero or above, every call returns, the handle
    stays live, and the count stays between zero and the starting count
    plus the number of calls: an unpin never takes it below zero. *)
Theorem pin_count_never_negative :
  forall ops h p,
    connection_ h <> None ->
    0 <= refCount h ->
    refCount h + Z.of_nat (List.length ops) < 2 ^ 63 ->
    exists h' p',
      run_pin_ops ops h p = Ret (h', p')
      /\ connection_ h' = connection_ h
      /\ 0 <= refCount h' <= refCount h + Z.of_nat (List.length ops).
Proof.
  induction ops as [|o rest IH]; intros h p Hl H0 Hb.
  - exists h, p. cbn. repeat split; auto; lia.
  - cbn [List.length] in Hb. rewrite Nat2Z.inj_succ in Hb.
    destruct (run_pin_op_count o h p Hl ltac:(lia))
      as (h1 & p1 & err & R & C & B & _).
    destruct (IH h1 p1) as (h' & p' & R' & C' & B'); try lia.
    { congruence. }
    exists h', p'. cbn [run_pin_ops]. rewrite R. cbn [go_bind].
    split; [exact R'|]. split; [congruence|].
    cbn [List.length]. rewrite Nat2Z.inj_succ. lia.
Qed.

Lemma pin_count_never_negative_witness :
  exists h' p',
    run_pin_ops [op_UnpinFromCursor; op_PinToCursor; op_UnpinFromTransaction;
                 op_UnpinFromTransaction]
      live_handle example_pool = Ret (h', p')
    /\ connection_ h' = connection_ live_handle
    /\ 0 <= refCount h' <= 4.
Proof.
  apply (pin_count_never_negative
           [op_UnpinFromCursor; op_PinToCursor; op_UnpinFromTransaction;
            op_UnpinFromTransaction]
           live_handle example_pool).
  - discriminate.
  - discriminate.
  - reflexivity.
Defined.

(** X15: [Expire] on a live handle closes the connection, checks it in,
    runs the cleanup callbacks the handle holds and releases the
    handle, whatever the pin count, returning the pool's answer; the
    connection handed to the pool is not connected; and [Close] and
    [Expire] on the released handle do nothing and return no error. *)
Theorem expire_then_close :
  forall h p c,
    connection_ h = Some c ->
    exists h' p',
      Expire h p = Ret (h', p', checkIn_answer p)
      /\ connection_ h' = None
      /\ refCount h' = refCount h
      /\ calls p' = calls p ++ release_calls h (fst (close c))
      /\ state (fst (close c)) <> connConnected
      /\ Close h' p' = Ret (h', p', None)
      /\ Expire h' p' = Ret (h', p', None).
Proof.
  intros h p c E. unfold Expire. rewrite E.
  rewrite (cleanupReferences_calls _ p (fst (close c))) by reflexivity.
  do 2 eexists. split; [reflexivity|]. cbn.
  repeat split.
  unfold close. destruct c as [st ? [s|]]; destruct st; cbn; discriminate.
Qed.

Lemma expire_then_close_witness :
  exists h' p',
    Expire live_handle example_pool = Ret (h', p', None)
    /\ connection_ h' = None
    /\ Close h' p' = Ret (h', p', None)
    /\ Expire h' p' = Ret (h', p', None).
Proof.
  destruct (expire_then_close live_handle example_pool
              (example_connection [] io_timeout) eq_refl)
    as (h' & p' & R & N & _ & _ & _ & C & E).
  exists h', p'. repeat split; assumption.
Defined.

(** X16: [Close] on a pinned handle does nothing: after [PinToCursor]
    on a live handle with count zero, [Close] returns no error and
    leaves the handle and the pool as they are.  After the matching
    [UnpinFromCursor], which calls nothing on the pool, [Close]
    releases the handle: the pool has then received the pin
    accounting, the check-in of the connection, the inverse accounting
    stored by the pin, and the server cleanup when one is set, in this
    order. *)
Theorem pinned_handle_outlives_close :
  forall h p c,
    connection_ h = Some c ->
    refCount h = 0 ->
    exists h1 p1 h2 h3 p3,
      PinToCursor h p = Ret (h1, p1, None)
      /\ Close h1 p1 = Ret (h1, p1, None)
      /\ connection_ h1 = Some c
      /\ UnpinFromCursor h1 p1 = Ret (h2, p1, None)
      /\ Close h2 p1 = Ret (h3, p3, checkIn_answer p)
      /\ connection_ h3 = None
      /\ calls p3
         = calls p
           ++ [call_poolFn pinConnectionToCursor; call_checkIn c;
               call_poolFn unpinConnectionFromCursor]
           ++ (if cleanupServerFn h then [call_cleanupServerFn] else []).
Proof.
  intros h p c E Hz.
  destruct h as [co rc cp cs oid]. cbn in E, Hz. subst co rc.
  destruct p as [ci st cl].
  assert (Hp : PinToCursor (mkHandle (Some c) 0 cp cs oid) (mkPool ci st cl)
               = Ret (mkHandle (Some c) 1 (Some unpinConnectionFromCursor) cs oid,
                      mkPool ci st (cl ++ [call_poolFn pinConnectionToCursor]),
                      None)) by reflexivity.
  assert (Hu : UnpinFromCursor
                 (mkHandle (Some c) 1 (Some unpinConnectionFromCursor) cs oid)
                 (mkPool ci st (cl ++ [call_poolFn pinConnectionToCursor]))
               = Ret (mkHandle (Some c) 0 (Some unpinConnectionFromCursor) cs oid,
                      mkPool ci st (cl ++ [call_poolFn pinConnectionToCursor]),
                      None)) by reflexivity.
  do 5 eexists. split; [exact Hp|]. split; [reflexivity|].
  split; [reflexivity|]. split; [exact Hu|].
  unfold Close. cbn [connection_ refCount]. change (0 >? 0) with false.
  cbv iota.
  rewrite (cleanupReferences_calls _ _ c) by reflexivity.
  split; [reflexivity|]. split; [reflexivity|].
  cbn [calls]. unfold release_calls. cbn [cleanupPoolFn cleanupServerFn].
  rewrite <- app_assoc. reflexivity.
Qed.

Lemma pinned_handle_outlives_close_witness :
  exists h1 p1 h2 h3 p3,
    PinToCursor live_handle example_pool = Ret (h1, p1, None)
    /\ Close h1 p1 = Ret (h1, p1, None)
    /\ connection_ h1 = Some (example_connection [] io_timeout)
    /\ UnpinFromCursor h1 p1 = Ret (h2, p1, None)
    /\ Close h2 p1 = Ret (h3, p3, None)
    /\ connection_ h3 = None
    /\ calls p3
       = [call_poolFn pinConnectionToCursor;
          call_checkIn (example_connection [] io_timeout);
          call_poolFn unpinConnectionFromCursor; call_cleanupServerFn].
Proof.
  apply (pinned_handle_outlives_close live_handle example_pool
           (example_connection [] io_timeout)); reflexivity.
Defined.

(** ** The user name of an X.509 subject *)

Lemma nth_middle_pre {A} (pre : list A) x r d :
  nth (List.length pre) (pre ++ x :: r) d = x.
Proof. induction pre; cbn; auto. Qed.

Lemma update_nth_middle {A} (pre : list A) x r v :
  update_nth (pre ++ x :: r) (List.length pre) v = pre ++ v :: r.
Proof. induction pre; cbn; [reflexivity | rewrite IHpre; reflexivity]. Qed.

Lemma swap_ends pre x mid y post :
  swap_elems (pre ++ x :: mid ++ y :: post) (List.length pre)
    (List.length pre + S (List.length mid))
  = pre ++ y :: mid ++ x :: post.
Proof.
  unfold swap_elems.
  rewrite nth_middle_pre.
  replace (pre ++ x :: mid ++ y :: post) with ((pre ++ x :: mid) ++ y :: post)
    by (rewrite <- app_assoc; reflexivity).
  replace (List.length pre + S (List.length mid))%nat
    with (List.length (pre ++ x :: mid))
    by (rewrite length_app; cbn; lia).
  rewrite nth_middle_pre.
  rewrite <- app_assoc. cbn [app].
  rewrite update_nth_middle.
  replace (pre ++ y :: mid ++ y :: post) with ((pre ++ y :: mid) ++ y :: post)
    by (rewrite <- app_assoc; reflexivity).
  replace (List.length (pre ++ x :: mid)) with (List.length (pre ++ y :: mid))
    by (rewrite !length_app; reflexivity).
  rewrite update_nth_middle. rewrite <- app_assoc. reflexivity.
Qed.

Lemma reverse_loop_rev : forall fuel pre mid post,
  (List.length mid <= 2 * fuel)%nat ->
  reverse_loop fuel (Z.of_nat (List.length pre))
    (Z.of_nat (List.length pre + List.length mid) - 1) (pre ++ mid ++ post)
  = pre ++ rev mid ++ post.
Proof.
  induction fuel as [|fuel IH]; intros pre mid post Hlen.
  - destruct mid; [reflexivity | cbn in Hlen; lia].
  - cbn [reverse_loop].
    destruct mid as [|x mid].
    { replace (_ <? _) with false; [reflexivity|].
      symmetry. apply Z.ltb_ge. cbn. lia. }
    destruct (exists_last (l := x :: mid) ltac:(discriminate)) as (m' & y & E).
    destruct m' as [|x' mid'].
    { cbn in E. inversion E; subst.
      replace (_ <? _) with false; [reflexivity|].
      symmetry. apply Z.ltb_ge. cbn. lia. }
    cbn [app] in E. injection E as Hx Hm. subst x' mid.
    replace (_ <? _) with true.
    2:{ symmetry. apply Z.ltb_lt. cbn [List.length]. rewrite length_app. cbn. lia. }
    rewrite Nat2Z.id.
    replace (Z.to_nat (Z.of_nat (List.length pre
                                 + List.length (x :: mid' ++ [y])) - 1))
      with (List.length pre + S (List.length mid'))%nat
      by (cbn [List.length]; rewrite length_app; cbn; lia).
    replace (pre ++ (x :: mid' ++ [y]) ++ post)
      with (pre ++ x :: mid' ++ y :: post)
      by (cbn; rewrite <- app_assoc; reflexivity).
    rewrite swap_ends.
    replace (pre ++ y :: mid' ++ x :: post)
      with ((pre ++ [y]) ++ mid' ++ (x :: post))
      by (rewrite <- app_assoc; reflexivity).
    replace (Z.of_nat (List.length pre) + 1)
      with (Z.of_nat (List.length (pre ++ [y])))
      by (rewrite length_app; cbn; lia).
    replace (Z.of_nat (List.length pre + List.length (x :: mid' ++ [y])) - 1 - 1)
      with (Z.of_nat (List.length (pre ++ [y]) + List.length mid') - 1)
      by (cbn [List.length]; rewrite !length_app; cbn; lia).
    rewrite IH.
    + cbn [rev]. rewrite rev_app_distr. cbn.
      rewrite <- !app_assoc. reflexivity.
    + cbn [List.length] in Hlen. rewrite length_app in Hlen. cbn in Hlen. lia.
Qed.

Lemma extract_is_reverse subject :
  extractX509UsernameFromSubject subject
  = Join_comma (rev (Split_comma subject)).
Proof.
  unfold extractX509UsernameFromSubject.
  pose proof (reverse_loop_rev (List.length (Split_comma subject)) []
                (Split_comma subject) []) as H.
  cbn [List.length app Nat.add Z.of_nat] in H.
  rewrite !app_nil_r in H. rewrite H by lia. reflexivity.
Qed.

Lemma Split_comma_shape s :
  Split_comma s <> [] /\ comma_free (Split_comma s).
Proof.
  induction s as [|a r [Hn Hf]]; cbn [Split_comma].
  - split; [discriminate|]. repeat constructor.
  - destruct (Ascii.eqb a ",") eqn:E.
    + split; [discriminate|]. constructor; [reflexivity | exact Hf].
    + destruct (Split_comma r) as [|h t]; [congruence|].
      split; [discriminate|].
      inversion Hf; subst. constructor; [|assumption].
      cbn. rewrite E. assumption.
Qed.

Lemma Join_Split s : Join_comma (Split_comma s) = s.
Proof.
  induction s as [|a r IH]; cbn [Split_comma].
  - reflexivity.
  - destruct (Ascii.eqb a ",") eqn:E.
    + apply Ascii.eqb_eq in E. subst a.
      destruct (Split_comma_shape r) as [Hn _].
      destruct (Split_comma r) as [|h t]; [congruence|].
      cbn [Join_comma append]. cbn [Join_comma] in IH. rewrite IH. reflexivity.
    + destruct (Split_comma r) as [|h t] eqn:Er.
      * destruct (Split_comma_shape r) as [Hn _]. congruence.
      * cbn [Join_comma] in *. destruct t; cbn [append]; rewrite IH; reflexivity.
Qed.

Lemma Split_append e rest :
  no_comma e = true ->
  Split_comma (e ++ String "," rest) = e :: Split_comma rest.
Proof.
  induction e as [|a r IH]; intros H.
  - reflexivity.
  - cbn in H. apply andb_prop in H as [Ha Hr].
    cbn [append Split_comma].
    destruct (Ascii.eqb a ","); [discriminate|].
    rewrite (IH Hr). reflexivity.
Qed.

Lemma Split_single e : no_comma e = true -> Split_comma e = [e].
Proof.
  induction e as [|a r IH]; intros H.
  - reflexivity.
  - cbn in H. apply andb_prop in H as [Ha Hr].
    cbn [Split_comma]. destruct (Ascii.eqb a ","); [discriminate|].
    rewrite (IH Hr). reflexivity.
Qed.

Lemma Split_Join l :
  l <> [] -> comma_free l -> Split_comma (Join_comma l) = l.
Proof.
  induction l as [|e rest IH]; intros Hn Hf; [congruence|].
  inversion Hf; subst.
  destruct rest as [|e2 rest].
  - cbn. apply Split_single. assumption.
  - cbn [Join_comma]. rewrite Split_append by assumption.
    f_equal. apply IH; [discriminate | assumption].
Qed.

(** X17: [extractX509UsernameFromSubject] returns the comma-separated
    parts of the subject in reverse order, joined by commas again: the
    swapping loop is a reversal.  Applied twice it gives the subject
    back; a subject without a comma is returned as it is; and on the
    join of parts that hold no comma it returns the join of the parts
    reversed. *)
Theorem x509_subject_reversal :
  forall subject,
    extractX509UsernameFromSubject subject
    = Join_comma (rev (Split_comma subject))
    /\ extractX509UsernameFromSubject (extractX509UsernameFromSubject subject)
       = subject
    /\ (no_comma subject = true ->
        extractX509UsernameFromSubject subject = subject)
    /\ (forall pairs,
          pairs <> [] -> comma_free pairs ->
          extractX509UsernameFromSubject (Join_comma pairs)
          = Join_comma (rev pairs)).
Proof.
  intros subject. split; [apply extract_is_reverse|]. split; [|split].
  - rewrite !extract_is_reverse.
    destruct (Split_comma_shape subject) as [Hn Hf].
    rewrite Split_Join.
    + rewrite rev_involutive. apply Join_Split.
    + intros E. apply Hn. apply (f_equal (@rev string)) in E.
      rewrite rev_involutive in E. exact E.
    + apply Forall_rev. exact Hf.
  - intros H. rewrite extract_is_reverse, Split_single by exact H. reflexivity.
  - intros pairs Hn Hf. rewrite extract_is_reverse, Split_Join by assumption.
    reflexivity.
Qed.

(** ** Validation of the client options *)

Lemma or_else_none a b : or_else a b = None <-> a = None /\ b = None.
Proof. destruct a; cbn; split; intros; intuition congruence. Qed.

Lemma check_none cond e : check cond e = None <-> cond = false.
Proof. destruct cond; cbn; split; intros; congruence. Qed.

Section ValidateFacts.

Variables ErrLoadBalancedWithMultipleHosts ErrLoadBalancedWithReplicaSet
  ErrLoadBalancedWithDirectConnection ErrSRVMaxHostsWithReplicaSet
  ErrSRVMaxHostsWithLoadBalanced : error.
Variable SchemeMongoDBSRV : string.
Variable IsValidServerMonitoringMode : string -> bool.
Variable ServerAPIVersion_Validate : string -> option error.
Variables MongoDBOIDC AllowedHostsProp EnvironmentProp ResourceProp
  GCPEnvironmentValue AzureEnvironmentValue K8SEnvironmentValue
  TestEnvironmentValue : string.
Variable fmt_q_Duration : Z -> string.
Variable fmt_q : string -> string.

Lemma set_true_spec o : set_true o = true <-> o = Some true.
Proof. destruct o as [[|]|]; cbn; split; congruence. Qed.

Lemma set_true_false o : set_true o = false <-> o <> Some true.
Proof. destruct o as [[|]|]; cbn; split; congruence. Qed.

Lemma is_set_false {A} (o : option A) : is_set o = false <-> o = None.
Proof. destruct o; cbn; split; congruence. Qed.

Lemma conj_iff (A B C D : Prop) : (A <-> B) -> (C <-> D) -> (A /\ C <-> B /\ D).
Proof. tauto. Qed.

(** X18: [Validate] returns no error exactly for the options that carry
    no earlier error and pass every check: a direct connection has at
    most one host and no SRV scheme; the heartbeat interval is at least
    500ms; a nonzero maximum pool size is not below the minimum; the
    server API version is valid; load-balanced mode has at most one
    host, no replica set and no direct connection; a positive
    srvMaxHosts comes with no replica set and no load-balanced mode;
    the monitoring mode is valid; the timeout is not negative; and an
    OIDC credential passes its own checks.  An earlier error of the
    options is returned as it is. *)
Theorem Validate_accepts_exactly :
  forall c,
    (Validate ErrLoadBalancedWithMultipleHosts ErrLoadBalancedWithReplicaSet
       ErrLoadBalancedWithDirectConnection ErrSRVMaxHostsWithReplicaSet
       ErrSRVMaxHostsWithLoadBalanced SchemeMongoDBSRV
       IsValidServerMonitoringMode ServerAPIVersion_Validate MongoDBOIDC
       AllowedHostsProp EnvironmentProp ResourceProp GCPEnvironmentValue
       AzureEnvironmentValue K8SEnvironmentValue TestEnvironmentValue
       fmt_q_Duration fmt_q c = None
     <-> accepted SchemeMongoDBSRV IsValidServerMonitoringMode
         ServerAPIVersion_Validate MongoDBOIDC AllowedHostsProp
         EnvironmentProp ResourceProp GCPEnvironmentValue
         AzureEnvironmentValue K8SEnvironmentValue TestEnvironmentValue
         fmt_q c)
    /\ (forall e,
          co_err c = Some e ->
          Validate ErrLoadBalancedWithMultipleHosts ErrLoadBalancedWithReplicaSet
          ErrLoadBalancedWithDirectConnection ErrSRVMaxHostsWithReplicaSet
          ErrSRVMaxHostsWithLoadBalanced SchemeMongoDBSRV
          IsValidServerMonitoringMode ServerAPIVersion_Validate MongoDBOIDC
          AllowedHostsProp EnvironmentProp ResourceProp GCPEnvironmentValue
          AzureEnvironmentValue K8SEnvironmentValue TestEnvironmentValue
          fmt_q_Duration fmt_q c = Some e).
Proof.
  intros c. split;
    [|intros e H; unfold Validate; rewrite H; reflexivity].
  unfold Validate, accepted.
  rewrite !or_else_none.
  apply conj_iff; [reflexivity|].
  apply conj_iff.
  { destruct (Direct c) as [[|]|]; cbn [set_true].
    - rewrite or_else_none, !check_none, Nat.ltb_ge.
      destruct (connString_Scheme c) as [sch|].
      + split.
        * intros [H1 H2] _. split; [exact H1|].
          apply String.eqb_neq in H2. congruence.
        * intros H. destruct (H eq_refl) as [H1 H2]. split; [exact H1|].
          apply String.eqb_neq. congruence.
      + split; [intros [H1 _] _; split; [exact H1 | discriminate]|].
        intros H. destruct (H eq_refl) as [H1 _]. auto.
    - split; [discriminate | reflexivity].
    - split; [discriminate | reflexivity]. }
  apply conj_iff.
  { destruct (HeartbeatInterval c) as [d|].
    - rewrite check_none, Z.ltb_ge. split.
      + intros H d' E. inversion E; subst. lia.
      + intros H. specialize (H d eq_refl). lia.
    - split; [discriminate | reflexivity]. }
  apply conj_iff.
  { destruct (MaxPoolSize c) as [mx|], (MinPoolSize c) as [mn|];
      try (split; [intros; discriminate | reflexivity]).
    rewrite check_none. split.
    - intros H mx' mn' E1 E2 Hz. inversion E1; inversion E2; subst.
      apply andb_false_iff in H. destruct H as [H|H].
      + apply negb_false_iff, Z.eqb_eq in H. congruence.
      + pose proof (Zgt_cases mn' mx') as K. rewrite H in K. exact K.
    - intros H. destruct (mx =? 0) eqn:E0; [reflexivity|]. cbn [negb andb].
      apply Z.eqb_neq in E0. specialize (H mx mn eq_refl eq_refl E0).
      destruct (mn >? mx) eqn:G; [apply Z.gtb_gt in G; lia | reflexivity]. }
  apply conj_iff.
  { destruct (ServerAPIOptions c) as [v|].
    - split; [intros H v' E; inversion E; subst; exact H | auto].
    - split; [discriminate | reflexivity]. }
  apply conj_iff.
  { destruct (LoadBalanced c) as [[|]|]; cbn [set_true];
      try (split; [discriminate | reflexivity]).
    rewrite !or_else_none, !check_none, Nat.ltb_ge, is_set_false,
      set_true_false. split; [auto|]. intros H. apply H. reflexivity. }
  apply conj_iff.
  { destruct (SRVMaxHosts c) as [n|]; [|split; [discriminate | reflexivity]].
    destruct (n >? 0) eqn:G.
    - apply Z.gtb_gt in G.
      rewrite or_else_none, !check_none, is_set_false, set_true_false.
      split.
      + intros H n' E _. inversion E; subst. exact H.
      + intros H. apply (H n eq_refl). lia.
    - pose proof (Zgt_cases n 0) as K. rewrite G in K.
      split; [|reflexivity]. intros _ n' E Hp. inversion E; subst. lia. }
  apply conj_iff.
  { destruct (ServerMonitoringMode c) as [m|];
      [|split; [discriminate | reflexivity]].
    rewrite check_none, negb_false_iff. split.
    - intros H m' E. inversion E; subst. exact H.
    - auto. }
  apply conj_iff.
  { destruct (Timeout c) as [t|]; [|split; [discriminate | reflexivity]].
    rewrite check_none, Z.ltb_ge. split.
    - intros H t' E. inversion E; subst. exact H.
    - auto. }
  destruct (Auth c) as [a|]; [|split; [discriminate | reflexivity]].
  destruct (String.eqb (AuthMechanism a) MongoDBOIDC) eqn:E.
  - apply String.eqb_eq in E. split.
    + intros H a' Ea _. inversion Ea; subst. exact H.
    + intros H. apply (H a eq_refl E).
  - apply String.eqb_neq in E. split; [|reflexivity].
    intros _ a' Ea Em. inversion Ea; subst. contradiction.
Qed.

End ValidateFacts.

Section OIDC.
Variables MongoDBOIDC AllowedHostsProp EnvironmentProp ResourceProp
  GCPEnvironmentValue AzureEnvironmentValue K8SEnvironmentValue
  TestEnvironmentValue : string.
Variable fmt_q : string -> string.

Lemma validate_props_none props :
  validate_props AllowedHostsProp EnvironmentProp ResourceProp fmt_q props
  = None ->
  forall k v, In (k, v) props ->
              k = AllowedHostsProp \/ k = EnvironmentProp \/ k = ResourceProp.
Proof.
  induction props as [|[p w] rest IH]; intros H k v Hin; [contradiction|].
  cbn [validate_props] in H.
  destruct (String.eqb p AllowedHostsProp) eqn:E1;
    destruct (String.eqb p EnvironmentProp) eqn:E2;
    destruct (String.eqb p ResourceProp) eqn:E3;
    cbn [orb] in H; try discriminate;
    (destruct Hin as [Hin|Hin]; [inversion Hin; subst|apply (IH H k v Hin)]);
    try (apply String.eqb_eq in E1; auto; fail);
    try (apply String.eqb_eq in E2; auto; fail);
    try (apply String.eqb_eq in E3; auto; fail).
Qed.

Ltac norm_bools :=
  repeat match goal with
         | H : negb _ = true |- _ => apply negb_true_iff in H
         | H : negb _ = false |- _ => apply negb_false_iff in H
         | H : _ && _ = true |- _ => apply andb_true_iff in H; destruct H
         | H : _ || _ = false |- _ => apply orb_false_iff in H; destruct H
         | H : _ || _ = true |- _ => apply orb_true_iff in H
         | H : String.eqb _ _ = true |- _ => apply String.eqb_eq in H
         | H : String.eqb _ _ = false |- _ => apply String.eqb_neq in H
         end.

(** X19: a credential that passes the OIDC checks of [Validate] has no
    password and at most one of the two callbacks; without a human
    callback it names no allowed hosts; without any callback it names
    an environment; every property it carries is one of allowed hosts,
    environment and resource; and an environment that is present is
    one of gcp, azure, k8s and test, where gcp and azure come with a
    resource and with no callback at all. *)
Theorem oidc_credential_constraints :
  forall a,
    validate_oidc MongoDBOIDC AllowedHostsProp EnvironmentProp ResourceProp
      GCPEnvironmentValue AzureEnvironmentValue K8SEnvironmentValue
      TestEnvironmentValue fmt_q a = None ->
    Password a = ""%string
    /\ (OIDCMachineCallback a = false \/ OIDCHumanCallback a = false)
    /\ (OIDCHumanCallback a = false ->
        map_index (AuthMechanismProperties a) AllowedHostsProp = ""%string)
    /\ (OIDCMachineCallback a = false -> OIDCHumanCallback a = false ->
        map_index (AuthMechanismProperties a) EnvironmentProp <> ""%string)
    /\ (forall k v, In (k, v) (AuthMechanismProperties a) ->
        k = AllowedHostsProp \/ k = EnvironmentProp \/ k = ResourceProp)
    /\ (forall env,
          map_get (AuthMechanismProperties a) EnvironmentProp = Some env ->
          (env = GCPEnvironmentValue \/ env = AzureEnvironmentValue
           \/ env = K8SEnvironmentValue \/ env = TestEnvironmentValue)
          /\ (env = GCPEnvironmentValue \/ env = AzureEnvironmentValue ->
              map_index (AuthMechanismProperties a) ResourceProp <> ""%string
              /\ OIDCMachineCallback a = false
              /\ OIDCHumanCallback a = false)).
Proof.
  intros a H.
  unfold validate_oidc, validate_environment, validate_no_callbacks in H.
  destruct (OIDCMachineCallback a) eqn:Em;
    destruct (OIDCHumanCallback a) eqn:Eh;
    cbn [andb negb] in H.
  all: destruct (String.eqb (Password a) "") eqn:Ep;
    cbn [negb] in H; try discriminate.
  all: destruct (String.eqb (map_index (AuthMechanismProperties a)
                               AllowedHostsProp) "") eqn:Ea;
    cbn [negb] in H; try discriminate.
  all: destruct (String.eqb (map_index (AuthMechanismProperties a)
                               EnvironmentProp) "") eqn:Een;
    try discriminate.
  all: destruct (validate_props AllowedHostsProp EnvironmentProp ResourceProp
                   fmt_q (AuthMechanismProperties a)) eqn:Ev;
    try discriminate;
    pose proof (validate_props_none _ Ev) as Hk.
  all: destruct (map_get (AuthMechanismProperties a) EnvironmentProp)
    as [env|] eqn:Ee.
  all: try (destruct (String.eqb env GCPEnvironmentValue
                      || String.eqb env AzureEnvironmentValue) eqn:Eg;
            [destruct (String.eqb (map_index (AuthMechanismProperties a)
                                     ResourceProp) "") eqn:Er;
             try discriminate
            |destruct (String.eqb env K8SEnvironmentValue) eqn:Ek;
             [try discriminate
             |destruct (String.eqb env TestEnvironmentValue) eqn:Et;
              try discriminate]]).
  all: norm_bools.
  all: split; [assumption|];
    split; [solve [auto]|];
    split; [solve [auto|intros; congruence]|];
    split; [solve [auto|intros; congruence]|];
    split; [exact Hk|].
  all: intros env' E'; try discriminate; injection E' as E'; subst env'.
  all: split;
    [try (destruct Eg as [Eg|Eg]; apply String.eqb_eq in Eg; auto; fail);
     auto 6
    |intros [K|K]; try congruence; repeat split; auto].
Qed.

End OIDC.

Lemma oidc_credential_constraints_witness :
  Password test_credential = ""%string
  /\ (OIDCMachineCallback test_credential = false
      \/ OIDCHumanCallback test_credential = false)
  /\ map_get (AuthMechanismProperties test_credential) "ENVIRONMENT"
     = Some "test"%string.
Proof.
  destruct (oidc_credential_constraints "MONGODB-OIDC" "ALLOWED_HOSTS"
              "ENVIRONMENT" "TOKEN_RESOURCE" "gcp" "azure" "k8s" "test"
              (fun s => s) test_credential eq_refl)
    as (P & C & _).
  split; [exact P|]. split; [exact C | reflexivity].
Defined.

(** ** Network errors *)

Lemma direct_Timeout_net e : direct_Timeout e = true -> net_Timeout e = true.
Proof. destruct e; cbn; congruence. Qed.

Lemma direct_Timeout_not_canceled e :
  direct_Timeout e = true -> errors_Is_Canceled e = false.
Proof. destruct e; cbn; congruence. Qed.

(** X20: [transformNetworkError] returns nil for a nil error and an
    error for every other.  When the context's error is a
    cancellation, that error is returned.  Otherwise the result is a
    timeout exactly when the original is, and a cancellation exactly
    when the original is; the original is returned as it is unless the
    context's deadline was used and the original is itself a network
    error that timed out, in which case the result wraps
    [context.DeadlineExceeded] and carries the original's text. *)
Theorem transformNetworkError_classification :
  forall ctx used,
    transformNetworkError ctx None used = None
    /\ forall e,
        exists r,
          transformNetworkError ctx (Some e) used = Some r
          /\ (forall ce, ctx_Err ctx = Some ce ->
                         errors_Is_Canceled ce = true -> r = ce)
          /\ ((forall ce, ctx_Err ctx = Some ce ->
                          errors_Is_Canceled ce = false) ->
              net_Timeout r = net_Timeout e
              /\ errors_Is_Canceled r = errors_Is_Canceled e
              /\ (used = false \/ direct_Timeout e = false -> r = e)
              /\ (used = true -> direct_Timeout e = true ->
                  r = fmt_Errorf
                        ("context deadline exceeded: client timed out waiting for server response: "
                         ++ Error e)%string
                        (Some context_DeadlineExceeded))).
Proof.
  intros ctx used. split; [reflexivity|]. intros e.
  unfold transformNetworkError.
  destruct (ctx_Err ctx) as [ce|] eqn:Ec.
  - destruct (errors_Is_Canceled ce) eqn:Ei.
    + exists ce. split; [reflexivity|]. split; [congruence|].
      intros H. specialize (H ce eq_refl). congruence.
    + destruct used; cbn [negb].
      * destruct (direct_Timeout e) eqn:Ed.
        -- eexists. split; [reflexivity|]. split; [congruence|]. intros _.
           cbn. rewrite (direct_Timeout_net e Ed),
             (direct_Timeout_not_canceled e Ed).
           repeat split; auto. intros [K|K]; discriminate.
        -- exists e. split; [reflexivity|]. split; [congruence|]. intros _.
           repeat split; auto. congruence.
      * exists e. split; [reflexivity|]. split; [congruence|]. intros _.
        repeat split; auto. discriminate.
  - destruct used; cbn [negb].
    + destruct (direct_Timeout e) eqn:Ed.
      * eexists. split; [reflexivity|]. split; [discriminate|]. intros _.
        cbn. rewrite (direct_Timeout_net e Ed),
          (direct_Timeout_not_canceled e Ed).
        repeat split; auto. intros [K|K]; discriminate.
      * exists e. split; [reflexivity|]. split; [discriminate|]. intros _.
        repeat split; auto. congruence.
    + exists e. split; [reflexivity|]. split; [discriminate|]. intros _.
      repeat split; auto. discriminate.
Qed.
